(** * nova-renderer: the Vulkan render engine

    A shallow embedding of [vulkan_render_engine] (mesh streaming, shaderpack
    compilation, frame loop).  Unsigned integers are [N] with their wrap-around
    written out, [std::unordered_map]s whose iteration order is irrelevant are
    [gmap]s, exceptions and undefined behaviour are explicit outcomes, and the
    calls made to the Vulkan driver are recorded in an event log kept in the
    engine state. *)

From Stdlib Require Import NArith Permutation Sorted.
From stdpp Require Import gmap strings list fin_maps pretty.

(** ** Machine integers *)

Module UInt.
Local Open Scope N_scope.

Definition wrap32 (x : N) : N := x mod 2 ^ 32.
Definition wrap64 (x : N) : N := x mod 2 ^ 64.

(** [a % b] on unsigned operands: undefined for a zero divisor. *)
Definition umod (a b : N) : option N :=
  if N.eqb b 0 then None else Some (a mod b).

(** [a / b] on unsigned operands: undefined for a zero divisor. *)
Definition udiv (a b : N) : option N :=
  if N.eqb b 0 then None else Some (a / b).

End UInt.

(** ** Exceptions and outcomes *)

Inductive exn : Type :=
  | runtime_error (what : string)
  | out_of_range (what : string)
  | render_engine_initialization_exception (what : string)
  | render_engine_rendering_exception (what : string)
  | shader_layout_creation_failed (what : string)
  | pass_ordering_exception (what : string)
  | allocation_failed (what : string).

(** What a call does: it returns, it throws, or it runs into behaviour the
    language leaves undefined (division by zero, out-of-bounds access). *)
Inductive outcome (A : Type) : Type :=
  | Returns (a : A)
  | Throws (e : exn)
  | Undefined.
Arguments Returns {A} a.
Arguments Throws {A} e.
Arguments Undefined {A}.

Definition what (e : exn) : string :=
  match e with
  | runtime_error w | out_of_range w
  | render_engine_initialization_exception w
  | render_engine_rendering_exception w
  | shader_layout_creation_failed w
  | pass_ordering_exception w
  | allocation_failed w => w
  end.

Definition obind {A B} (m : outcome A) (k : A -> outcome B) : outcome B :=
  match m with
  | Returns a => k a
  | Throws e => Throws e
  | Undefined => Undefined
  end.

(** A value the language leaves undefined when absent. *)
Definition defined {A} (o : option A) : outcome A :=
  match o with Some a => Returns a | None => Undefined end.

(** ** Mesh options and their validation *)

Module MeshOptions.
Local Open Scope N_scope.

(** [settings_options::mesh_options]. *)
Record mesh_options : Type := {
  buffer_part_size : N;
  new_buffer_size : N;
  max_total_allocation : N
}.

Section Validate.
(** [sizeof(full_vertex)]: the struct is declared outside this unit. *)
Variable sizeof_full_vertex : N.

Definition buffer_part_size_msg : string :=
  "mesh.buffer_part_size must be a multiple of sizeof(full_vertex) (which equals "
    +:+ pretty sizeof_full_vertex +:+ ")".

Definition new_buffer_size_msg (options : mesh_options) : string :=
  "mesh.new_buffer_size must be a multiple of mesh.buffer_part_size (which equals "
    +:+ pretty (buffer_part_size options) +:+ ")".

Definition max_total_allocation_msg (options : mesh_options) : string :=
  "mesh.max_total_allocation must be a multiple of mesh.new_buffer_size (which equals "
    +:+ pretty (max_total_allocation options) +:+ ")".

(** [vulkan_render_engine::validate_mesh_options]. *)
Definition validate_mesh_options (options : mesh_options) : outcome unit :=
  obind (defined (UInt.umod (buffer_part_size options) sizeof_full_vertex)) (fun r1 =>
  if negb (N.eqb r1 0) then Throws (runtime_error buffer_part_size_msg) else
  obind (defined (UInt.umod (new_buffer_size options) (buffer_part_size options))) (fun r2 =>
  if negb (N.eqb r2 0) then Throws (runtime_error (new_buffer_size_msg options)) else
  obind (defined (UInt.umod (max_total_allocation options) (new_buffer_size options))) (fun r3 =>
  if negb (N.eqb r3 0) then Throws (runtime_error (max_total_allocation_msg options)) else
  Returns tt))).
End Validate.

(** [a] is an exact multiple of [b]. *)
Definition multiple_of (a b : N) : Prop := exists k, a = k * b.

(** The three relationships the options have to satisfy. *)
Definition sizes_aligned (sizeof_full_vertex : N) (options : mesh_options) : Prop :=
  multiple_of (buffer_part_size options) sizeof_full_vertex /\
  multiple_of (new_buffer_size options) (buffer_part_size options) /\
  multiple_of (max_total_allocation options) (new_buffer_size options).

(** The message of [e] starts with the name of the option [field]. *)
Definition names_field (field : string) (e : exn) : Prop :=
  String.prefix field (what e) = true.

End MeshOptions.

(** ** Vulkan objects and the calls made to the driver *)

Definition handle : Type := N.

Inductive VkResult : Type :=
  | VK_SUCCESS
  | VK_SUBOPTIMAL_KHR
  | VK_ERROR_OUT_OF_DATE_KHR
  | VK_ERROR (code : N).

Global Instance VkResult_eq_dec : EqDecision VkResult.
Proof. solve_decision. Defined.

Inductive VkDescriptorType : Type :=
  | VK_DESCRIPTOR_TYPE_SAMPLER
  | VK_DESCRIPTOR_TYPE_COMBINED_IMAGE_SAMPLER
  | VK_DESCRIPTOR_TYPE_SAMPLED_IMAGE
  | VK_DESCRIPTOR_TYPE_STORAGE_IMAGE
  | VK_DESCRIPTOR_TYPE_UNIFORM_BUFFER
  | VK_DESCRIPTOR_TYPE_STORAGE_BUFFER.

Global Instance VkDescriptorType_eq_dec : EqDecision VkDescriptorType.
Proof. solve_decision. Defined.

Inductive VkFormat : Type :=
  | VK_FORMAT_R8G8B8A8_UNORM
  | VK_FORMAT_R16G16B16A16_SFLOAT
  | VK_FORMAT_R32G32B32A32_SFLOAT
  | VK_FORMAT_D32_SFLOAT
  | VK_FORMAT_D24_UNORM_S8_UINT
  | VK_FORMAT_R10X6G10X6_UNORM_2PACK16.

Inductive queue : Type := graphics_queue | copy_queue | compute_queue.

(** [vk_buffer]: the buffer, and the address its allocation is mapped at
    ([alloc_info.pMappedData]). *)
Record vk_buffer : Type := {
  buffer : handle;
  pMappedData : N
}.

Global Instance vk_buffer_eq_dec : EqDecision vk_buffer.
Proof. solve_decision. Defined.

(** One part of a megabuffer, as the upload step reads it
    ([cmd.mem.parts[i].buffer], [cmd.mem.parts[i].offset]). *)
Record block_memory_part : Type := {
  part_buffer : handle;
  offset : N
}.

Record block_memory_allocation : Type := {
  parts : list block_memory_part
}.

(** [VkBufferCopy]. *)
Record VkBufferCopy : Type := {
  srcOffset : N;
  dstOffset : N;
  copy_size : N
}.

(** [VkDescriptorSetLayoutBinding]; no immutable samplers are ever set. *)
Record VkDescriptorSetLayoutBinding : Type := {
  dslb_binding : N;
  dslb_descriptorType : VkDescriptorType;
  dslb_descriptorCount : N;
  dslb_stageFlags : N
}.

Definition VK_SHADER_STAGE_ALL : N := 0x7FFFFFFF%N.
Definition VK_SHADER_STAGE_VERTEX_BIT : N := 0x1%N.
Definition VK_PIPELINE_STAGE_TESSELLATION_CONTROL_SHADER_BIT : N := 0x10%N.
Definition VK_PIPELINE_STAGE_TESSELLATION_EVALUATION_SHADER_BIT : N := 0x20%N.
Definition VK_PIPELINE_STAGE_GEOMETRY_SHADER_BIT : N := 0x40%N.
Definition VK_PIPELINE_STAGE_FRAGMENT_SHADER_BIT : N := 0x80%N.

(** Commands recorded into a command buffer.  The two barrier commands are
    what [block_allocator::add_barriers_before_data_upload] and
    [add_barriers_after_data_upload] record. *)
Inductive vk_cmd : Type :=
  | barriers_before_data_upload
  | vkCmdCopyBuffer (src dst : handle) (region : VkBufferCopy)
  | barriers_after_data_upload.

(** A command buffer handed to a queue: one recorded by this unit, or one of
    the [command_buffers] recorded elsewhere. *)
Inductive command_buffer : Type :=
  | recorded (cmds : list vk_cmd)
  | prerecorded (h : handle).

(** The driver calls of this unit, with the arguments that matter here. *)
Inductive vk_call : Type :=
  | vmaCreateBuffer (size : N) (out : vk_buffer)
  | vkCreateCommandPool (queueFamilyIndex : N) (out : handle)
  | vkAllocateCommandBuffers (commandPool : handle)
  | vkBeginCommandBuffer
  | vkEndCommandBuffer
  | vkWaitForFences (fence : handle)
  | vkResetFences (fence : handle)
  | vkAcquireNextImageKHR (semaphore : handle)
  | vkQueueSubmit (q : queue) (cmds : command_buffer)
      (wait signal : option handle) (fence : option handle)
  | vkQueuePresentKHR (wait : handle) (image_index : N)
  | vmaCreateImage (format : VkFormat) (out : handle)
  | vkCreateImageView (image : handle) (out : handle)
  | vkCreateRenderPass (attachments : option (list VkFormat)) (out : handle)
  | vkCreateShaderModule (code : list N) (out : handle)
  | vkCreateDescriptorSetLayout
      (bindings : list VkDescriptorSetLayoutBinding) (out : handle)
  | vkCreatePipelineLayout (set_layouts : list handle) (out : handle)
  | vkCreateGraphicsPipelines
      (stages : list (N * handle)) (layout render_pass : handle) (out : handle)
  | vkDestroyRenderPass (pass : handle)
  | vkDestroyPipeline (pipeline : handle)
  | vkDestroyImageView (view : handle)
  | vmaDestroyImage (image : handle).

(** ** Shaderpack data *)

Inductive pixel_format_enum : Type :=
  | RGBA8 | RGBA16F | RGBA32F | Depth | DepthStencil.

Record texture_resource_data : Type := {
  texture_name : string;
  pixel_format : pixel_format_enum
}.

Record vk_texture : Type := {
  texture_data : texture_resource_data;
  image : handle;
  image_view : handle
}.

Record material_data : Type := {
  material_name : string
}.

Record input_textures : Type := {
  bound_textures : list string
}.

(** [render_pass_data].  The source of this unit reads [name] and
    [texture_inputs] only. *)
Record render_pass_data : Type := {
  pass_name : string;
  texture_inputs : option input_textures;
  (** Modelled from the spec: the textures the pass is known to produce. *)
  texture_outputs : list string
}.

Record vk_render_pass : Type := {
  pass_data : render_pass_data;
  pass : handle
}.

Definition VK_NULL_HANDLE : handle := 0%N.

(** A resource as SPIRV-Cross reflects it, with its two decorations. *)
Record spirv_resource : Type := {
  resource_name : string;
  DecorationDescriptorSet : N;
  DecorationBinding : N
}.

Record ShaderResources : Type := {
  sampled_images : list spirv_resource;
  uniform_buffers : list spirv_resource
}.

Record shader_source : Type := {
  source : list N
}.

(** [pipeline_data]; the fixed-function state (blend factors, depth bias,
    topology) is passed to the driver unchanged and is left out. *)
Record pipeline_data : Type := {
  pipeline_name : string;
  pipeline_pass : string;
  vertex_shader : shader_source;
  geometry_shader : option shader_source;
  tessellation_control_shader : option shader_source;
  tessellation_evaluation_shader : option shader_source;
  fragment_shader : option shader_source
}.

Record vk_pipeline : Type := {
  pipeline_data_of : pipeline_data;
  layout : handle;
  pipeline : handle
}.

Record vk_resource_binding : Type := {
  set : N;
  binding : N;
  descriptorType : VkDescriptorType;
  descriptorCount : N
}.

Global Instance vk_resource_binding_eq_dec : EqDecision vk_resource_binding.
Proof. solve_decision. Defined.

Record shaderpack_resources : Type := {
  textures : list texture_resource_data
}.

Record shaderpack_data : Type := {
  resources : shaderpack_resources;
  shaderpack_materials : list material_data;
  passes : list render_pass_data;
  shaderpack_pipelines : list pipeline_data
}.

(** ** Meshes *)

(** A vertex is the bytes of its [full_vertex] record. *)
Definition full_vertex : Type := list Byte.byte.

Record mesh_data : Type := {
  vertex_data : list full_vertex
}.

Record vk_mesh : Type := {
  memory : block_memory_allocation;
  mesh_input : mesh_data
}.

Record staging_buffer_upload_command : Type := {
  staging_buffers : list vk_buffer;
  mem : block_memory_allocation
}.

(** The task [add_mesh] hands to the scheduler for one part: the arguments
    bound to the lambda's three parameters. *)
Record staging_copy_task : Type := {
  buffer_to_upload_to : vk_buffer;
  vertices_to_upload : N;
  num_vertices : N
}.

(** Tasks handed to the scheduler with no completion counter.  The second
    lambda has a parameter [buffers_to_free]; the task carries the vector
    handed to [AddTask] for it, if one is. *)
Inductive task : Type :=
  | upload_new_mesh_parts_task
  | return_staging_buffers_task (buffers_to_free : option (list vk_buffer)).

(** What a process does with the engine. *)
Inductive api_call : Type :=
  | call_add_mesh (input_mesh : mesh_data)
  | call_delete_mesh (mesh_id : N)
  | call_render_frame
  | call_set_shaderpack (data : shaderpack_data)
  | call_run_next_task.

Definition is_add_mesh (c : api_call) : bool :=
  match c with call_add_mesh _ => true | _ => false end.

(** ** What the engine is linked against

    The block allocator ([mesh_manager]), the driver, SPIRV-Cross, the
    render graph builder ([order_passes]) and the standard library are
    collaborators whose code is outside this unit.  The driver answers its
    [n]-th call with [vk_result n]; an acquire that delivers an image
    delivers [vk_image_index n].  [unordered_map] is the
    [std::unordered_map<std::string, render_pass_data>] of the standard
    library, with its default constructor and the assignment
    [m[name] = data]; in which order it hands out its entries is the
    library's matter. *)
Class Platform : Type := {
  sizeof_full_vertex : N;
  MAX_FRAMES_IN_QUEUE : N;
  allocator : Type;
  allocate_mesh : allocator -> N -> outcome block_memory_allocation * allocator;
  free : allocator -> block_memory_allocation -> allocator;
  vk_result : nat -> VkResult;
  vk_image_index : nat -> N;
  get_shader_resources : list N -> ShaderResources;
  unordered_map : Type;
  unordered_map_empty : unordered_map;
  unordered_map_assign : string -> render_pass_data -> unordered_map -> unordered_map;
  order_passes : unordered_map -> outcome (list string)
}.

(** ** The engine state

    The members of [vulkan_render_engine], grouped by what they serve. *)

Record driver_state : Type := {
  vk_log : list vk_call;
  next_handle : handle;
  mapped_memory : gmap N (list Byte.byte);
  nova_log : list string
}.

Record shaderpack_state : Type := {
  shaderpack_loaded : bool;
  render_passes : gmap string vk_render_pass;
  render_passes_by_order : list string;
  pipelines : gmap string vk_pipeline;
  materials : gmap string material_data;
  dynamic_textures : gmap string vk_texture
}.

Record frame_state : Type := {
  current_frame : N;
  current_swapchain_index : N;
  submit_fences : list handle;
  image_available_semaphores : list handle;
  render_finished_semaphores : list handle;
  command_buffers : list handle;
  mesh_rendering_done : handle;
  upload_to_megamesh_buffer_done : handle
}.

(** The queue family indices [create_device] leaves, and the command pools.
    [command_pools_by_queue_idx] is an [ftl::ThreadLocal]: it holds one map
    from queue family index to pool for each thread, made by
    [make_new_command_pools] when that thread first asks for it.
    [current_thread] is the thread the scheduler runs the task at hand
    on. *)
Record device_state : Type := {
  graphics_queue_index : N;
  copy_queue_index : N;
  compute_queue_index : N;
  current_thread : N;
  command_pools_by_queue_idx : gmap N (gmap N handle)
}.

Section Engine.
Context `{P : Platform}.

Record block_allocator : Type := {
  buffer_part_size : N;
  blocks : allocator
}.

Record mesh_state : Type := {
  mesh_manager : block_allocator;
  mesh_staging_buffers : list vk_buffer;
  mesh_upload_queue : list staging_buffer_upload_command;
  next_mesh_id : N;
  meshes : gmap N vk_mesh
}.

Record engine : Type := {
  driver : driver_state;
  shaderpack : shaderpack_state;
  mesh : mesh_state;
  frame : frame_state;
  scheduled : list task;
  device : device_state
}.

Definition with_driver (f : driver_state -> driver_state) (e : engine) : engine :=
  {| driver := f (driver e); shaderpack := shaderpack e; mesh := mesh e;
     frame := frame e; scheduled := scheduled e; device := device e |}.

Definition with_shaderpack (f : shaderpack_state -> shaderpack_state) (e : engine) : engine :=
  {| driver := driver e; shaderpack := f (shaderpack e); mesh := mesh e;
     frame := frame e; scheduled := scheduled e; device := device e |}.

Definition with_mesh (f : mesh_state -> mesh_state) (e : engine) : engine :=
  {| driver := driver e; shaderpack := shaderpack e; mesh := f (mesh e);
     frame := frame e; scheduled := scheduled e; device := device e |}.

Definition with_frame (f : frame_state -> frame_state) (e : engine) : engine :=
  {| driver := driver e; shaderpack := shaderpack e; mesh := mesh e;
     frame := f (frame e); scheduled := scheduled e; device := device e |}.

Definition with_scheduled (f : list task -> list task) (e : engine) : engine :=
  {| driver := driver e; shaderpack := shaderpack e; mesh := mesh e;
     frame := frame e; scheduled := f (scheduled e); device := device e |}.

Definition with_device (f : device_state -> device_state) (e : engine) : engine :=
  {| driver := driver e; shaderpack := shaderpack e; mesh := mesh e;
     frame := frame e; scheduled := scheduled e; device := f (device e) |}.

Definition set_vk_log (l : list vk_call) (d : driver_state) : driver_state :=
  {| vk_log := l; next_handle := next_handle d;
     mapped_memory := mapped_memory d; nova_log := nova_log d |}.

Definition set_next_handle (h : handle) (d : driver_state) : driver_state :=
  {| vk_log := vk_log d; next_handle := h;
     mapped_memory := mapped_memory d; nova_log := nova_log d |}.

Definition set_mapped_memory (m : gmap N (list Byte.byte)) (d : driver_state) : driver_state :=
  {| vk_log := vk_log d; next_handle := next_handle d;
     mapped_memory := m; nova_log := nova_log d |}.

Definition set_nova_log (l : list string) (d : driver_state) : driver_state :=
  {| vk_log := vk_log d; next_handle := next_handle d;
     mapped_memory := mapped_memory d; nova_log := l |}.

Definition set_shaderpack_loaded (b : bool) (s : shaderpack_state) : shaderpack_state :=
  {| shaderpack_loaded := b; render_passes := render_passes s;
     render_passes_by_order := render_passes_by_order s; pipelines := pipelines s;
     materials := materials s; dynamic_textures := dynamic_textures s |}.

Definition set_render_passes (m : gmap string vk_render_pass) (s : shaderpack_state) : shaderpack_state :=
  {| shaderpack_loaded := shaderpack_loaded s; render_passes := m;
     render_passes_by_order := render_passes_by_order s; pipelines := pipelines s;
     materials := materials s; dynamic_textures := dynamic_textures s |}.

Definition set_render_passes_by_order (l : list string) (s : shaderpack_state) : shaderpack_state :=
  {| shaderpack_loaded := shaderpack_loaded s; render_passes := render_passes s;
     render_passes_by_order := l; pipelines := pipelines s;
     materials := materials s; dynamic_textures := dynamic_textures s |}.

Definition set_pipelines (m : gmap string vk_pipeline) (s : shaderpack_state) : shaderpack_state :=
  {| shaderpack_loaded := shaderpack_loaded s; render_passes := render_passes s;
     render_passes_by_order := render_passes_by_order s; pipelines := m;
     materials := materials s; dynamic_textures := dynamic_textures s |}.

Definition set_materials (m : gmap string material_data) (s : shaderpack_state) : shaderpack_state :=
  {| shaderpack_loaded := shaderpack_loaded s; render_passes := render_passes s;
     render_passes_by_order := render_passes_by_order s; pipelines := pipelines s;
     materials := m; dynamic_textures := dynamic_textures s |}.

Definition set_dynamic_textures (m : gmap string vk_texture) (s : shaderpack_state) : shaderpack_state :=
  {| shaderpack_loaded := shaderpack_loaded s; render_passes := render_passes s;
     render_passes_by_order := render_passes_by_order s; pipelines := pipelines s;
     materials := materials s; dynamic_textures := m |}.

Definition set_mesh_manager (a : block_allocator) (s : mesh_state) : mesh_state :=
  {| mesh_manager := a; mesh_staging_buffers := mesh_staging_buffers s;
     mesh_upload_queue := mesh_upload_queue s; next_mesh_id := next_mesh_id s;
     meshes := meshes s |}.

Definition set_mesh_staging_buffers (l : list vk_buffer) (s : mesh_state) : mesh_state :=
  {| mesh_manager := mesh_manager s; mesh_staging_buffers := l;
     mesh_upload_queue := mesh_upload_queue s; next_mesh_id := next_mesh_id s;
     meshes := meshes s |}.

Definition set_mesh_upload_queue (q : list staging_buffer_upload_command) (s : mesh_state) : mesh_state :=
  {| mesh_manager := mesh_manager s; mesh_staging_buffers := mesh_staging_buffers s;
     mesh_upload_queue := q; next_mesh_id := next_mesh_id s;
     meshes := meshes s |}.

Definition set_next_mesh_id (n : N) (s : mesh_state) : mesh_state :=
  {| mesh_manager := mesh_manager s; mesh_staging_buffers := mesh_staging_buffers s;
     mesh_upload_queue := mesh_upload_queue s; next_mesh_id := n;
     meshes := meshes s |}.

Definition set_meshes (m : gmap N vk_mesh) (s : mesh_state) : mesh_state :=
  {| mesh_manager := mesh_manager s; mesh_staging_buffers := mesh_staging_buffers s;
     mesh_upload_queue := mesh_upload_queue s; next_mesh_id := next_mesh_id s;
     meshes := m |}.

Definition set_current_frame (n : N) (s : frame_state) : frame_state :=
  {| current_frame := n; current_swapchain_index := current_swapchain_index s;
     submit_fences := submit_fences s;
     image_available_semaphores := image_available_semaphores s;
     render_finished_semaphores := render_finished_semaphores s;
     command_buffers := command_buffers s;
     mesh_rendering_done := mesh_rendering_done s;
     upload_to_megamesh_buffer_done := upload_to_megamesh_buffer_done s |}.

Definition set_current_swapchain_index (n : N) (s : frame_state) : frame_state :=
  {| current_frame := current_frame s; current_swapchain_index := n;
     submit_fences := submit_fences s;
     image_available_semaphores := image_available_semaphores s;
     render_finished_semaphores := render_finished_semaphores s;
     command_buffers := command_buffers s;
     mesh_rendering_done := mesh_rendering_done s;
     upload_to_megamesh_buffer_done := upload_to_megamesh_buffer_done s |}.

Definition set_command_pools_by_queue_idx (m : gmap N (gmap N handle)) (s : device_state)
    : device_state :=
  {| graphics_queue_index := graphics_queue_index s;
     copy_queue_index := copy_queue_index s;
     compute_queue_index := compute_queue_index s;
     current_thread := current_thread s;
     command_pools_by_queue_idx := m |}.

(** *** Member functions as state transformers *)

Definition M (A : Type) : Type := engine -> outcome A * engine.

Definition ret {A} (a : A) : M A := fun e => (Returns a, e).

Definition bind {A B} (m : M A) (k : A -> M B) : M B :=
  fun e =>
    match m e with
    | (Returns a, e') => k a e'
    | (Throws x, e') => (Throws x, e')
    | (Undefined, e') => (Undefined, e')
    end.

Definition throw {A} (x : exn) : M A := fun e => (Throws x, e).

Definition undefined_behaviour {A} : M A := fun e => (Undefined, e).

Definition gets {A} (f : engine -> A) : M A := fun e => (Returns (f e), e).

Definition modify (f : engine -> engine) : M unit := fun e => (Returns tt, f e).

Definition lift {A} (o : outcome A) : M A := fun e => (o, e).

End Engine.

Notation "'let!' x ':=' m 'in' k" := (bind m (fun x => k))
  (at level 10, x pattern, m at level 100, k at level 200).
Notation "'do!' m 'in' k" := (bind m (fun _ => k))
  (at level 10, m at level 100, k at level 200).

Section Driver.
Context `{P : Platform}.

(** [for(x : l) body(x)]. *)
Fixpoint for_each {A} (l : list A) (body : A -> M unit) : M unit :=
  match l with
  | [] => ret tt
  | x :: l' => do! body x in for_each l' body
  end.

(** [v.at(i)]: throws [std::out_of_range] past the end. *)
Definition at_ {A} (v : list A) (i : N) : M A :=
  match v !! N.to_nat i with
  | Some x => ret x
  | None => throw (out_of_range "vector::_M_range_check")
  end.

(** [m.at(k)] on a map: throws [std::out_of_range] for an absent key. *)
Definition map_at `{Countable K} {A} (m : gmap K A) (k : K) : M A :=
  match m !! k with
  | Some x => ret x
  | None => throw (out_of_range "_Map_base::at")
  end.

(** [v[i]]: undefined past the end. *)
Definition index {A} (v : list A) (i : N) : M A :=
  match v !! N.to_nat i with
  | Some x => ret x
  | None => undefined_behaviour
  end.

(** [NOVA_LOG(ERROR) << msg]. *)
Definition NOVA_LOG_ERROR (msg : string) : M unit :=
  modify (with_driver (fun d => set_nova_log (nova_log d ++ [msg]) d)).

(** A driver call: it is logged and the driver's answer comes back. *)
Definition call (c : vk_call) : M VkResult :=
  fun e =>
    (Returns (vk_result (length (vk_log (driver e)))),
     with_driver (fun d => set_vk_log (vk_log d ++ [c]) d) e).

(** The handle a creating call writes to its output parameter. *)
Definition fresh_handle : M handle :=
  fun e =>
    (Returns (next_handle (driver e)),
     with_driver (fun d => set_next_handle (N.succ (next_handle d)) d) e).

(** Modelled from the spec: [NOVA_THROW_IF_VK_ERROR] (vulkan_utils.hpp), "any
    non-success result from an object-creation or submission call is
    escalated immediately as an initialization or rendering exception". *)
Definition NOVA_THROW_IF_VK_ERROR (r : VkResult) (exception : string -> exn) : M unit :=
  match r with
  | VK_SUCCESS => ret tt
  | _ => throw (exception "vulkan call failed")
  end.

End Driver.

(** ** The command pools of the threads *)

Module ThreadLocal.
Section Pools.
Context `{P : Platform}.
Local Open Scope N_scope.

(** The loop of [make_new_command_pools] over the queue indices. *)
Fixpoint create_command_pools (queue_indices : list N) (pools_by_queue : gmap N handle)
    : M (gmap N handle) :=
  match queue_indices with
  | [] => ret pools_by_queue
  | queue_index :: rest =>
      let! command_pool := fresh_handle in
      let! r := call (vkCreateCommandPool queue_index command_pool) in
      do! NOVA_THROW_IF_VK_ERROR r render_engine_initialization_exception in
      create_command_pools rest (<[queue_index := command_pool]> pools_by_queue)
  end.

(** [vulkan_render_engine::make_new_command_pools]. *)
Definition make_new_command_pools : M (gmap N handle) :=
  let! graphics := gets (fun e => graphics_queue_index (device e)) in
  let! copy := gets (fun e => copy_queue_index (device e)) in
  let! compute := gets (fun e => compute_queue_index (device e)) in
  let queue_indices := [graphics; copy; compute] in
  create_command_pools queue_indices ∅.

(** [command_pools_by_queue_idx.operator->()]: the map of the current
    thread; on the thread's first use it is made by the factory the
    constructor gave, [make_new_command_pools], and kept. *)
Definition command_pools_of_current_thread : M (gmap N handle) :=
  let! thread := gets (fun e => current_thread (device e)) in
  let! all := gets (fun e => command_pools_by_queue_idx (device e)) in
  match all !! thread with
  | Some pools => ret pools
  | None =>
      let! pools := make_new_command_pools in
      do! modify (with_device (fun s =>
            set_command_pools_by_queue_idx
              (<[thread := pools]> (command_pools_by_queue_idx s)) s)) in
      ret pools
  end.

(** [vulkan_render_engine::get_command_buffer_pool_for_current_thread]. *)
Definition get_command_buffer_pool_for_current_thread (queue_index : N) : M handle :=
  let! pools := command_pools_of_current_thread in
  map_at pools queue_index.

End Pools.
End ThreadLocal.

(** ** Mesh streaming *)

Section Meshes.
Context `{P : Platform}.
Local Open Scope N_scope.

Definition the_buffer_part_size : M N :=
  gets (fun e => buffer_part_size (mesh_manager (mesh e))).

(** [mesh_manager->allocate_mesh(size)]. *)
Definition mesh_manager_allocate_mesh (vertex_size : N) : M block_memory_allocation :=
  fun e =>
    let mm := mesh_manager (mesh e) in
    let '(o, blocks') := allocate_mesh (blocks mm) vertex_size in
    (o, with_mesh (set_mesh_manager
          {| buffer_part_size := buffer_part_size mm; blocks := blocks' |}) e).

(** [mesh_manager->free(allocation)]. *)
Definition mesh_manager_free (allocation : block_memory_allocation) : M unit :=
  modify (with_mesh (fun s =>
    set_mesh_manager
      {| buffer_part_size := buffer_part_size (mesh_manager s);
         blocks := free (blocks (mesh_manager s)) allocation |} s)).

(** [vulkan_render_engine::get_or_allocate_mesh_staging_buffer].  A new
    buffer is mapped at an address of its own; what its memory holds before
    the first write is left open by the driver and taken to be zeroes. *)
Definition get_or_allocate_mesh_staging_buffer : M vk_buffer :=
  let! pool := gets (fun e => mesh_staging_buffers (mesh e)) in
  match last pool with
  | Some ret_val =>
      do! modify (with_mesh (set_mesh_staging_buffers (removelast pool))) in
      ret ret_val
  | None =>
      let! part_size := the_buffer_part_size in
      let! h := fresh_handle in
      let new_buffer := {| buffer := h; pMappedData := h |} in
      let! r := call (vmaCreateBuffer part_size new_buffer) in
      do! NOVA_THROW_IF_VK_ERROR r render_engine_rendering_exception in
      do! modify (with_driver (fun d =>
            set_mapped_memory
              (<[h := replicate (N.to_nat part_size) Byte.x00]> (mapped_memory d)) d)) in
      ret new_buffer
  end.

(** [vulkan_render_engine::free_mesh_staging_buffer]. *)
Definition free_mesh_staging_buffer (b : vk_buffer) : M unit :=
  modify (with_mesh (fun s =>
    set_mesh_staging_buffers (mesh_staging_buffers s ++ [b]) s)).

(** [std::memcpy(dst, src, n)] into a mapped region: [n] bytes.  Reading past
    the source or writing past the region is undefined. *)
Definition memcpy (dst : N) (src : list Byte.byte) (n : N) : M unit :=
  fun e =>
    match mapped_memory (driver e) !! dst with
    | Some region =>
        if decide (N.to_nat n <= length src /\ N.to_nat n <= length region)%nat
        then (Returns tt,
              with_driver (fun d =>
                set_mapped_memory
                  (<[dst := take (N.to_nat n) src ++ drop (N.to_nat n) region]>
                     (mapped_memory d)) d) e)
        else (Undefined, e)
    | None => (Undefined, e)
    end.

(** The bytes a pointer to [vertex_data[first]] points at. *)
Definition bytes_from (input_mesh : mesh_data) (first : N) : list Byte.byte :=
  concat (drop (N.to_nat first) (vertex_data input_mesh)).

(** The body of the lambda [add_mesh] schedules:
    [memcpy(buffer_to_upload_to->alloc_info.pMappedData, vertices_to_upload,
    num_vertices)]. *)
Definition run_staging_copy_task (input_mesh : mesh_data) (t : staging_copy_task) : M unit :=
  memcpy (pMappedData (buffer_to_upload_to t))
         (bytes_from input_mesh (vertices_to_upload t))
         (num_vertices t).

(** The loop of [add_mesh] over the parts: one staging buffer and one
    scheduled copy per part.  [i] is a [uint32_t], and so is the product
    [i * num_vertices_per_part]. *)
Fixpoint stage_mesh_parts (input_mesh : mesh_data) (num_vertices_per_part : N)
    (count : nat) (i : N) : M (list vk_buffer * list staging_copy_task) :=
  match count with
  | O => ret ([], [])
  | S count' =>
      let! b := get_or_allocate_mesh_staging_buffer in
      let first := UInt.wrap32 (i * num_vertices_per_part) in
      let! _ := index (vertex_data input_mesh) first in
      let t := {| buffer_to_upload_to := b;
                  vertices_to_upload := first;
                  num_vertices := num_vertices_per_part |} in
      let! rest := stage_mesh_parts input_mesh num_vertices_per_part count'
                     (UInt.wrap32 (i + 1)) in
      ret (b :: rest.1, t :: rest.2)
  end.

(** [scheduler->WaitForCounter(&mesh_parts_upload_counter, 0)]: every
    scheduled copy has run when the caller goes on. *)
Definition WaitForCounter (input_mesh : mesh_data) (tasks : list staging_copy_task) : M unit :=
  for_each tasks (run_staging_copy_task input_mesh).

(** [vulkan_render_engine::add_mesh]. *)
Definition add_mesh (input_mesh : mesh_data) : M N :=
  let vertex_size :=
    UInt.wrap64 (N.of_nat (length (vertex_data input_mesh)) * sizeof_full_vertex) in
  let! mem := mesh_manager_allocate_mesh vertex_size in
  let! part_size := the_buffer_part_size in
  let! quotient := lift (defined (UInt.udiv part_size sizeof_full_vertex)) in
  let num_vertices_per_part := UInt.wrap32 quotient in
  let! staged := stage_mesh_parts input_mesh num_vertices_per_part
                   (length (parts mem)) 0 in
  do! WaitForCounter input_mesh staged.2 in
  do! modify (with_mesh (fun s =>
        set_mesh_upload_queue
          (mesh_upload_queue s ++
             [{| staging_buffers := staged.1; mem := mem |}]) s)) in
  let! mesh_id := gets (fun e => next_mesh_id (mesh e)) in
  do! modify (with_mesh (set_next_mesh_id (UInt.wrap32 (mesh_id + 1)))) in
  do! modify (with_mesh (fun s =>
        set_meshes
          (<[mesh_id := {| memory := mem; mesh_input := input_mesh |}]> (meshes s)) s)) in
  ret mesh_id.

(** [vulkan_render_engine::delete_mesh]. *)
Definition delete_mesh (mesh_id : N) : M unit :=
  let! ms := gets (fun e => meshes (mesh e)) in
  let! m := map_at ms mesh_id in
  do! modify (with_mesh (fun s => set_meshes (delete mesh_id (meshes s)) s)) in
  mesh_manager_free (memory m).

(** The inner loop of the upload step: one copy per staging buffer of the
    command. *)
Fixpoint record_part_copies (cmd : staging_buffer_upload_command) (part_size : N)
    (count : nat) (i : N) : M (list vk_cmd) :=
  match count with
  | O => ret []
  | S count' =>
      let! staging := index (staging_buffers cmd) i in
      let! part := index (parts (mem cmd)) i in
      let copy := {| srcOffset := 0; dstOffset := offset part; copy_size := part_size |} in
      let! rest := record_part_copies cmd part_size count' (UInt.wrap32 (i + 1)) in
      ret (vkCmdCopyBuffer (buffer staging) (part_buffer part) copy :: rest)
  end.

(** The region of the upload step that holds [mesh_upload_queue_mutex]:
    [while(!mesh_upload_queue.empty())], popping the front each time.  It
    gives back the copies recorded and [freed_buffers]. *)
Fixpoint drain_mesh_upload_queue (part_size : N)
    (queue : list staging_buffer_upload_command) : M (list vk_cmd * list vk_buffer) :=
  match queue with
  | [] => ret ([], [])
  | cmd :: queue' =>
      do! modify (with_mesh (set_mesh_upload_queue queue')) in
      let! copies := record_part_copies cmd part_size
                       (length (staging_buffers cmd)) 0 in
      let! rest := drain_mesh_upload_queue part_size queue' in
      ret (copies ++ rest.1, staging_buffers cmd ++ rest.2)
  end.

(** The task [upload_new_mesh_parts] schedules.  The task it schedules in
    turn is handed to [AddTask] with nothing for its [buffers_to_free]. *)
Definition run_upload_new_mesh_parts_task : M unit :=
  let! queue_index := gets (fun e => copy_queue_index (device e)) in
  let! commandPool := ThreadLocal.get_command_buffer_pool_for_current_thread queue_index in
  let! _ := call (vkAllocateCommandBuffers commandPool) in
  let! _ := call vkBeginCommandBuffer in
  let! part_size := the_buffer_part_size in
  let! queue := gets (fun e => mesh_upload_queue (mesh e)) in
  let! drained := drain_mesh_upload_queue part_size queue in
  let mesh_upload_cmds :=
    barriers_before_data_upload :: drained.1 ++ [barriers_after_data_upload] in
  let! _ := call vkEndCommandBuffer in
  let! rendering_done := gets (fun e => mesh_rendering_done (frame e)) in
  let! _ := call (vkWaitForFences rendering_done) in
  let! upload_done := gets (fun e => upload_to_megamesh_buffer_done (frame e)) in
  let! _ := call (vkQueueSubmit copy_queue (recorded mesh_upload_cmds)
                    None None (Some upload_done)) in
  modify (with_scheduled (fun l => l ++ [return_staging_buffers_task None])).

(** The body of the follow-up task, given the vector [buffers_to_free]
    points to: once the upload is done, the staging buffers go back to the
    pool. *)
Definition run_return_staging_buffers_task (buffers_to_free : list vk_buffer) : M unit :=
  let! upload_done := gets (fun e => upload_to_megamesh_buffer_done (frame e)) in
  let! _ := call (vkWaitForFences upload_done) in
  modify (with_mesh (fun s =>
    set_mesh_staging_buffers (mesh_staging_buffers s ++ buffers_to_free) s)).

(** A task as the scheduler runs it.  The follow-up task that was handed no
    vector waits for the fence and then reads through a pointer that was
    never set. *)
Definition run_task (t : task) : M unit :=
  match t with
  | upload_new_mesh_parts_task => run_upload_new_mesh_parts_task
  | return_staging_buffers_task (Some buffers_to_free) =>
      run_return_staging_buffers_task buffers_to_free
  | return_staging_buffers_task None =>
      let! upload_done := gets (fun e => upload_to_megamesh_buffer_done (frame e)) in
      let! _ := call (vkWaitForFences upload_done) in
      undefined_behaviour
  end.

(** [vulkan_render_engine::upload_new_mesh_parts]: the work is handed to the
    scheduler. *)
Definition upload_new_mesh_parts : M unit :=
  modify (with_scheduled (fun l => l ++ [upload_new_mesh_parts_task])).

End Meshes.

(** ** The frame loop *)

Section Frame.
Context `{P : Platform}.
Local Open Scope N_scope.

(** [vkAcquireNextImageKHR(..., semaphore, VK_NULL_HANDLE,
    &current_swapchain_index)]: the index is written when an image is
    delivered. *)
Definition acquire_next_image (semaphore : handle) : M VkResult :=
  fun e =>
    let n := length (vk_log (driver e)) in
    match call (vkAcquireNextImageKHR semaphore) e with
    | (Returns r, e') =>
        (Returns r,
         match r with
         | VK_SUCCESS | VK_SUBOPTIMAL_KHR =>
             with_frame (set_current_swapchain_index (vk_image_index n)) e'
         | _ => e'
         end)
    | other => other
    end.

(** [vulkan_render_engine::render_frame]. *)
Definition render_frame : M unit :=
  let! slot := gets (fun e => current_frame (frame e)) in
  let! fences := gets (fun e => submit_fences (frame e)) in
  let! image_available := gets (fun e => image_available_semaphores (frame e)) in
  let! render_finished := gets (fun e => render_finished_semaphores (frame e)) in
  let! fence := at_ fences slot in
  let! _ := call (vkWaitForFences fence) in
  let! semaphore := at_ image_available slot in
  let! acquire_result := acquire_next_image semaphore in
  if bool_decide (acquire_result = VK_ERROR_OUT_OF_DATE_KHR \/
                  acquire_result = VK_SUBOPTIMAL_KHR)
  then ret tt
  else if bool_decide (acquire_result <> VK_SUCCESS)
  then throw (render_engine_rendering_exception "vkAcquireNextImageKHR")
  else
    let! fence := at_ fences slot in
    let! _ := call (vkResetFences fence) in
    do! upload_new_mesh_parts in
    let! wait := at_ image_available slot in
    let! image_index := gets (fun e => current_swapchain_index (frame e)) in
    let! buffers := gets (fun e => command_buffers (frame e)) in
    let! commands := at_ buffers image_index in
    let! signal := at_ render_finished slot in
    let! fence := at_ fences slot in
    let! r := call (vkQueueSubmit graphics_queue (prerecorded commands)
                      (Some wait) (Some signal) (Some fence)) in
    do! NOVA_THROW_IF_VK_ERROR r render_engine_rendering_exception in
    let! wait := at_ render_finished slot in
    let! _ := call (vkQueuePresentKHR wait image_index) in
    let! next := lift (defined (UInt.umod (UInt.wrap32 (slot + 1)) MAX_FRAMES_IN_QUEUE)) in
    modify (with_frame (set_current_frame next)).

End Frame.

(** ** Ordering the frame graph *)

Module FrameGraph.

(** A [std::unordered_map<std::string, render_pass_data>] for the examples,
    as the sequence of its entries in the order in which it hands them
    out. *)
Abbreviation pass_table := (list (string * render_pass_data)).

Fixpoint table_replace (name : string) (data : render_pass_data) (t : pass_table)
    : pass_table :=
  match t with
  | [] => []
  | (k, v) :: t' =>
      if decide (k = name) then (k, data) :: t'
      else (k, v) :: table_replace name data t'
  end.

(** [table[name] = data] on a table of chained buckets in which no two names
    share a bucket: a new entry is linked in at the head of the entries, so
    that the table hands out its entries newest first; an assignment to a
    name already there replaces the descriptor where it stands. *)
Definition table_assign (name : string) (data : render_pass_data) (t : pass_table)
    : pass_table :=
  if decide (name ∈ t.*1) then table_replace name data t else (name, data) :: t.

(** The textures a pass declares as inputs. *)
Definition reads (p : render_pass_data) : list string :=
  match texture_inputs p with
  | Some inputs => bound_textures inputs
  | None => []
  end.

(** Modelled from the spec: "pass A depends on pass B if A declares as input
    a texture that B is known to produce". *)
Definition depends_on (a b : render_pass_data) : Prop :=
  Exists (fun t => t ∈ texture_outputs b) (reads a).

Global Instance depends_on_dec a b : Decision (depends_on a b).
Proof. unfold depends_on. apply _. Defined.

(** No pass still to be placed produces an input of [p]. *)
Definition ready (remaining : pass_table) (p : string * render_pass_data) : Prop :=
  Forall (fun q => ~ depends_on p.2 q.2) remaining.

Global Instance ready_dec remaining p : Decision (ready remaining p).
Proof. unfold ready. apply _. Defined.

Definition without (name : string) (t : pass_table) : pass_table :=
  filter (fun q => q.1 <> name) t.

Definition cycle_message (remaining : pass_table) : string :=
  "dependency cycle among passes: " +:+ String.concat ", " remaining.*1.

(** Modelled from the spec: [order_passes] (render_graph_builder), "build a
    dependency graph [...]; perform a topological sort [...].  A cycle in
    the dependency graph is a fatal configuration error, reported with the
    offending pass names."  Each step places the first pass of the table none
    of whose producers is still to be placed. *)
Fixpoint order_passes_loop (steps : nat) (remaining : pass_table) : outcome (list string) :=
  match steps with
  | O => Returns []
  | S steps' =>
      match remaining with
      | [] => Returns []
      | _ :: _ =>
          match list_find (ready remaining) remaining with
          | None => Throws (pass_ordering_exception (cycle_message remaining))
          | Some (_, p) =>
              obind (order_passes_loop steps' (without p.1 remaining))
                    (fun rest => Returns (p.1 :: rest))
          end
      end
  end.

Definition order_passes (t : pass_table) : outcome (list string) :=
  order_passes_loop (length t) t.

(** The passes of [t] whose names are not in [placed], in the order of [t]. *)
Definition still_to_place (placed : list string) (t : pass_table) : pass_table :=
  filter (fun q => q.1 ∉ placed) t.

(** Every name of [order] is that of the first pass of [t], among those not
    placed before it, none of whose producers is still to be placed. *)
Definition places_first_ready (t : pass_table) (order : list string) : Prop :=
  forall placed name rest,
    order = placed ++ name :: rest ->
    exists earlier p later,
      still_to_place placed t = earlier ++ p :: later /\
      p.1 = name /\
      ready (earlier ++ p :: later) p /\
      Forall (fun q => ~ ready (earlier ++ p :: later) q) earlier.

(** The dependency graph of [t] has no cycle: its passes can be ranked so
    that every producer ranks below its consumers. *)
Definition acyclic (t : pass_table) : Prop :=
  exists rank : string -> nat,
    forall a b, a ∈ t -> b ∈ t -> depends_on a.2 b.2 -> (rank b.1 < rank a.1)%nat.

End FrameGraph.

(** ** Shaderpacks *)

Section Shaderpack.
Context `{P : Platform}.
Local Open Scope N_scope.

(** [vulkan_render_engine::to_vk_format]. *)
Definition to_vk_format (format : pixel_format_enum) : VkFormat :=
  match format with
  | RGBA8 => VK_FORMAT_R8G8B8A8_UNORM
  | RGBA16F => VK_FORMAT_R16G16B16A16_SFLOAT
  | RGBA32F => VK_FORMAT_R32G32B32A32_SFLOAT
  | Depth => VK_FORMAT_D32_SFLOAT
  | DepthStencil => VK_FORMAT_D24_UNORM_S8_UINT
  end.

(** [vulkan_render_engine::destroy_render_passes]. *)
Definition destroy_render_passes : M unit :=
  let! render_passes := gets (fun e => render_passes (shaderpack e)) in
  do! for_each (map_to_list render_passes) (fun entry =>
        let! _ := call (vkDestroyRenderPass (pass entry.2)) in ret tt) in
  do! modify (with_shaderpack (set_render_passes ∅)) in
  modify (with_shaderpack (set_render_passes_by_order [])).

(** [vulkan_render_engine::destroy_graphics_pipelines]. *)
Definition destroy_graphics_pipelines : M unit :=
  let! pipelines := gets (fun e => pipelines (shaderpack e)) in
  do! for_each (map_to_list pipelines) (fun entry =>
        let! _ := call (vkDestroyPipeline (pipeline entry.2)) in ret tt) in
  modify (with_shaderpack (set_pipelines ∅)).

(** [vulkan_render_engine::destroy_dynamic_textures]. *)
Definition destroy_dynamic_textures : M unit :=
  let! dynamic_textures := gets (fun e => dynamic_textures (shaderpack e)) in
  do! for_each (map_to_list dynamic_textures) (fun entry =>
        let! _ := call (vkDestroyImageView (image_view entry.2)) in
        let! _ := call (vmaDestroyImage (image entry.2)) in
        ret tt) in
  modify (with_shaderpack (set_dynamic_textures ∅)).

(** [vulkan_render_engine::create_textures]; neither driver result is
    looked at. *)
Definition create_textures (texture_datas : list texture_resource_data) : M unit :=
  for_each texture_datas (fun texture_data =>
    let format := to_vk_format (pixel_format texture_data) in
    let! image := fresh_handle in
    let! _ := call (vmaCreateImage format image) in
    let! view := fresh_handle in
    let! _ := call (vkCreateImageView image view) in
    let texture := {| texture_data := texture_data; image := image; image_view := view |} in
    modify (with_shaderpack (fun s =>
      set_dynamic_textures (<[texture_name texture_data := texture]> (dynamic_textures s)) s))).

(** [vulkan_render_engine::to_vk_attachment_info]: the attachment
    descriptions, by their formats; the references number them in order. *)
Fixpoint to_vk_attachment_info (attachment_names : list string) : M (list VkFormat) :=
  match attachment_names with
  | [] => ret []
  | name :: names =>
      let! textures := gets (fun e => dynamic_textures (shaderpack e)) in
      let! tex := map_at textures name in
      let! rest := to_vk_attachment_info names in
      ret (to_vk_format (pixel_format (texture_data tex)) :: rest)
  end.

(** [render_passes[name].data = pass_data]: a new entry starts with a null
    pass. *)
Definition assign_pass_data (pass_data : render_pass_data) : M unit :=
  modify (with_shaderpack (fun s =>
    let old := match render_passes s !! pass_name pass_data with
               | Some entry => pass entry
               | None => VK_NULL_HANDLE
               end in
    set_render_passes
      (<[pass_name pass_data := {| pass_data := pass_data; pass := old |}]>
         (render_passes s)) s)).

(** The body of the loop of [create_render_passes] over the ordered names.
    Without texture inputs the attachment counts are never written. *)
Definition create_render_pass (name : string) : M unit :=
  let! passes := gets (fun e => render_passes (shaderpack e)) in
  let! entry := map_at passes name in
  let! attachments :=
    match texture_inputs (pass_data entry) with
    | Some inputs =>
        let! formats := to_vk_attachment_info (bound_textures inputs) in
        ret (Some formats)
    | None => ret None
    end in
  let! render_pass := fresh_handle in
  let! r := call (vkCreateRenderPass attachments render_pass) in
  do! NOVA_THROW_IF_VK_ERROR r render_engine_initialization_exception in
  modify (with_shaderpack (fun s =>
    set_render_passes
      (<[name := {| pass_data := pass_data entry; pass := render_pass |}]>
         (render_passes s)) s)).

(** The local [regular_render_passes] of [create_render_passes], a
    [std::unordered_map] from pass names to descriptors, after the loop that
    fills it: [regular_render_passes[pass_data.name] = pass_data] for every
    descriptor in turn. *)
Definition regular_render_passes (passes : list render_pass_data) : unordered_map :=
  foldl (fun t pass_data => unordered_map_assign (pass_name pass_data) pass_data t)
    unordered_map_empty passes.

(** [vulkan_render_engine::create_render_passes].  [order_passes] is handed
    the map and nothing else. *)
Definition create_render_passes (passes : list render_pass_data) : M unit :=
  do! for_each passes assign_pass_data in
  let! order := lift (order_passes (regular_render_passes passes)) in
  do! modify (with_shaderpack (set_render_passes_by_order order)) in
  for_each order create_render_pass.

(** [vulkan_render_engine::create_shader_module]. *)
Definition create_shader_module (spirv : list N) : M handle :=
  let! module := fresh_handle in
  let! r := call (vkCreateShaderModule spirv module) in
  do! NOVA_THROW_IF_VK_ERROR r render_engine_initialization_exception in
  ret module.

(** [vk_resource_binding::operator==]. *)
Definition vk_resource_binding_eq (this other : vk_resource_binding) : bool :=
  N.eqb (set other) (set this) && N.eqb (binding other) (binding this)
  && N.eqb (descriptorCount other) (descriptorCount this)
  && bool_decide (descriptorType other = descriptorType this).

Definition two_uniforms_msg (name : string) : string :=
  "You have two different uniforms named " +:+ name
    +:+ " in different shader stages. This is not allowed. Use unique names".

(** [vulkan_render_engine::add_resource_to_bindings]. *)
Definition add_resource_to_bindings (bindings : gmap string vk_resource_binding)
    (resource : spirv_resource) : M (gmap string vk_resource_binding) :=
  let new_binding :=
    {| set := DecorationDescriptorSet resource;
       binding := DecorationBinding resource;
       descriptorType := VK_DESCRIPTOR_TYPE_COMBINED_IMAGE_SAMPLER;
       descriptorCount := 1 |} in
  match bindings !! resource_name resource with
  | None => ret (<[resource_name resource := new_binding]> bindings)
  | Some existing_binding =>
      if negb (vk_resource_binding_eq existing_binding new_binding)
      then do! NOVA_LOG_ERROR (two_uniforms_msg (resource_name resource)) in
           ret bindings
      else ret bindings
  end.

Fixpoint add_resources_to_bindings (bindings : gmap string vk_resource_binding)
    (l : list spirv_resource) : M (gmap string vk_resource_binding) :=
  match l with
  | [] => ret bindings
  | resource :: l' =>
      let! bindings' := add_resource_to_bindings bindings resource in
      add_resources_to_bindings bindings' l'
  end.

(** [vulkan_render_engine::get_shader_module_descriptors]. *)
Definition get_shader_module_descriptors (spirv : list N)
    (bindings : gmap string vk_resource_binding) : M (gmap string vk_resource_binding) :=
  let resources := get_shader_resources spirv in
  let! bindings' := add_resources_to_bindings bindings (sampled_images resources) in
  add_resources_to_bindings bindings' (uniform_buffers resources).

(** The [VkDescriptorSetLayoutBinding] the first loop of
    [create_descriptor_set_layouts] fills in for a merged binding. *)
Definition layout_binding_of (b : vk_resource_binding) : VkDescriptorSetLayoutBinding :=
  {| dslb_binding := binding b;
     dslb_descriptorType := descriptorType b;
     dslb_descriptorCount := descriptorCount b;
     dslb_stageFlags := VK_SHADER_STAGE_ALL |}.

(** [bindings_by_set[binding.set].push_back(new_binding)]. *)
Definition push_back_by_set (by_set : gmap N (list VkDescriptorSetLayoutBinding))
    (named_binding : string * vk_resource_binding)
    : gmap N (list VkDescriptorSetLayoutBinding) :=
  let b := named_binding.2 in
  <[set b := default [] (by_set !! set b) ++ [layout_binding_of b]]> by_set.

(** The first loop of [create_descriptor_set_layouts], over the merged
    bindings in the order of their map. *)
Definition group_by_set (all_bindings : gmap string vk_resource_binding)
    : gmap N (list VkDescriptorSetLayoutBinding) :=
  foldl push_back_by_set ∅ (map_to_list all_bindings).

Definition set_not_present_msg (i : N) : string :=
  "Descriptor set " +:+ pretty i +:+ " not present".

Definition could_not_get_msg (i : N) : string :=
  "Could not get information for descriptor set " +:+ pretty i
    +:+ "; most likely you skipped a descriptor set in your shader. Ensure that all shaders for this pipeline together don't have any gaps in the descriptor sets they declare".

(** The second loop: [for(uint32_t i = 0; i < bindings_by_set.size(); i++)],
    [count] iterations being left. *)
Fixpoint dsl_create_infos (bindings_by_set : gmap N (list VkDescriptorSetLayoutBinding))
    (count : nat) (i : N) : M (list (list VkDescriptorSetLayoutBinding)) :=
  match count with
  | O => ret []
  | S count' =>
      match bindings_by_set !! i with
      | None =>
          do! NOVA_LOG_ERROR (could_not_get_msg i) in
          throw (shader_layout_creation_failed (set_not_present_msg i))
      | Some bindings =>
          let! rest := dsl_create_infos bindings_by_set count' (UInt.wrap32 (i + 1)) in
          ret (bindings :: rest)
      end
  end.

(** The third loop: one layout per create info; the driver's result is not
    looked at. *)
Fixpoint create_layouts (dsl_create_infos : list (list VkDescriptorSetLayoutBinding))
    : M (list handle) :=
  match dsl_create_infos with
  | [] => ret []
  | bindings :: infos =>
      let! layout := fresh_handle in
      let! _ := call (vkCreateDescriptorSetLayout bindings layout) in
      let! rest := create_layouts infos in
      ret (layout :: rest)
  end.

(** [vulkan_render_engine::create_descriptor_set_layouts]. *)
Definition create_descriptor_set_layouts
    (all_bindings : gmap string vk_resource_binding) : M (list handle) :=
  let bindings_by_set := group_by_set all_bindings in
  let! infos := dsl_create_infos bindings_by_set (base.size bindings_by_set) 0 in
  create_layouts infos.

(** An optional stage of a pipeline: its module goes under [stage], its
    resources into [bindings]. *)
Definition compile_optional_stage (stage : N) (shader : option shader_source)
    (acc : gmap N handle * gmap string vk_resource_binding)
    : M (gmap N handle * gmap string vk_resource_binding) :=
  match shader with
  | None => ret acc
  | Some s =>
      let! module := create_shader_module (source s) in
      let! bindings := get_shader_module_descriptors (source s) acc.2 in
      ret (<[stage := module]> acc.1, bindings)
  end.

(** The shader modules and the merged bindings of one pipeline. *)
Definition compile_stages (data : pipeline_data)
    : M (gmap N handle * gmap string vk_resource_binding) :=
  let! module := create_shader_module (source (vertex_shader data)) in
  let! bindings := get_shader_module_descriptors (source (vertex_shader data)) ∅ in
  let acc := (<[VK_SHADER_STAGE_VERTEX_BIT := module]> (∅ : gmap N handle), bindings) in
  let! acc := compile_optional_stage VK_PIPELINE_STAGE_GEOMETRY_SHADER_BIT
                (geometry_shader data) acc in
  let! acc := compile_optional_stage VK_PIPELINE_STAGE_TESSELLATION_CONTROL_SHADER_BIT
                (tessellation_control_shader data) acc in
  let! acc := compile_optional_stage VK_PIPELINE_STAGE_TESSELLATION_EVALUATION_SHADER_BIT
                (tessellation_evaluation_shader data) acc in
  compile_optional_stage VK_PIPELINE_STAGE_FRAGMENT_SHADER_BIT
    (fragment_shader data) acc.

(** The body of the loop of [create_graphics_pipelines]. *)
Definition create_graphics_pipeline (data : pipeline_data) : M unit :=
  let! compiled := compile_stages data in
  let! layout_data := create_descriptor_set_layouts compiled.2 in
  let! layout := fresh_handle in
  let! r := call (vkCreatePipelineLayout layout_data layout) in
  do! NOVA_THROW_IF_VK_ERROR r render_engine_initialization_exception in
  let shader_stages := map_to_list compiled.1 in
  let! passes := gets (fun e => render_passes (shaderpack e)) in
  let! target := map_at passes (pipeline_pass data) in
  let! pipeline := fresh_handle in
  let! r := call (vkCreateGraphicsPipelines shader_stages layout (pass target) pipeline) in
  do! NOVA_THROW_IF_VK_ERROR r render_engine_initialization_exception in
  let nova_pipeline :=
    {| pipeline_data_of := data; layout := layout; pipeline := pipeline |} in
  modify (with_shaderpack (fun s =>
    match pipelines s !! pipeline_name data with
    | Some _ => s
    | None => set_pipelines (<[pipeline_name data := nova_pipeline]> (pipelines s)) s
    end)).

(** [vulkan_render_engine::create_graphics_pipelines]. *)
Definition create_graphics_pipelines (pipelines : list pipeline_data) : M unit :=
  for_each pipelines create_graphics_pipeline.

(** [vulkan_render_engine::set_shaderpack]. *)
Definition set_shaderpack (data : shaderpack_data) : M unit :=
  let! loaded := gets (fun e => shaderpack_loaded (shaderpack e)) in
  do! (if loaded : bool then
         do! destroy_render_passes in
         do! destroy_graphics_pipelines in
         do! modify (with_shaderpack (set_materials ∅)) in
         destroy_dynamic_textures
       else ret tt) in
  do! create_textures (textures (resources data)) in
  do! for_each (shaderpack_materials data) (fun mat_data =>
        modify (with_shaderpack (fun s =>
          set_materials (<[material_name mat_data := mat_data]> (materials s)) s))) in
  do! create_render_passes (passes data) in
  do! create_graphics_pipelines (shaderpack_pipelines data) in
  modify (with_shaderpack (set_shaderpack_loaded true)).

End Shaderpack.

(** ** A concrete platform, used to run the engine on examples *)

Module Example.
Local Open Scope N_scope.

(** Modelled from the spec: the block allocator, "allocation splits the
    requested size into whole parts (rounding up), drawing parts from a free
    list [...]. Allocation fails (reported, not silently degraded) if
    satisfying it would exceed the configured maximum total allocation. Free
    returns all parts of the allocation to the relevant free lists".  One
    megabuffer, its free parts in a list. *)
Record free_list : Type := {
  part_size : N;
  free_parts : list block_memory_part
}.

Definition parts_needed (a : free_list) (vertex_size : N) : N :=
  (vertex_size + part_size a - 1) / part_size a.

Definition free_list_allocate (a : free_list) (vertex_size : N)
    : outcome block_memory_allocation * free_list :=
  let n := N.to_nat (parts_needed a vertex_size) in
  if decide (n <= length (free_parts a))%nat
  then (Returns {| parts := take n (free_parts a) |},
        {| part_size := part_size a; free_parts := drop n (free_parts a) |})
  else (Throws (allocation_failed "max_total_allocation exceeded"), a).

Definition free_list_free (a : free_list) (allocation : block_memory_allocation) : free_list :=
  {| part_size := part_size a; free_parts := free_parts a ++ parts allocation |}.

(** A stand-in for SPIR-V reflection: a module is a sequence of groups of
    four words, [kind; name; set; binding], [kind] 0 a sampled image and 1 a
    uniform buffer, the resource being named by the decimal of [name]. *)
Fixpoint reflect (steps : nat) (spirv : list N) : ShaderResources :=
  match steps, spirv with
  | S steps', kind :: name :: set :: binding :: rest =>
      let r := {| resource_name := pretty name;
                  DecorationDescriptorSet := set;
                  DecorationBinding := binding |} in
      let rs := reflect steps' rest in
      if N.eqb kind 0
      then {| sampled_images := r :: sampled_images rs;
              uniform_buffers := uniform_buffers rs |}
      else {| sampled_images := sampled_images rs;
              uniform_buffers := r :: uniform_buffers rs |}
  | _, _ => {| sampled_images := []; uniform_buffers := [] |}
  end.

(** A vertex of four bytes, three frames in flight, a driver that answers
    [results] and always delivers image 0, a hash table that hands out its
    entries newest first, the passes ordered by the sort the spec
    describes. *)
Definition platform (results : nat -> VkResult) : Platform := {|
  sizeof_full_vertex := 4;
  MAX_FRAMES_IN_QUEUE := 3;
  allocator := free_list;
  allocate_mesh := free_list_allocate;
  free := free_list_free;
  vk_result := results;
  vk_image_index := fun _ => 0;
  get_shader_resources := fun spirv => reflect (length spirv) spirv;
  unordered_map := FrameGraph.pass_table;
  unordered_map_empty := [];
  unordered_map_assign := FrameGraph.table_assign;
  order_passes := FrameGraph.order_passes
|}.

Definition never_fails : nat -> VkResult := fun _ => VK_SUCCESS.

(** The surface is out of date at the driver's second call. *)
Definition stale_at_second_call : nat -> VkResult :=
  fun n => if Nat.eqb n 1 then VK_ERROR_OUT_OF_DATE_KHR else VK_SUCCESS.

(** The engine as it starts: parts of eight bytes, a megabuffer (handle 1)
    of four parts, nothing loaded, handles handed out from 100 on; the queue
    families 0, 1 and 2, and no thread with command pools yet. *)
Definition initial_engine (results : nat -> VkResult) : @engine (platform results) := {|
  driver := {| vk_log := []; next_handle := 100; mapped_memory := ∅; nova_log := [] |};
  shaderpack := {| shaderpack_loaded := false; render_passes := ∅;
                   render_passes_by_order := []; pipelines := ∅;
                   materials := ∅; dynamic_textures := ∅ |};
  mesh := {| mesh_manager :=
               @Build_block_allocator (platform results) 8
                 {| part_size := 8;
                    free_parts := [ {| part_buffer := 1; offset := 0 |};
                                    {| part_buffer := 1; offset := 8 |};
                                    {| part_buffer := 1; offset := 16 |};
                                    {| part_buffer := 1; offset := 24 |} ] |};
             mesh_staging_buffers := [];
             mesh_upload_queue := [];
             next_mesh_id := 0;
             meshes := ∅ |};
  frame := {| current_frame := 0; current_swapchain_index := 0;
              submit_fences := [10; 11; 12];
              image_available_semaphores := [20; 21; 22];
              render_finished_semaphores := [30; 31; 32];
              command_buffers := [40; 41; 42];
              mesh_rendering_done := 50;
              upload_to_megamesh_buffer_done := 51 |};
  scheduled := [];
  device := {| graphics_queue_index := 0; copy_queue_index := 1;
               compute_queue_index := 2; current_thread := 0;
               command_pools_by_queue_idx := ∅ |}
|}.

Definition bytes (l : list N) : list Byte.byte :=
  omap Byte.of_N l.

(** A mesh of two vertices: exactly one part. *)
Definition two_vertices : mesh_data :=
  {| vertex_data := [bytes [1; 2; 3; 4]; bytes [5; 6; 7; 8]] |}.

(** A mesh of three vertices: two parts. *)
Definition three_vertices : mesh_data :=
  {| vertex_data := [bytes [1; 2; 3; 4]; bytes [5; 6; 7; 8]; bytes [9; 10; 11; 12]] |}.

Definition no_vertices : mesh_data := {| vertex_data := [] |}.

(** The engine after [n] further calls of [add_mesh] with the empty mesh. *)
Definition add_empty_meshes (n : N) (e : @engine (platform never_fails))
    : @engine (platform never_fails) :=
  N.iter n (fun e => (@add_mesh (platform never_fails) no_vertices e).2) e.

(** A short life of the engine: three meshes are added, the first one is
    deleted in between, a frame is rendered and its upload task run. *)
Definition history : list api_call :=
  [call_add_mesh two_vertices; call_delete_mesh 0; call_add_mesh no_vertices;
   call_render_frame; call_run_next_task; call_add_mesh two_vertices].

Definition stage (spirv : list N) : shader_source := {| source := spirv |}.

(** A pipeline of a vertex and a fragment stage. *)
Definition two_stage_pipeline (vertex fragment : list N) : pipeline_data := {|
  pipeline_name := "gbuffers";
  pipeline_pass := "main";
  vertex_shader := stage vertex;
  geometry_shader := None;
  tessellation_control_shader := None;
  tessellation_evaluation_shader := None;
  fragment_shader := Some (stage fragment)
|}.

(** One texture, one pass that reads nothing, one pipeline. *)
Definition shaderpack_with (p : pipeline_data) : shaderpack_data := {|
  resources := {| textures := [{| texture_name := "colortex0"; pixel_format := RGBA8 |}] |};
  shaderpack_materials := [];
  passes := [{| pass_name := "main"; texture_inputs := None;
                texture_outputs := ["colortex0"] |}];
  shaderpack_pipelines := [p]
|}.

(** The texture and the pipeline of [shaderpack_with p], each declared a
    second time under the same name, the texture with another format. *)
Definition repeated_names (p : pipeline_data) : shaderpack_data := {|
  resources := {| textures := [{| texture_name := "colortex0"; pixel_format := RGBA8 |};
                               {| texture_name := "colortex0"; pixel_format := RGBA16F |}] |};
  shaderpack_materials := [];
  passes := [{| pass_name := "main"; texture_inputs := None;
                texture_outputs := ["colortex0"] |}];
  shaderpack_pipelines := [p; p]
|}.

(** Both stages declare the uniform named 7 in set 0, the vertex stage at
    binding 0 and the fragment stage at binding 1. *)
Definition conflicting_bindings : pipeline_data :=
  two_stage_pipeline [0; 7; 0; 0] [0; 7; 0; 1].

(** Both stages declare the name 7 at set 0, binding 0: the vertex stage as
    a sampled image, the fragment stage as a uniform buffer. *)
Definition conflicting_types : pipeline_data :=
  two_stage_pipeline [0; 7; 0; 0] [1; 7; 0; 0].

(** A sampled image in set 0 and a uniform buffer in set 2. *)
Definition gap_pipeline : pipeline_data :=
  two_stage_pipeline [0; 7; 0; 0] [1; 8; 2; 0].

(** A sampled image in set 0 and a uniform buffer in set 1. *)
Definition contiguous_pipeline : pipeline_data :=
  two_stage_pipeline [0; 7; 0; 0] [1; 8; 1; 3].

Definition sampler_at (set binding : N) : vk_resource_binding :=
  {| set := set; binding := binding;
     descriptorType := VK_DESCRIPTOR_TYPE_COMBINED_IMAGE_SAMPLER;
     descriptorCount := 1 |}.

(** Merged bindings that populate the sets 0 and 2, and the sets 0 and 1. *)
Definition gap_bindings : gmap string vk_resource_binding :=
  <["8" := sampler_at 2 0]> (<["7" := sampler_at 0 0]> ∅).

Definition contiguous_bindings : gmap string vk_resource_binding :=
  <["8" := sampler_at 1 3]> (<["7" := sampler_at 0 0]> ∅).

(** The three passes of the spec's example: C reads what A produces, B
    reads nothing. *)
Definition pass_A : render_pass_data :=
  {| pass_name := "A"; texture_inputs := None; texture_outputs := ["a_out"] |}.
Definition pass_B : render_pass_data :=
  {| pass_name := "B"; texture_inputs := None; texture_outputs := ["b_out"] |}.
Definition pass_C : render_pass_data :=
  {| pass_name := "C"; texture_inputs := Some {| bound_textures := ["a_out"] |};
     texture_outputs := ["c_out"] |}.

(** Two passes that read each other's output. *)
Definition pass_X : render_pass_data :=
  {| pass_name := "X"; texture_inputs := Some {| bound_textures := ["y_out"] |};
     texture_outputs := ["x_out"] |}.
Definition pass_Y : render_pass_data :=
  {| pass_name := "Y"; texture_inputs := Some {| bound_textures := ["x_out"] |};
     texture_outputs := ["y_out"] |}.

End Example.

(** ** The vocabulary of the properties *)

Section Vocabulary.
Context `{P : Platform}.
Local Open Scope N_scope.

(** [m] leaves the observation [f] of the engine as it found it, however it
    ends. *)
Definition preserves {A X} (f : engine -> X) (m : M A) : Prop :=
  forall e, f (m e).2 = f e.

(** Every driver call [m] makes satisfies [Q]; the log only grows. *)
Definition only_calls (Q : vk_call -> Prop) {A} (m : M A) : Prop :=
  forall e, exists rest,
    vk_log (driver (m e).2) = vk_log (driver e) ++ rest /\ Forall Q rest.

Definition is_destruction (c : vk_call) : Prop :=
  match c with
  | vkDestroyRenderPass _ | vkDestroyPipeline _
  | vkDestroyImageView _ | vmaDestroyImage _ => True
  | _ => False
  end.

(** [m] returns after having made exactly the driver calls [cs], and leaves
    the shaderpack objects as they are. *)
Definition emits (cs : list vk_call) (m : M unit) : Prop :=
  forall e, exists e',
    m e = (Returns tt, e') /\
    vk_log (driver e') = vk_log (driver e) ++ cs /\
    shaderpack e' = shaderpack e.

(** The destructions of the compiled passes, pipelines and dynamic textures
    of [e], each group in the order in which its map is gone through. *)
Definition pass_destructions (e : engine) : list vk_call :=
  (fun entry => vkDestroyRenderPass (pass entry.2))
    <$> map_to_list (render_passes (shaderpack e)).

Definition pipeline_destructions (e : engine) : list vk_call :=
  (fun entry => vkDestroyPipeline (pipeline entry.2))
    <$> map_to_list (pipelines (shaderpack e)).

Definition texture_destructions (e : engine) : list vk_call :=
  map_to_list (dynamic_textures (shaderpack e)) ≫= fun entry =>
    [vkDestroyImageView (image_view entry.2); vmaDestroyImage (image entry.2)].

(** A driver call that destroys nothing. *)
Definition creates (c : vk_call) : Prop := ~ is_destruction c.

(** The call [c] destroys the object [h]. *)
Definition destroys (h : handle) (c : vk_call) : bool :=
  match c with
  | vkDestroyRenderPass x | vkDestroyPipeline x
  | vkDestroyImageView x | vmaDestroyImage x => N.eqb x h
  | _ => false
  end.

(** The id the next mesh gets. *)
Definition mesh_id_counter (e : engine) : N := next_mesh_id (mesh e).

(** The upload queue, the id counter and the mesh entries. *)
Definition mesh_tables (e : engine)
    : list staging_buffer_upload_command * N * gmap N vk_mesh :=
  (mesh_upload_queue (mesh e), next_mesh_id (mesh e), meshes (mesh e)).

(** [m], started with the counter at [c], either returns [c] and leaves the
    counter at [c + 1] (modulo 2^32), or fails and leaves it at [c]. *)
Definition issues_id (c : N) (m : M N) : Prop :=
  forall e, mesh_id_counter e = c ->
    match m e with
    | (Returns mesh_id, e') =>
        mesh_id = c /\ mesh_id_counter e' = UInt.wrap32 (c + 1)
    | (_, e') => mesh_id_counter e' = c
    end.

(** The scheduler runs the oldest task handed to it. *)
Definition run_next_task : M unit :=
  fun e =>
    match scheduled e with
    | [] => (Returns tt, e)
    | t :: ts => run_task t (with_scheduled (fun _ => ts) e)
    end.

(** The ids [add_mesh] returns in the course of a history, oldest first.
    An exception is caught and the process goes on; the history ends where
    behaviour is undefined. *)
Fixpoint mesh_ids (history : list api_call) (e : engine) : list N :=
  match history with
  | [] => []
  | c :: history' =>
      match c with
      | call_add_mesh input_mesh =>
          match add_mesh input_mesh e with
          | (Returns mesh_id, e') => mesh_id :: mesh_ids history' e'
          | (Throws _, e') => mesh_ids history' e'
          | (Undefined, _) => []
          end
      | call_delete_mesh mesh_id =>
          match delete_mesh mesh_id e with
          | (Undefined, _) => []
          | (_, e') => mesh_ids history' e'
          end
      | call_render_frame =>
          match render_frame e with
          | (Undefined, _) => []
          | (_, e') => mesh_ids history' e'
          end
      | call_set_shaderpack data =>
          match set_shaderpack data e with
          | (Undefined, _) => []
          | (_, e') => mesh_ids history' e'
          end
      | call_run_next_task =>
          match run_next_task e with
          | (Undefined, _) => []
          | (_, e') => mesh_ids history' e'
          end
      end
  end.

(** A queued command as [add_mesh] builds it: one staging buffer per part,
    fewer than 2^32 of them. *)
Definition well_formed_command (cmd : staging_buffer_upload_command) : Prop :=
  length (staging_buffers cmd) = length (parts (mem cmd)) /\
  (N.of_nat (length (staging_buffers cmd)) < 2 ^ 32).

(** One copy per part of [cmd]: from the part's staging buffer, at offset 0,
    to the part's megabuffer at the part's offset. *)
Definition part_copies (part_size : N) (cmd : staging_buffer_upload_command) : list vk_cmd :=
  zip_with
    (fun staging part =>
       vkCmdCopyBuffer (buffer staging) (part_buffer part)
         {| srcOffset := 0; dstOffset := offset part; copy_size := part_size |})
    (staging_buffers cmd) (parts (mem cmd)).

(** The three calls by which a thread makes its command pools, started in
    [e]: one pool per queue family index, for the graphics, the copy and the
    compute queue in this order. *)
Definition pool_creations (e : engine) : list vk_call :=
  let h := next_handle (driver e) in
  [vkCreateCommandPool (graphics_queue_index (device e)) h;
   vkCreateCommandPool (copy_queue_index (device e)) (h + 1);
   vkCreateCommandPool (compute_queue_index (device e)) (h + 2)].

(** The pools these calls leave the thread with: for an index that two
    queues share, the pool created last. *)
Definition new_pools (e : engine) : gmap N handle :=
  let h := next_handle (driver e) in
  <[compute_queue_index (device e) := h + 2]>
    (<[copy_queue_index (device e) := h + 1]>
       (<[graphics_queue_index (device e) := h]> ∅)).

(** The command buffer the upload task records for the queue of [e]: the
    allocator's barrier before the upload, one copy per part of every queued
    command, the allocator's barrier after the upload. *)
Definition mesh_upload_cmds (e : engine) : list vk_cmd :=
  barriers_before_data_upload
    :: (mesh_upload_queue (mesh e)
          ≫= part_copies (buffer_part_size (mesh_manager (mesh e))))
    ++ [barriers_after_data_upload].

(** The driver calls of the upload task run from [e], once it has the
    command pool [pool]. *)
Definition upload_calls (pool : handle) (e : engine) : list vk_call :=
  [vkAllocateCommandBuffers pool; vkBeginCommandBuffer; vkEndCommandBuffer;
   vkWaitForFences (mesh_rendering_done (frame e));
   vkQueueSubmit copy_queue (recorded (mesh_upload_cmds e))
     None None (Some (upload_to_megamesh_buffer_done (frame e)))].


(** The descriptor set indices the merged bindings populate. *)
Definition populated (all_bindings : gmap string vk_resource_binding) (i : N) : Prop :=
  exists name b, all_bindings !! name = Some b /\ set b = i.

(** The layout bindings of descriptor set [i]. *)
Definition bindings_of_set (all_bindings : gmap string vk_resource_binding) (i : N)
    : list VkDescriptorSetLayoutBinding :=
  layout_binding_of <$> filter (fun b => set b = i) (map_to_list all_bindings).*2.

(** The sources of the shader stages a pipeline declares. *)
Definition stage_sources (data : pipeline_data) : list (list N) :=
  source (vertex_shader data)
    :: omap (fmap source)
         [geometry_shader data; tessellation_control_shader data;
          tessellation_evaluation_shader data; fragment_shader data].

(** The resources reflected from one shader module: its sampled images,
    then its uniform buffers. *)
Definition resources_of (spirv : list N) : list spirv_resource :=
  sampled_images (get_shader_resources spirv)
    ++ uniform_buffers (get_shader_resources spirv).

(** The resources reflected from the stages of a pipeline. *)
Definition reflected_resources (data : pipeline_data) : list spirv_resource :=
  stage_sources data ≫= resources_of.

(** [bindings] holds a binding under the name of every resource of [rs], and
    every binding it holds is a combined image sampler of count 1 at the set
    and binding index of a resource of [rs] of that name. *)
Definition merged_from (rs : list spirv_resource)
    (bindings : gmap string vk_resource_binding) : Prop :=
  (forall r, r ∈ rs -> is_Some (bindings !! resource_name r)) /\
  (forall name b, bindings !! name = Some b ->
     descriptorType b = VK_DESCRIPTOR_TYPE_COMBINED_IMAGE_SAMPLER /\
     descriptorCount b = 1 /\
     exists r, r ∈ rs /\ resource_name r = name /\
       set b = DecorationDescriptorSet r /\ binding b = DecorationBinding r).

End Vocabulary.

(** ** Opening the window: the device and the swapchain

    [open_window] chooses a physical device and creates the swapchain from
    what the driver reports about the devices and the surface.  The reports
    are the inputs of the functions here; formats, colour spaces and queue
    flags are the values of their Vulkan enumerations. *)

Module Startup.
Local Open Scope N_scope.

(** [NOVA_THROW_IF_VK_ERROR] where no engine state is at hand. *)
Definition throw_if_vk_error (r : VkResult) (exception : string -> exn) : outcome unit :=
  match r with
  | VK_SUCCESS => Returns tt
  | _ => Throws (exception "vulkan call failed")
  end.

Record VkSurfaceFormatKHR : Type := {
  format : N;
  colorSpace : N
}.

Global Instance VkSurfaceFormatKHR_eq_dec : EqDecision VkSurfaceFormatKHR.
Proof. solve_decision. Defined.

Definition VK_FORMAT_UNDEFINED : N := 0.
Definition VK_FORMAT_B8G8R8_UNORM : N := 30.
Definition VK_COLOR_SPACE_SRGB_NONLINEAR_KHR : N := 0.

Inductive VkPresentModeKHR : Type :=
  | VK_PRESENT_MODE_IMMEDIATE_KHR
  | VK_PRESENT_MODE_MAILBOX_KHR
  | VK_PRESENT_MODE_FIFO_KHR
  | VK_PRESENT_MODE_FIFO_RELAXED_KHR.

Global Instance VkPresentModeKHR_eq_dec : EqDecision VkPresentModeKHR.
Proof. solve_decision. Defined.

(** The format [choose_swapchain_format] looks for. *)
Definition preferred_format : VkSurfaceFormatKHR :=
  {| format := VK_FORMAT_B8G8R8_UNORM; colorSpace := VK_COLOR_SPACE_SRGB_NONLINEAR_KHR |}.

(** The loop of [choose_swapchain_format]. *)
Fixpoint first_preferred_format (available : list VkSurfaceFormatKHR)
    : option VkSurfaceFormatKHR :=
  match available with
  | [] => None
  | f :: rest =>
      if N.eqb (format f) VK_FORMAT_B8G8R8_UNORM
         && N.eqb (colorSpace f) VK_COLOR_SPACE_SRGB_NONLINEAR_KHR
      then Some f
      else first_preferred_format rest
  end.

(** [vulkan_render_engine::choose_swapchain_format]. *)
Definition choose_swapchain_format (available : list VkSurfaceFormatKHR)
    : outcome VkSurfaceFormatKHR :=
  if Nat.eqb (length available) 1
     && match available !! 0%nat with
        | Some f => N.eqb (format f) VK_FORMAT_UNDEFINED
        | None => false
        end
  then Returns preferred_format
  else
    match first_preferred_format available with
    | Some f => Returns f
    | None =>
        match available !! 0%nat with
        | Some f => Returns f
        | None => Throws (out_of_range "vector::_M_range_check")
        end
    end.

(** [vulkan_render_engine::choose_present_mode]. *)
Fixpoint choose_present_mode (available : list VkPresentModeKHR) : VkPresentModeKHR :=
  match available with
  | [] => VK_PRESENT_MODE_FIFO_KHR
  | mode :: rest =>
      if decide (mode = VK_PRESENT_MODE_MAILBOX_KHR) then mode
      else choose_present_mode rest
  end.

Definition VK_KHR_SWAPCHAIN_EXTENSION_NAME : string := "VK_KHR_swapchain".

(** [vulkan_render_engine::does_device_support_extensions], on the names of
    the extensions the driver enumerates for the device. *)
Definition does_device_support_extensions (available : list string) : bool :=
  let required :=
    foldl (fun (required : gset string) extensionName => required ∖ {[extensionName]})
          {[VK_KHR_SWAPCHAIN_EXTENSION_NAME]} available in
  bool_decide (required = ∅).

Record VkExtent2D : Type := {
  width : N;
  height : N
}.

Record VkSurfaceCapabilitiesKHR : Type := {
  minImageCount : N;
  maxImageCount : N;
  minImageExtent : VkExtent2D;
  maxImageExtent : VkExtent2D;
  currentTransform : N
}.

(** The fields of [VkSwapchainCreateInfoKHR] that are not constants. *)
Record VkSwapchainCreateInfoKHR : Type := {
  info_minImageCount : N;
  imageFormat : N;
  imageColorSpace : N;
  imageExtent : VkExtent2D;
  preTransform : N;
  presentMode : VkPresentModeKHR
}.

(** What the driver answers to the calls of [create_swapchain], in the order
    of the calls.  The second query of the formats is not checked. *)
Record surface_reports : Type := {
  format_count_result : VkResult;
  formats : list VkSurfaceFormatKHR;
  present_mode_count_result : VkResult;
  present_modes_result : VkResult;
  present_modes : list VkPresentModeKHR;
  capabilities_result : VkResult;
  capabilities : VkSurfaceCapabilitiesKHR;
  create_swapchain_result : VkResult;
  images : list handle
}.

(** The members [create_swapchain] writes, and the create info it passes. *)
Record swapchain_members : Type := {
  swapchain_create_info : VkSwapchainCreateInfoKHR;
  swapchain_images : list handle;
  swapchain_format : N;
  swapchain_extent : VkExtent2D
}.

(** [vulkan_render_engine::choose_swapchain_extend]. *)
Definition choose_swapchain_extend (window_size : VkExtent2D) : VkExtent2D :=
  {| width := width window_size; height := height window_size |}.

(** [vulkan_render_engine::create_swapchain]. *)
Definition create_swapchain (window_size : VkExtent2D) (reports : surface_reports)
    : outcome swapchain_members :=
  obind (throw_if_vk_error (format_count_result reports)
           render_engine_initialization_exception) (fun _ =>
  if Nat.eqb (length (formats reports)) 0
  then Throws (render_engine_initialization_exception
                 "No supported surface formats... something went really wrong")
  else
  obind (throw_if_vk_error (present_mode_count_result reports)
           render_engine_initialization_exception) (fun _ =>
  if Nat.eqb (length (present_modes reports)) 0
  then Throws (render_engine_initialization_exception
                 "No supported present modes... something went really wrong")
  else
  obind (throw_if_vk_error (present_modes_result reports)
           render_engine_initialization_exception) (fun _ =>
  obind (choose_swapchain_format (formats reports)) (fun surface_format =>
  let present_mode := choose_present_mode (present_modes reports) in
  obind (throw_if_vk_error (capabilities_result reports)
           render_engine_initialization_exception) (fun _ =>
  let capabilities := capabilities reports in
  let image_count := N.max (minImageCount capabilities) 3 in
  let image_count :=
    if N.ltb 0 (maxImageCount capabilities)
       && N.ltb (maxImageCount capabilities) image_count
    then maxImageCount capabilities
    else image_count in
  let extent := choose_swapchain_extend window_size in
  let extent_width := N.max (width extent) (width (minImageExtent capabilities)) in
  let extent_width := N.min extent_width (width (maxImageExtent capabilities)) in
  let extent_height := N.max (height extent) (height (minImageExtent capabilities)) in
  let extent_height := N.min extent_height (height (maxImageExtent capabilities)) in
  let extent := {| width := extent_width; height := extent_height |} in
  let swapchain_create_info :=
    {| info_minImageCount := image_count;
       imageFormat := format surface_format;
       imageColorSpace := colorSpace surface_format;
       imageExtent := extent;
       preTransform := currentTransform capabilities;
       presentMode := present_mode |} in
  obind (throw_if_vk_error (create_swapchain_result reports)
           render_engine_initialization_exception) (fun _ =>
  Returns {| swapchain_create_info := swapchain_create_info;
             swapchain_images := images reports;
             swapchain_format := format surface_format;
             swapchain_extent := extent |})))))).

Record VkQueueFamilyProperties : Type := {
  queueCount : N;
  queueFlags : N
}.

Definition VK_QUEUE_GRAPHICS_BIT : N := 1.
Definition VK_QUEUE_COMPUTE_BIT : N := 2.
Definition VK_QUEUE_TRANSFER_BIT : N := 4.

(** A queue family as the driver reports it: its properties, and its answer
    to [vkGetPhysicalDeviceSurfaceSupportKHR]. *)
Record queue_family_report : Type := {
  family_properties : VkQueueFamilyProperties;
  surface_support_result : VkResult;
  supports_present : bool
}.

(** A physical device as the driver reports it. *)
Record physical_device_report : Type := {
  vendorID : N;
  extension_names : list string;
  queue_families : list queue_family_report
}.

(** The three locals [graphics_family_idx], [compute_family_idx] and
    [copy_family_idx] of [create_device]. *)
Record family_indices : Type := {
  graphics_family_idx : N;
  compute_family_idx : N;
  copy_family_idx : N
}.

Definition no_family : N := 0xFFFFFFFF.

Definition has_flag (flags bit : N) : bool := negb (N.eqb (N.land flags bit) 0).

(** The loop of [create_device] over the queue families of a device,
    [queue_idx] being the index of the first of [families]. *)
Fixpoint scan_queue_families (families : list queue_family_report) (queue_idx : N)
    (idx : family_indices) : outcome family_indices :=
  match families with
  | [] => Returns idx
  | current :: rest =>
      let current_properties := family_properties current in
      if N.ltb (queueCount current_properties) 1
      then scan_queue_families rest (UInt.wrap32 (queue_idx + 1)) idx
      else
        obind (throw_if_vk_error (surface_support_result current)
                 render_engine_initialization_exception) (fun _ =>
        let supports_graphics := has_flag (queueFlags current_properties) VK_QUEUE_GRAPHICS_BIT in
        let graphics :=
          if supports_graphics && supports_present current
             && N.eqb (graphics_family_idx idx) no_family
          then queue_idx else graphics_family_idx idx in
        let supports_compute := has_flag (queueFlags current_properties) VK_QUEUE_COMPUTE_BIT in
        let compute :=
          if supports_compute && N.eqb (compute_family_idx idx) no_family
          then queue_idx else compute_family_idx idx in
        let supports_copy := has_flag (queueFlags current_properties) VK_QUEUE_TRANSFER_BIT in
        let copy :=
          if supports_copy && N.eqb (copy_family_idx idx) no_family
          then queue_idx else copy_family_idx idx in
        scan_queue_families rest (UInt.wrap32 (queue_idx + 1))
          {| graphics_family_idx := graphics;
             compute_family_idx := compute;
             copy_family_idx := copy |})
  end.

(** The loop of [create_device] over the physical devices, [device_idx]
    being the index of the first of [devices] among the [device_count]
    devices the driver enumerates.  It gives the index of the device at which
    it breaks, if it does, and the three family indices as they are then. *)
Fixpoint choose_device (devices : list physical_device_report)
    (device_idx device_count : N) (idx : family_indices)
    : outcome (option N * family_indices) :=
  match devices with
  | [] => Returns (None, idx)
  | current_device :: rest =>
      let idx := {| graphics_family_idx := no_family;
                    compute_family_idx := compute_family_idx idx;
                    copy_family_idx := copy_family_idx idx |} in
      if N.eqb (vendorID current_device) 0x8086 && N.ltb device_idx (device_count - 1)
      then choose_device rest (UInt.wrap32 (device_idx + 1)) device_count idx
      else if negb (does_device_support_extensions (extension_names current_device))
      then choose_device rest (UInt.wrap32 (device_idx + 1)) device_count idx
      else
        obind (scan_queue_families (queue_families current_device) 0 idx) (fun idx =>
        if negb (N.eqb (graphics_family_idx idx) no_family)
        then Returns (Some device_idx, idx)
        else choose_device rest (UInt.wrap32 (device_idx + 1)) device_count idx)
  end.

(** What the driver answers to the calls of [create_device] that are not
    about one device. *)
Record device_reports : Type := {
  device_count_result : VkResult;
  enumerate_result : VkResult;
  physical_devices : list physical_device_report;
  create_device_result : VkResult
}.

(** The members [create_device] writes: the chosen device, by its index in
    the enumeration, and the three queue family indices. *)
Record device_members : Type := {
  physical_device : N;
  graphics_queue_index : N;
  compute_queue_index : N;
  copy_queue_index : N
}.

(** [vulkan_render_engine::create_device]. *)
Definition create_device (reports : device_reports) : outcome device_members :=
  obind (throw_if_vk_error (device_count_result reports)
           render_engine_initialization_exception) (fun _ =>
  obind (throw_if_vk_error (enumerate_result reports)
           render_engine_initialization_exception) (fun _ =>
  let device_count := UInt.wrap32 (N.of_nat (length (physical_devices reports))) in
  let start := {| graphics_family_idx := no_family;
                  compute_family_idx := no_family;
                  copy_family_idx := no_family |} in
  obind (choose_device (physical_devices reports) 0 device_count start) (fun chosen =>
  match chosen.1 with
  | None => Throws (render_engine_initialization_exception "Failed to find good GPU")
  | Some chosen_device =>
      obind (throw_if_vk_error (create_device_result reports)
               render_engine_initialization_exception) (fun _ =>
      Returns {| physical_device := chosen_device;
                 graphics_queue_index := graphics_family_idx chosen.2;
                 compute_queue_index := compute_family_idx chosen.2;
                 copy_queue_index := copy_family_idx chosen.2 |})
  end))).

End Startup.

(** [vulkan_render_engine::make_new_command_pools]: the loop over the three
    queue indices, [n] creations having been asked for before.  The driver
    answers its [n]-th [vkCreateCommandPool] with the result and the pool
    [answers n]. *)
Fixpoint create_command_pools (queue_indices : list N) (answers : nat -> VkResult * handle)
    (n : nat) (pools_by_queue : gmap N handle) : outcome (gmap N handle) :=
  match queue_indices with
  | [] => Returns pools_by_queue
  | queue_index :: rest =>
      obind (Startup.throw_if_vk_error (answers n).1
               render_engine_initialization_exception) (fun _ =>
      create_command_pools rest answers (S n)
        (<[queue_index := (answers n).2]> pools_by_queue))
  end.

Definition make_new_command_pools (graphics_queue_index copy_queue_index
    compute_queue_index : N) (answers : nat -> VkResult * handle) : outcome (gmap N handle) :=
  let queue_indices := [graphics_queue_index; copy_queue_index; compute_queue_index] in
  create_command_pools queue_indices answers 0 ∅.

(** [vulkan_render_engine::get_command_buffer_pool_for_current_thread], on
    the pools of the current thread. *)
Definition get_command_buffer_pool_for_current_thread
    (command_pools_by_queue_idx : gmap N handle) (queue_index : N) : outcome handle :=
  match command_pools_by_queue_idx !! queue_index with
  | Some command_pool => Returns command_pool
  | None => Throws (out_of_range "_Map_base::at")
  end.

(** [vulkan_render_engine::create_swapchain_image_views]: one view per
    swapchain image, each creation checked.  The views created are given
    back. *)
Fixpoint create_swapchain_image_views `{P : Platform} (swapchain_images : list handle)
    : M (list handle) :=
  match swapchain_images with
  | [] => ret []
  | image :: rest =>
      let! view := fresh_handle in
      let! r := call (vkCreateImageView image view) in
      do! NOVA_THROW_IF_VK_ERROR r render_engine_initialization_exception in
      let! views := create_swapchain_image_views rest in
      ret (view :: views)
  end.

(** ** Reading JSON (utils.hpp)

    [nlohmann::json] is looked at through two operations: [find], what
    [json_obj.find(key)] points at, which is what [json_obj.at(key)] then
    refers to; and [elements], what a range-for over a node goes through.
    A deserializer returns or throws. *)

Module Json.
Section Json.
Variable json : Type.
Variable find : json -> string -> option json.
Variable elements : json -> list json.
Context {ValType : Type}.

(** [get_json_value], with [deserializer] or, for the overload without one,
    [json_node.get<ValType>()]. *)
Definition get_json_value (deserializer : json -> outcome ValType)
    (json_obj : json) (key : string) : outcome (option ValType) :=
  match find json_obj key with
  | Some json_node => obind (deserializer json_node) (fun val => Returns (Some val))
  | None => Returns None
  end.

(** The loop of [get_json_array]: [vec.push_back(deserializer(elem))]. *)
Fixpoint push_back_each (deserializer : json -> outcome ValType)
    (elems : list json) (vec : list ValType) : outcome (list ValType) :=
  match elems with
  | [] => Returns vec
  | elem :: rest =>
      obind (deserializer elem) (fun val =>
      push_back_each deserializer rest (vec ++ [val]))
  end.

(** [get_json_array], with [deserializer] or [elem.get<ValType>()]. *)
Definition get_json_array (deserializer : json -> outcome ValType)
    (json_obj : json) (key : string) : outcome (list ValType) :=
  match find json_obj key with
  | Some json_node => push_back_each deserializer (elements json_node) []
  | None => Returns []
  end.

End Json.
End Json.

(** ** The vocabulary of further properties *)

Section Invariants.
Context `{P : Platform}.
Local Open Scope N_scope.

(** [m] keeps the invariant [I], however it ends. *)
Definition keeps (I : engine -> Prop) {A} (m : M A) : Prop :=
  forall e, I e -> I (m e).2.

(** Unless it returns, [m] leaves the upload queue, the id counter and the
    mesh entries as it found them. *)
Definition fails_quietly {A} (m : M A) : Prop :=
  forall e,
    match (m e).1 with
    | Returns _ => True
    | _ => mesh_tables (m e).2 = mesh_tables e
    end.

(** The state of the block allocator behind [mesh_manager]. *)
Definition allocator_state (e : engine) : allocator :=
  blocks (mesh_manager (mesh e)).

(** The size in bytes [add_mesh] asks the allocator for. *)
Definition vertex_bytes (input_mesh : mesh_data) : N :=
  UInt.wrap64 (N.of_nat (length (vertex_data input_mesh)) * sizeof_full_vertex).

(** One call of the interface, whatever it gives back. *)
Definition run_call (c : api_call) (e : engine) : outcome unit * engine :=
  match c with
  | call_add_mesh input_mesh =>
      let r := add_mesh input_mesh e in (obind r.1 (fun _ => Returns tt), r.2)
  | call_delete_mesh mesh_id => delete_mesh mesh_id e
  | call_render_frame => render_frame e
  | call_set_shaderpack data => set_shaderpack data e
  | call_run_next_task => run_next_task e
  end.

(** The engine after a history of calls.  An exception is caught and the
    process goes on; there is no state to speak of once behaviour is
    undefined. *)
Fixpoint after (history : list api_call) (e : engine) : option engine :=
  match history with
  | [] => Some e
  | c :: history' =>
      match run_call c e with
      | (Undefined, _) => None
      | (_, e') => after history' e'
      end
  end.

(** Every queued upload command has one staging buffer per part. *)
Definition one_staging_buffer_per_part (e : engine) : Prop :=
  Forall (fun cmd => length (staging_buffers cmd) = length (parts (mem cmd)))
         (mesh_upload_queue (mesh e)).

(** The engine after [n] calls of [render_frame]. *)
Definition frames (n : nat) (e : engine) : engine :=
  Nat.iter n (fun e => (render_frame e).2) e.

(** What [render_frame] needs to find for the slot it is at. *)
Record frame_ready (e : engine) : Prop := {
  slot_in_range : current_frame (frame e) < MAX_FRAMES_IN_QUEUE;
  fences_in_range :
    (N.to_nat MAX_FRAMES_IN_QUEUE <= length (submit_fences (frame e)))%nat;
  image_available_in_range :
    (N.to_nat MAX_FRAMES_IN_QUEUE <= length (image_available_semaphores (frame e)))%nat;
  render_finished_in_range :
    (N.to_nat MAX_FRAMES_IN_QUEUE <= length (render_finished_semaphores (frame e)))%nat;
  images_in_range :
    forall n, (N.to_nat (vk_image_index n) < length (command_buffers (frame e)))%nat
}.

End Invariants.

(** The handles the next [count] creating calls write, from [h] on. *)
Fixpoint fresh_handles (h : handle) (count : nat) : list handle :=
  match count with
  | O => []
  | S count' => h :: fresh_handles (N.succ h) count'
  end.

(** ** The vocabulary of the choice of a device *)

Section DeviceVocabulary.
Import Startup.
Local Open Scope N_scope.

(** A queue family [create_device] takes graphics work to: it has a queue,
    does graphics and can present to the surface. *)
Definition presentable_graphics_family (f : queue_family_report) : bool :=
  negb (N.ltb (queueCount (family_properties f)) 1)
  && has_flag (queueFlags (family_properties f)) VK_QUEUE_GRAPHICS_BIT
  && supports_present f.

(** A queue family that has a queue and does compute work. *)
Definition compute_family (f : queue_family_report) : bool :=
  negb (N.ltb (queueCount (family_properties f)) 1)
  && has_flag (queueFlags (family_properties f)) VK_QUEUE_COMPUTE_BIT.

(** An Intel GPU that is not the last of the devices enumerated. *)
Definition passed_over_as_intel (device_count device_idx : N)
    (d : physical_device_report) : bool :=
  N.eqb (vendorID d) 0x8086 && N.ltb device_idx (device_count - 1).

(** The device the loop of [create_device] stops at: not passed over, with
    the swapchain extension, and with a family to take graphics work to. *)
Definition suitable (device_count device_idx : N) (d : physical_device_report) : bool :=
  negb (passed_over_as_intel device_count device_idx d)
  && does_device_support_extensions (extension_names d)
  && bool_decide (Exists (fun f => presentable_graphics_family f = true) (queue_families d)).

(** Fewer than 2^32 - 1 devices, each of fewer than 2^32 - 1 queue families:
    the indices are what the 32-bit counters hold. *)
Definition countable_in_32_bits (devices : list physical_device_report) : Prop :=
  N.of_nat (length devices) + 1 < 2 ^ 32 /\
  Forall (fun d => N.of_nat (length (queue_families d)) + 1 < 2 ^ 32) devices.

End DeviceVocabulary.

(** * Properties *)

(** ** Machine integers *)

Lemma umod_pos (a b : N) : (0 < b)%N -> UInt.umod a b = Some (a mod b)%N.
Proof. unfold UInt.umod. intros Hb. destruct (N.eqb_spec b 0); [lia | done]. Qed.

Lemma udiv_pos (a b : N) : (0 < b)%N -> UInt.udiv a b = Some (a / b)%N.
Proof. unfold UInt.udiv. intros Hb. destruct (N.eqb_spec b 0); [lia | done]. Qed.

Lemma mod_zero_iff_multiple (a b : N) :
  (0 < b)%N -> (a mod b = 0)%N <-> MeshOptions.multiple_of a b.
Proof.
  intros Hb. unfold MeshOptions.multiple_of. split.
  - intros Hm. exists (a / b)%N.
    pose proof (N.div_mod a b ltac:(lia)) as Hd. rewrite Hm in Hd. lia.
  - intros [k ->]. apply N.Div0.mod_mul.
Qed.

Lemma wrap32_small (x : N) : (x < 2 ^ 32)%N -> UInt.wrap32 x = x.
Proof. intros Hx. unfold UInt.wrap32. by apply N.mod_small. Qed.

(** ** Validation of the mesh options *)

(** X29: for sizes that are not zero the validation passes exactly when the
    three sizes are aligned; otherwise it throws a [std::runtime_error], the
    one of the first check that fails, in the order [buffer_part_size],
    [new_buffer_size], [max_total_allocation], with that check's message,
    which starts with the name of the option. *)
Lemma validate_mesh_options_nonzero (s : N) (o : MeshOptions.mesh_options) :
  (0 < s)%N -> (0 < MeshOptions.buffer_part_size o)%N ->
  (0 < MeshOptions.new_buffer_size o)%N ->
  (MeshOptions.validate_mesh_options s o = Returns tt <-> MeshOptions.sizes_aligned s o) /\
  (~ MeshOptions.multiple_of (MeshOptions.buffer_part_size o) s ->
   MeshOptions.validate_mesh_options s o =
     Throws (runtime_error (MeshOptions.buffer_part_size_msg s))) /\
  (MeshOptions.multiple_of (MeshOptions.buffer_part_size o) s ->
   ~ MeshOptions.multiple_of (MeshOptions.new_buffer_size o) (MeshOptions.buffer_part_size o) ->
   MeshOptions.validate_mesh_options s o =
     Throws (runtime_error (MeshOptions.new_buffer_size_msg o))) /\
  (MeshOptions.multiple_of (MeshOptions.buffer_part_size o) s ->
   MeshOptions.multiple_of (MeshOptions.new_buffer_size o) (MeshOptions.buffer_part_size o) ->
   ~ MeshOptions.multiple_of (MeshOptions.max_total_allocation o) (MeshOptions.new_buffer_size o) ->
   MeshOptions.validate_mesh_options s o =
     Throws (runtime_error (MeshOptions.max_total_allocation_msg o))) /\
  MeshOptions.names_field "mesh.buffer_part_size"
    (runtime_error (MeshOptions.buffer_part_size_msg s)) /\
  MeshOptions.names_field "mesh.new_buffer_size"
    (runtime_error (MeshOptions.new_buffer_size_msg o)) /\
  MeshOptions.names_field "mesh.max_total_allocation"
    (runtime_error (MeshOptions.max_total_allocation_msg o)).
Proof.
  intros Hs Hp Hn. unfold MeshOptions.validate_mesh_options, MeshOptions.sizes_aligned.
  rewrite !umod_pos by done. cbn [defined obind].
  rewrite <- !mod_zero_iff_multiple by done.
  split; [| split; [| split; [| split; [| by repeat split]]]].
  - destruct (N.eqb_spec (MeshOptions.buffer_part_size o mod s) 0) as [E1|E1]; cbn [negb];
      [| split; [done | tauto]].
    destruct (N.eqb_spec (MeshOptions.new_buffer_size o mod MeshOptions.buffer_part_size o) 0)
      as [E2|E2]; cbn [negb]; [| split; [done | tauto]].
    destruct (N.eqb_spec (MeshOptions.max_total_allocation o mod MeshOptions.new_buffer_size o) 0)
      as [E3|E3]; cbn [negb]; [tauto | split; [done | tauto]].
  - intros E1. apply N.eqb_neq in E1. by rewrite E1.
  - intros E1 E2. apply N.eqb_eq in E1. apply N.eqb_neq in E2. by rewrite E1, E2.
  - intros E1 E2 E3. apply N.eqb_eq in E1, E2. apply N.eqb_neq in E3.
    by rewrite E1, E2, E3.
Qed.

(** C7, at the options [buffer_part_size = 0], [new_buffer_size = 16],
    [max_total_allocation = 32] and a vertex of 64 bytes: the second check
    divides by zero, so the validation neither passes nor reports
    [mesh.new_buffer_size]. *)
Theorem validate_mesh_options_zero_part_size :
  MeshOptions.validate_mesh_options 64
    {| MeshOptions.buffer_part_size := 0;
       MeshOptions.new_buffer_size := 16;
       MeshOptions.max_total_allocation := 32 |} = Undefined
  /\ ~ MeshOptions.multiple_of 16 0.
Proof.
  split; [reflexivity |]. intros [k Hk]. lia.
Qed.

(** ** Running member functions *)

Section Running.
Context `{P : Platform}.

Lemma bind_returns {A B} (m : M A) (k : A -> M B) e a e' :
  m e = (Returns a, e') -> bind m k e = k a e'.
Proof. unfold bind. by intros ->. Qed.

Lemma bind_throws {A B} (m : M A) (k : A -> M B) e x e' :
  m e = (Throws x, e') -> bind m k e = (Throws x, e').
Proof. unfold bind. by intros ->. Qed.

Lemma bind_undefined {A B} (m : M A) (k : A -> M B) e e' :
  m e = (Undefined, e') -> bind m k e = (Undefined, e').
Proof. unfold bind. by intros ->. Qed.

Lemma bind_state {A B} (m : M A) (k : A -> M B) e :
  (bind m k e).2 =
    match (m e).1 with
    | Returns a => (k a (m e).2).2
    | _ => (m e).2
    end.
Proof. unfold bind. by destruct (m e) as [[a|x|] e']. Qed.

Lemma at_returns {A} (v : list A) (i : N) (x : A) e :
  v !! N.to_nat i = Some x -> at_ v i e = (Returns x, e).
Proof. unfold at_. by intros ->. Qed.

Lemma index_returns {A} (v : list A) (i : N) (x : A) e :
  v !! N.to_nat i = Some x -> index v i e = (Returns x, e).
Proof. unfold index. by intros ->. Qed.

End Running.

(** ** The frame loop *)

Section FrameLoop.
Context `{P : Platform}.

(** C9: when the acquire answers that the surface is out of date or
    suboptimal, [render_frame] returns after having waited for the slot's
    fence and asked for the image, and nothing else: no fence is reset,
    nothing is submitted or presented, the upload step is not scheduled, and
    the frame slot, the meshes and the compiled shaderpack are as before. *)
Theorem render_frame_skips_stale_frame (e : engine) (fence semaphore : handle) :
  submit_fences (frame e) !! N.to_nat (current_frame (frame e)) = Some fence ->
  image_available_semaphores (frame e) !! N.to_nat (current_frame (frame e))
    = Some semaphore ->
  vk_result (S (length (vk_log (driver e)))) = VK_ERROR_OUT_OF_DATE_KHR \/
  vk_result (S (length (vk_log (driver e)))) = VK_SUBOPTIMAL_KHR ->
  exists e',
    render_frame e = (Returns tt, e') /\
    vk_log (driver e') =
      vk_log (driver e) ++ [vkWaitForFences fence; vkAcquireNextImageKHR semaphore] /\
    scheduled e' = scheduled e /\
    mesh e' = mesh e /\
    shaderpack e' = shaderpack e /\
    current_frame (frame e') = current_frame (frame e) /\
    submit_fences (frame e') = submit_fences (frame e) /\
    mapped_memory (driver e') = mapped_memory (driver e).
Proof.
  intros Hfence Hsem Hstale.
  unfold render_frame.
  do 4 (erewrite bind_returns by reflexivity).
  erewrite bind_returns by (apply at_returns; exact Hfence).
  erewrite bind_returns by reflexivity.
  erewrite bind_returns by (apply at_returns; exact Hsem).
  unfold acquire_next_image, call, bind.
  cbn [driver with_driver vk_log set_vk_log].
  rewrite length_app, Nat.add_comm. cbn [length Nat.add].
  destruct Hstale as [-> | ->]; cbn.
  - eexists. split; [reflexivity |]. cbn. rewrite <- app_assoc. done.
  - eexists. split; [reflexivity |]. cbn. rewrite <- app_assoc. done.
Qed.

End FrameLoop.

(** ** The per-frame upload step *)

Section UploadStep.
Context `{P : Platform}.
Local Open Scope N_scope.

Lemma drop_cons_lookup {A} (l : list A) (n : nat) (x : A) (t : list A) :
  drop n l = x :: t -> l !! n = Some x /\ drop (S n) l = t.
Proof.
  intros Hd. assert (Hx : l !! n = Some x).
  { rewrite <- (Nat.add_0_r n), <- lookup_drop, Hd. done. }
  split; [done |]. apply drop_S in Hx. congruence.
Qed.

Lemma record_part_copies_returns (cmd : staging_buffer_upload_command)
    (part_size : N) (e : engine) :
  forall (stagings : list vk_buffer) (pts : list block_memory_part) (i : N),
    drop (N.to_nat i) (staging_buffers cmd) = stagings ->
    drop (N.to_nat i) (parts (mem cmd)) = pts ->
    length stagings = length pts ->
    N.of_nat (length (staging_buffers cmd)) < 2 ^ 32 ->
    record_part_copies cmd part_size (length stagings) i e =
      (Returns
         (zip_with
            (fun staging part =>
               vkCmdCopyBuffer (buffer staging) (part_buffer part)
                 {| srcOffset := 0; dstOffset := offset part; copy_size := part_size |})
            stagings pts), e).
Proof.
  induction stagings as [|staging stagings IH]; intros pts i Hs Hp Hlen Hbound.
  - done.
  - destruct pts as [|part pts]; [done |].
    apply drop_cons_lookup in Hs as [Hs Hs'].
    apply drop_cons_lookup in Hp as [Hp Hp'].
    assert (Hi : i + 1 < 2 ^ 32).
    { apply lookup_lt_Some in Hs. lia. }
    cbn [record_part_copies length].
    erewrite bind_returns by (apply index_returns; exact Hs).
    erewrite bind_returns by (apply index_returns; exact Hp).
    rewrite wrap32_small by done.
    erewrite bind_returns.
    2:{ apply IH.
        - replace (N.to_nat (i + 1)) with (S (N.to_nat i)) by lia. done.
        - replace (N.to_nat (i + 1)) with (S (N.to_nat i)) by lia. done.
        - cbn in Hlen. lia.
        - done. }
    done.
Qed.

Lemma drain_mesh_upload_queue_returns (part_size : N) :
  forall (pending : list staging_buffer_upload_command) (e : engine),
    mesh_upload_queue (mesh e) = pending ->
    Forall well_formed_command pending ->
    drain_mesh_upload_queue part_size pending e =
      (Returns (pending ≫= part_copies part_size, pending ≫= staging_buffers),
       with_mesh (set_mesh_upload_queue []) e).
Proof.
  induction pending as [|cmd pending IH]; intros e Hq Hwf.
  - cbn. unfold ret. f_equal.
    destruct e as [d s m f t dv]; destruct m; cbn in *; by subst.
  - inversion_clear Hwf as [|? ? Hcmd Hwf']. destruct Hcmd as [Hlen Hbound].
    cbn [drain_mesh_upload_queue].
    erewrite bind_returns by reflexivity.
    erewrite bind_returns.
    2:{ apply (record_part_copies_returns cmd part_size _
                 (staging_buffers cmd) (parts (mem cmd)) 0); done. }
    erewrite bind_returns.
    2:{ apply IH; [reflexivity | done]. }
    done.
Qed.

(** One turn of the loop of [make_new_command_pools]. *)
Lemma create_command_pools_step (queue_index : N) (rest : list N)
    (pools : gmap N handle) (e : engine) :
  ThreadLocal.create_command_pools (queue_index :: rest) pools e =
    let created :=
      with_driver (fun d =>
        set_vk_log (vk_log d ++ [vkCreateCommandPool queue_index (next_handle (driver e))])
          (set_next_handle (N.succ (next_handle d)) d)) e in
    match vk_result (length (vk_log (driver e))) with
    | VK_SUCCESS =>
        ThreadLocal.create_command_pools rest
          (<[queue_index := next_handle (driver e)]> pools) created
    | _ => (Throws (render_engine_initialization_exception "vulkan call failed"), created)
    end.
Proof.
  destruct e as [[log next mapped logged] s m f t dv].
  cbn [ThreadLocal.create_command_pools].
  unfold bind at 1. unfold fresh_handle at 1.
  unfold bind at 1. unfold call at 1.
  unfold bind at 1.
  cbv [with_driver set_vk_log set_next_handle driver shaderpack mesh frame scheduled
       device vk_log next_handle mapped_memory nova_log].
  destruct (vk_result (length log)); reflexivity.
Qed.

(** A thread's first use of its command pools, the driver creating all
    three. *)
Lemma make_new_command_pools_returns (e : engine) :
  (forall k, (k < 3)%nat ->
     vk_result (length (vk_log (driver e)) + k) = VK_SUCCESS) ->
  exists e',
    ThreadLocal.make_new_command_pools e = (Returns (new_pools e), e') /\
    vk_log (driver e') = vk_log (driver e) ++ pool_creations e /\
    mesh e' = mesh e /\ frame e' = frame e /\ scheduled e' = scheduled e /\
    device e' = device e.
Proof.
  intros Hok.
  pose proof (Hok 0%nat ltac:(lia)) as H0. rewrite Nat.add_0_r in H0.
  pose proof (Hok 1%nat ltac:(lia)) as H1.
  pose proof (Hok 2%nat ltac:(lia)) as H2.
  unfold ThreadLocal.make_new_command_pools.
  do 3 (erewrite bind_returns by reflexivity).
  destruct e as [[log next mapped logged] s m f t dv].
  cbn [driver vk_log device] in *.
  rewrite create_command_pools_step.
  cbv [with_driver set_vk_log set_next_handle driver shaderpack mesh frame scheduled
       device vk_log next_handle mapped_memory nova_log].
  rewrite H0, create_command_pools_step.
  cbv [with_driver set_vk_log set_next_handle driver shaderpack mesh frame scheduled
       device vk_log next_handle mapped_memory nova_log].
  rewrite length_app. cbn [length]. rewrite H1, create_command_pools_step.
  cbv [with_driver set_vk_log set_next_handle driver shaderpack mesh frame scheduled
       device vk_log next_handle mapped_memory nova_log].
  rewrite !length_app. cbn [length]. rewrite <- Nat.add_assoc. cbn [Nat.add].
  rewrite H2. cbn [ThreadLocal.create_command_pools].
  eexists. split.
  - unfold ret, new_pools. cbn [driver next_handle device].
    rewrite <- !N.add_1_r, <- !N.add_assoc. reflexivity.
  - cbn. rewrite <- !app_assoc. done.
Qed.

(** The first creation the driver refuses ends the making of the pools. *)
Lemma make_new_command_pools_throws (e : engine) (k : nat) :
  (k < 3)%nat ->
  (forall j, (j < k)%nat ->
     vk_result (length (vk_log (driver e)) + j) = VK_SUCCESS) ->
  vk_result (length (vk_log (driver e)) + k) <> VK_SUCCESS ->
  exists msg e',
    ThreadLocal.make_new_command_pools e
      = (Throws (render_engine_initialization_exception msg), e') /\
    vk_log (driver e') = vk_log (driver e) ++ take (S k) (pool_creations e) /\
    mesh e' = mesh e /\ frame e' = frame e /\ scheduled e' = scheduled e /\
    device e' = device e.
Proof.
  intros Hk Hok Hfail.
  unfold ThreadLocal.make_new_command_pools.
  do 3 (erewrite bind_returns by reflexivity).
  destruct e as [[log next mapped logged] s m f t dv].
  cbn [driver vk_log device] in *.
  rewrite create_command_pools_step.
  cbv [with_driver set_vk_log set_next_handle driver shaderpack mesh frame scheduled
       device vk_log next_handle mapped_memory nova_log].
  destruct k as [|k].
  { rewrite Nat.add_0_r in Hfail.
    destruct (vk_result (length log)) eqn:E; [done | | |];
      (eexists _, _; split; [reflexivity |]; done). }
  pose proof (Hok 0%nat ltac:(lia)) as H0. rewrite Nat.add_0_r in H0.
  rewrite H0, create_command_pools_step.
  cbv [with_driver set_vk_log set_next_handle driver shaderpack mesh frame scheduled
       device vk_log next_handle mapped_memory nova_log].
  rewrite length_app. cbn [length].
  destruct k as [|k].
  { destruct (vk_result (length log + 1)) eqn:E; [done | | |];
      (eexists _, _; split; [reflexivity |]; cbn;
       rewrite <- !app_assoc, <- !N.add_1_r; done). }
  pose proof (Hok 1%nat ltac:(lia)) as H1.
  rewrite H1, create_command_pools_step.
  cbv [with_driver set_vk_log set_next_handle driver shaderpack mesh frame scheduled
       device vk_log next_handle mapped_memory nova_log].
  rewrite !length_app. cbn [length]. rewrite <- Nat.add_assoc. cbn [Nat.add].
  destruct k as [|k]; [| lia].
  destruct (vk_result (length log + 2)) eqn:E; [done | | |];
    (eexists _, _; split; [reflexivity |]; cbn;
     rewrite <- !app_assoc, <- !N.add_1_r, <- !N.add_assoc; done).
Qed.

(** The upload task from the point where it has its command pool. *)
Lemma upload_with_pool_returns (pool : handle) (e : engine) :
  Forall well_formed_command (mesh_upload_queue (mesh e)) ->
  exists e',
    (let! _ := call (vkAllocateCommandBuffers pool) in
     let! _ := call vkBeginCommandBuffer in
     let! part_size := the_buffer_part_size in
     let! queue := gets (fun e => mesh_upload_queue (mesh e)) in
     let! drained := drain_mesh_upload_queue part_size queue in
     let mesh_upload_cmds :=
       barriers_before_data_upload :: drained.1 ++ [barriers_after_data_upload] in
     let! _ := call vkEndCommandBuffer in
     let! rendering_done := gets (fun e => mesh_rendering_done (frame e)) in
     let! _ := call (vkWaitForFences rendering_done) in
     let! upload_done := gets (fun e => upload_to_megamesh_buffer_done (frame e)) in
     let! _ := call (vkQueueSubmit copy_queue (recorded mesh_upload_cmds)
                       None None (Some upload_done)) in
     modify (with_scheduled (fun l => l ++ [return_staging_buffers_task None]))) e
      = (Returns tt, e') /\
    mesh e' = set_mesh_upload_queue [] (mesh e) /\
    vk_log (driver e') = vk_log (driver e) ++ upload_calls pool e /\
    scheduled e' = scheduled e ++ [return_staging_buffers_task None] /\
    device e' = device e.
Proof.
  intros Hwf. eexists. split; [| split; [| split; [| split]]].
  - do 4 (erewrite bind_returns by reflexivity).
    erewrite bind_returns.
    2:{ apply drain_mesh_upload_queue_returns; done. }
    do 5 (erewrite bind_returns by reflexivity).
    reflexivity.
  - reflexivity.
  - cbn. rewrite <- !app_assoc. reflexivity.
  - reflexivity.
  - reflexivity.
Qed.

(** C3: run on a queue of well-formed commands, the upload task empties the
    queue inside the region guarded by the queue's mutex -- from whatever
    state that region is entered with this queue, it is left with the queue
    empty and everything else as it was --, records one copy per part of
    every command it took out -- [buffer_part_size] bytes from offset 0 of
    the part's staging buffer to the part's offset in its megabuffer -- and
    records the allocator's post-upload barrier after all of them; the
    command buffer so recorded is what it submits to the copy queue.  It
    gets that far when it gets the command pool of its thread for the copy
    queue: the pool the thread holds, or, on the thread's first use, the one
    of the three pools the driver creates then.  When the driver refuses one
    of the three, or the thread's pools have none for the copy queue, the
    task throws before it looks at the queue, which stays as it is.  The
    task it schedules for afterwards is handed no staging buffers. *)
Theorem upload_task_drains_queue_and_copies_parts (e : engine) :
  let part_size := buffer_part_size (mesh_manager (mesh e)) in
  let pending := mesh_upload_queue (mesh e) in
  let thread := current_thread (device e) in
  let stored := command_pools_by_queue_idx (device e) in
  let queue_index := copy_queue_index (device e) in
  let calls_made := length (vk_log (driver e)) in
  Forall well_formed_command pending ->
  (forall locked : engine,
     mesh_upload_queue (mesh locked) = pending ->
     drain_mesh_upload_queue part_size pending locked =
       (Returns (pending ≫= part_copies part_size, pending ≫= staging_buffers),
        with_mesh (set_mesh_upload_queue []) locked)) /\
  Forall (fun cmd => length (part_copies part_size cmd) = length (parts (mem cmd)))
    pending /\
  (forall pools pool,
     stored !! thread = Some pools -> pools !! queue_index = Some pool ->
     exists e',
       run_upload_new_mesh_parts_task e = (Returns tt, e') /\
       mesh e' = set_mesh_upload_queue [] (mesh e) /\
       vk_log (driver e') = vk_log (driver e) ++ upload_calls pool e /\
       scheduled e' = scheduled e ++ [return_staging_buffers_task None] /\
       device e' = device e) /\
  (forall pools,
     stored !! thread = Some pools -> pools !! queue_index = None ->
     exists msg, run_upload_new_mesh_parts_task e = (Throws (out_of_range msg), e)) /\
  (stored !! thread = None ->
   (forall k, (k < 3)%nat -> vk_result (calls_made + k) = VK_SUCCESS) ->
   exists e' pool,
     new_pools e !! queue_index = Some pool /\
     run_upload_new_mesh_parts_task e = (Returns tt, e') /\
     mesh e' = set_mesh_upload_queue [] (mesh e) /\
     vk_log (driver e') = vk_log (driver e) ++ pool_creations e ++ upload_calls pool e /\
     scheduled e' = scheduled e ++ [return_staging_buffers_task None] /\
     command_pools_by_queue_idx (device e') = <[thread := new_pools e]> stored) /\
  (stored !! thread = None ->
   forall k, (k < 3)%nat ->
     (forall j, (j < k)%nat -> vk_result (calls_made + j) = VK_SUCCESS) ->
     vk_result (calls_made + k) <> VK_SUCCESS ->
     exists msg e',
       run_upload_new_mesh_parts_task e
         = (Throws (render_engine_initialization_exception msg), e') /\
       mesh e' = mesh e /\
       vk_log (driver e') = vk_log (driver e) ++ take (S k) (pool_creations e) /\
       scheduled e' = scheduled e /\
       device e' = device e).
Proof.
  intros part_size pending thread stored queue_index calls_made Hwf.
  split; [| split; [| split; [| split; [| split]]]].
  - intros locked Hlocked. by apply drain_mesh_upload_queue_returns.
  - apply Forall_forall. intros cmd Hin.
    rewrite Forall_forall in Hwf. destruct (Hwf cmd Hin) as [Hlen _].
    unfold part_copies. rewrite length_zip_with. lia.
  - intros pools pool Hstored Hpool.
    destruct (upload_with_pool_returns pool e Hwf) as (e' & Hrun & Hrest).
    exists e'. split; [| exact Hrest].
    unfold run_upload_new_mesh_parts_task,
      ThreadLocal.get_command_buffer_pool_for_current_thread,
      ThreadLocal.command_pools_of_current_thread.
    erewrite bind_returns by reflexivity.
    erewrite bind_returns; [exact Hrun |].
    erewrite bind_returns.
    2:{ do 2 (erewrite bind_returns by reflexivity).
        fold thread stored. rewrite Hstored. reflexivity. }
    unfold map_at. fold queue_index. by rewrite Hpool.
  - intros pools Hstored Hpool. eexists.
    unfold run_upload_new_mesh_parts_task,
      ThreadLocal.get_command_buffer_pool_for_current_thread,
      ThreadLocal.command_pools_of_current_thread.
    erewrite bind_returns by reflexivity.
    erewrite bind_throws; [reflexivity |].
    erewrite bind_returns.
    2:{ do 2 (erewrite bind_returns by reflexivity).
        fold thread stored. rewrite Hstored. reflexivity. }
    unfold map_at. fold queue_index. by rewrite Hpool.
  - intros Hstored Hok.
    destruct (make_new_command_pools_returns e Hok)
      as (e1 & Hpools & Hlog1 & Hmesh1 & Hframe1 & Hsched1 & Hdev1).
    assert (Hpool : exists pool, new_pools e !! queue_index = Some pool).
    { unfold new_pools. fold queue_index.
      destruct (decide (queue_index = compute_queue_index (device e))) as [<- | Hne].
      - rewrite lookup_insert_eq. eauto.
      - rewrite lookup_insert_ne by done. rewrite lookup_insert_eq. eauto. }
    destruct Hpool as (pool & Hpool).
    set (e2 := with_device (fun s =>
                 set_command_pools_by_queue_idx
                   (<[thread := new_pools e]> (command_pools_by_queue_idx s)) s) e1).
    assert (Hwf2 : Forall well_formed_command (mesh_upload_queue (mesh e2))).
    { cbn. by rewrite Hmesh1. }
    destruct (upload_with_pool_returns pool e2 Hwf2)
      as (e' & Hrun & Hmesh & Hlog & Hsched & Hdev).
    exists e', pool. split; [exact Hpool |]. split; [| split; [| split; [| split]]].
    + unfold run_upload_new_mesh_parts_task,
        ThreadLocal.get_command_buffer_pool_for_current_thread,
        ThreadLocal.command_pools_of_current_thread.
      erewrite bind_returns by reflexivity.
      erewrite bind_returns; [exact Hrun |].
      erewrite bind_returns.
      2:{ do 2 (erewrite bind_returns by reflexivity).
          fold thread stored. rewrite Hstored.
          erewrite bind_returns by exact Hpools.
          erewrite bind_returns by reflexivity. reflexivity. }
      unfold map_at. fold queue_index. by rewrite Hpool.
    + rewrite Hmesh. cbn. by rewrite Hmesh1.
    + rewrite Hlog. cbn [e2 with_device driver]. rewrite Hlog1, <- app_assoc.
      do 2 f_equal. unfold upload_calls, mesh_upload_cmds.
      cbn [e2 with_device mesh frame]. by rewrite Hmesh1, Hframe1.
    + rewrite Hsched. cbn. by rewrite Hsched1.
    + rewrite Hdev. cbn. by rewrite Hdev1.
  - intros Hstored k Hk Hok Hfail.
    destruct (make_new_command_pools_throws e k Hk Hok Hfail)
      as (msg & e1 & Hpools & Hlog1 & Hmesh1 & Hframe1 & Hsched1 & Hdev1).
    exists msg, e1. split; [| done].
    unfold run_upload_new_mesh_parts_task,
      ThreadLocal.get_command_buffer_pool_for_current_thread,
      ThreadLocal.command_pools_of_current_thread.
    erewrite bind_returns by reflexivity.
    erewrite bind_throws; [reflexivity |].
    erewrite bind_throws; [reflexivity |].
    do 2 (erewrite bind_returns by reflexivity).
    fold thread stored. rewrite Hstored.
    erewrite bind_throws; [reflexivity | exact Hpools].
Qed.

End UploadStep.

(** ** What member functions leave alone *)

Section Preservation.
Context `{P : Platform} {X : Type} (f : engine -> X).

Lemma preserves_ret {A} (a : A) : preserves f (ret a).
Proof. by intros e. Qed.

Lemma preserves_throw {A} (x : exn) : preserves f (@throw _ A x).
Proof. by intros e. Qed.

Lemma preserves_undefined {A} : preserves f (@undefined_behaviour _ A).
Proof. by intros e. Qed.

Lemma preserves_gets {A} (g : engine -> A) : preserves f (gets g).
Proof. by intros e. Qed.

Lemma preserves_lift {A} (o : outcome A) : preserves f (lift o).
Proof. by intros e. Qed.

Lemma preserves_modify (g : engine -> engine) :
  (forall e, f (g e) = f e) -> preserves f (modify g).
Proof. intros Hg e. apply Hg. Qed.

Lemma preserves_bind {A B} (m : M A) (k : A -> M B) :
  preserves f m -> (forall a, preserves f (k a)) -> preserves f (bind m k).
Proof.
  intros Hm Hk e. rewrite bind_state.
  destruct (m e).1; [rewrite Hk |..]; apply Hm.
Qed.

Lemma preserves_for_each {A} (l : list A) (body : A -> M unit) :
  (forall x, preserves f (body x)) -> preserves f (for_each l body).
Proof.
  intros Hbody. induction l as [|x l IH]; cbn [for_each].
  - apply preserves_ret.
  - apply preserves_bind; [apply Hbody | intros _; apply IH].
Qed.

Lemma preserves_at {A} (v : list A) (i : N) : preserves f (at_ v i).
Proof. unfold at_. destruct (v !! _); [apply preserves_ret | apply preserves_throw]. Qed.

Lemma preserves_map_at `{Countable K} {A} (m : gmap K A) (k : K) :
  preserves f (map_at m k).
Proof. unfold map_at. destruct (m !! _); [apply preserves_ret | apply preserves_throw]. Qed.

Lemma preserves_index {A} (v : list A) (i : N) : preserves f (index v i).
Proof.
  unfold index. destruct (v !! _); [apply preserves_ret | apply preserves_undefined].
Qed.

Lemma preserves_NOVA_THROW_IF_VK_ERROR (r : VkResult) (x : string -> exn) :
  preserves f (NOVA_THROW_IF_VK_ERROR r x).
Proof.
  unfold NOVA_THROW_IF_VK_ERROR. destruct r; first [apply preserves_ret | apply preserves_throw].
Qed.

End Preservation.

Create HintDb preserves discriminated.

#[export] Hint Resolve preserves_ret preserves_throw preserves_undefined preserves_gets
  preserves_lift preserves_at preserves_map_at preserves_index
  preserves_NOVA_THROW_IF_VK_ERROR : preserves.

(** Splits a member function into its steps; what is left are the steps that
    write to the engine. *)
Ltac preserves_steps :=
  repeat first
    [ progress intros
    | apply preserves_bind
    | apply preserves_for_each
    | solve [eauto with preserves]
    | match goal with
      | |- preserves _ (match ?x with _ => _ end) => destruct x
      end
    | apply preserves_modify; intros ?;
      repeat case_match; reflexivity ].

(** ** Mesh ids and the mesh tables *)

Section MeshIds.
Context `{P : Platform}.
Local Open Scope N_scope.

Lemma counter_of_tables {A} (m : M A) :
  preserves mesh_tables m -> preserves mesh_id_counter m.
Proof. intros Hm e. specialize (Hm e). unfold mesh_tables in Hm. by inversion Hm. Qed.

Lemma queue_of_tables {A} (m : M A) :
  preserves mesh_tables m -> preserves (fun e => mesh_upload_queue (mesh e)) m.
Proof. intros Hm e. specialize (Hm e). unfold mesh_tables in Hm. by inversion Hm. Qed.

Lemma tables_call c : preserves mesh_tables (call c).
Proof. by intros e. Qed.

Lemma tables_fresh_handle : preserves mesh_tables fresh_handle.
Proof. by intros e. Qed.

Lemma tables_NOVA_LOG_ERROR msg : preserves mesh_tables (NOVA_LOG_ERROR msg).
Proof. by intros e. Qed.

Lemma tables_mesh_manager_allocate_mesh n :
  preserves mesh_tables (mesh_manager_allocate_mesh n).
Proof.
  intros e. unfold mesh_manager_allocate_mesh.
  by destruct (allocate_mesh _ _).
Qed.

Lemma tables_memcpy dst src n : preserves mesh_tables (memcpy dst src n).
Proof. intros e. unfold memcpy. by repeat case_match. Qed.

Lemma tables_acquire_next_image s : preserves mesh_tables (acquire_next_image s).
Proof. intros e. unfold acquire_next_image. cbn. by case_match. Qed.

Hint Resolve counter_of_tables queue_of_tables
  tables_call tables_fresh_handle tables_NOVA_LOG_ERROR
  tables_mesh_manager_allocate_mesh tables_memcpy tables_acquire_next_image
  : preserves.

Lemma tables_the_buffer_part_size : preserves mesh_tables the_buffer_part_size.
Proof. unfold the_buffer_part_size. preserves_steps. Qed.
Hint Resolve tables_the_buffer_part_size : preserves.

Lemma tables_mesh_manager_free a : preserves mesh_tables (mesh_manager_free a).
Proof. unfold mesh_manager_free. preserves_steps. Qed.
Hint Resolve tables_mesh_manager_free : preserves.

Lemma tables_get_or_allocate_mesh_staging_buffer :
  preserves mesh_tables get_or_allocate_mesh_staging_buffer.
Proof. unfold get_or_allocate_mesh_staging_buffer. preserves_steps. Qed.
Hint Resolve tables_get_or_allocate_mesh_staging_buffer : preserves.

Lemma tables_run_staging_copy_task m t :
  preserves mesh_tables (run_staging_copy_task m t).
Proof. unfold run_staging_copy_task. preserves_steps. Qed.
Hint Resolve tables_run_staging_copy_task : preserves.

Lemma tables_stage_mesh_parts m n count :
  forall i, preserves mesh_tables (stage_mesh_parts m n count i).
Proof. induction count; intros i; cbn [stage_mesh_parts]; preserves_steps. Qed.
Hint Resolve tables_stage_mesh_parts : preserves.

Lemma tables_WaitForCounter m ts : preserves mesh_tables (WaitForCounter m ts).
Proof. unfold WaitForCounter. preserves_steps. Qed.
Hint Resolve tables_WaitForCounter : preserves.

Lemma counter_delete_mesh mesh_id : preserves mesh_id_counter (delete_mesh mesh_id).
Proof. unfold delete_mesh. preserves_steps. Qed.

Lemma tables_record_part_copies cmd n count :
  forall i, preserves mesh_tables (record_part_copies cmd n count i).
Proof. induction count; intros i; cbn [record_part_copies]; preserves_steps. Qed.
Hint Resolve tables_record_part_copies : preserves.

Lemma counter_drain_mesh_upload_queue n q :
  preserves mesh_id_counter (drain_mesh_upload_queue n q).
Proof. induction q; cbn [drain_mesh_upload_queue]; preserves_steps. Qed.
Hint Resolve counter_drain_mesh_upload_queue : preserves.

Lemma counter_run_task t : preserves mesh_id_counter (run_task t).
Proof.
  destruct t; cbn [run_task];
    unfold run_upload_new_mesh_parts_task, run_return_staging_buffers_task;
    preserves_steps.
Qed.

Lemma counter_run_next_task : preserves mesh_id_counter run_next_task.
Proof.
  intros e. unfold run_next_task. destruct (scheduled e); [done |].
  by rewrite counter_run_task.
Qed.

Lemma tables_render_frame : preserves mesh_tables render_frame.
Proof. unfold render_frame, upload_new_mesh_parts. preserves_steps. Qed.

Lemma tables_destroy_render_passes : preserves mesh_tables destroy_render_passes.
Proof. unfold destroy_render_passes. preserves_steps. Qed.

Lemma tables_destroy_graphics_pipelines :
  preserves mesh_tables destroy_graphics_pipelines.
Proof. unfold destroy_graphics_pipelines. preserves_steps. Qed.

Lemma tables_destroy_dynamic_textures :
  preserves mesh_tables destroy_dynamic_textures.
Proof. unfold destroy_dynamic_textures. preserves_steps. Qed.

Lemma tables_create_textures l : preserves mesh_tables (create_textures l).
Proof. unfold create_textures. preserves_steps. Qed.

Lemma tables_to_vk_attachment_info l :
  preserves mesh_tables (to_vk_attachment_info l).
Proof. induction l; cbn [to_vk_attachment_info]; preserves_steps. Qed.
Hint Resolve tables_to_vk_attachment_info : preserves.

Lemma tables_create_render_passes l : preserves mesh_tables (create_render_passes l).
Proof.
  unfold create_render_passes, assign_pass_data, create_render_pass. preserves_steps.
Qed.

Lemma tables_create_shader_module spirv :
  preserves mesh_tables (create_shader_module spirv).
Proof. unfold create_shader_module. preserves_steps. Qed.
Hint Resolve tables_create_shader_module : preserves.

Lemma tables_add_resources_to_bindings l :
  forall b, preserves mesh_tables (add_resources_to_bindings b l).
Proof.
  induction l; intros b; cbn [add_resources_to_bindings];
    unfold add_resource_to_bindings; preserves_steps.
Qed.
Hint Resolve tables_add_resources_to_bindings : preserves.

Lemma tables_get_shader_module_descriptors spirv b :
  preserves mesh_tables (get_shader_module_descriptors spirv b).
Proof. unfold get_shader_module_descriptors. preserves_steps. Qed.
Hint Resolve tables_get_shader_module_descriptors : preserves.

Lemma tables_dsl_create_infos m count :
  forall i, preserves mesh_tables (dsl_create_infos m count i).
Proof. induction count; intros i; cbn [dsl_create_infos]; preserves_steps. Qed.
Hint Resolve tables_dsl_create_infos : preserves.

Lemma tables_create_layouts l : preserves mesh_tables (create_layouts l).
Proof. induction l; cbn [create_layouts]; preserves_steps. Qed.
Hint Resolve tables_create_layouts : preserves.

Lemma tables_compile_optional_stage stage shader acc :
  preserves mesh_tables (compile_optional_stage stage shader acc).
Proof. unfold compile_optional_stage. preserves_steps. Qed.
Hint Resolve tables_compile_optional_stage : preserves.

Lemma tables_create_graphics_pipelines l :
  preserves mesh_tables (create_graphics_pipelines l).
Proof.
  unfold create_graphics_pipelines, create_graphics_pipeline, compile_stages,
    create_descriptor_set_layouts.
  preserves_steps.
Qed.

Lemma tables_set_shaderpack data : preserves mesh_tables (set_shaderpack data).
Proof.
  unfold set_shaderpack. preserves_steps;
    auto using tables_destroy_render_passes, tables_destroy_graphics_pipelines,
      tables_destroy_dynamic_textures, tables_create_textures,
      tables_create_render_passes, tables_create_graphics_pipelines.
Qed.

Lemma issues_id_bind {A} (c : N) (m : M A) (k : A -> M N) :
  preserves mesh_id_counter m -> (forall a, issues_id c (k a)) ->
  issues_id c (bind m k).
Proof.
  intros Hm Hk e Hc. unfold bind.
  pose proof (Hm e) as He. destruct (m e) as [[a|x|] e1]; cbn in He.
  - apply Hk. congruence.
  - congruence.
  - congruence.
Qed.

Lemma add_mesh_issues_id (input_mesh : mesh_data) (c : N) :
  issues_id c (add_mesh input_mesh).
Proof.
  unfold add_mesh. cbv zeta.
  do 6 (apply issues_id_bind; [solve [preserves_steps] | intros ?]).
  intros e <-. split; reflexivity.
Qed.

(** The number of [add_mesh] calls of a history. *)
Lemma mesh_ids_bounds (history : list api_call) :
  forall e,
    mesh_id_counter e + N.of_nat (length (filter is_add_mesh history)) <= 2 ^ 32 ->
    StronglySorted N.lt (mesh_ids history e) /\
    Forall (fun mesh_id =>
              mesh_id_counter e <= mesh_id <
                mesh_id_counter e + N.of_nat (length (filter is_add_mesh history)))
           (mesh_ids history e).
Proof.
  induction history as [|c history IH]; intros e Hroom.
  { split; constructor. }
  destruct c; cbn [mesh_ids].
  - rewrite filter_cons_True in * by done. cbn [length] in *.
    pose proof (add_mesh_issues_id input_mesh _ e eq_refl) as Hadd.
    destruct (add_mesh input_mesh e) as [[mesh_id|x|] e1].
    + destruct Hadd as [-> Hnext].
      destruct (decide (mesh_id_counter e + 1 < 2 ^ 32)) as [Hsmall|Hwrap].
      * rewrite wrap32_small in Hnext by done.
        destruct (IH e1) as [Hsorted Hrange]; [lia |].
        split.
        -- constructor; [done |].
           eapply Forall_impl; [exact Hrange |]. cbn. intros; lia.
        -- constructor; [lia |].
           eapply Forall_impl; [exact Hrange |]. cbn. intros; lia.
      * assert (Hlast : length (filter is_add_mesh history) = 0%nat) by lia.
        assert (Hzero : mesh_id_counter e1 = 0).
        { rewrite Hnext. unfold UInt.wrap32.
          replace (mesh_id_counter e + 1) with (2 ^ 32) by lia. done. }
        destruct (IH e1) as [_ Hrange]; [lia |].
        assert (Hnone : mesh_ids history e1 = []).
        { destruct (mesh_ids history e1) as [|i l]; [done |].
          inversion Hrange; subst. lia. }
        rewrite Hnone. split; repeat constructor; lia.
    + destruct (IH e1) as [Hsorted Hrange]; [lia |].
      split; [done |]. eapply Forall_impl; [exact Hrange |]. cbn. intros; lia.
    + split; constructor.
  - rewrite filter_cons_False in * by (cbn; auto).
    pose proof (counter_delete_mesh mesh_id e) as Hsame.
    destruct (delete_mesh mesh_id e) as [[[]|x|] e1]; cbn in Hsame;
      [| |split; constructor]; rewrite <- Hsame; apply IH; lia.
  - rewrite filter_cons_False in * by (cbn; auto).
    pose proof (counter_of_tables _ tables_render_frame e) as Hsame.
    destruct (render_frame e) as [[[]|x|] e1]; cbn in Hsame;
      [| |split; constructor]; rewrite <- Hsame; apply IH; lia.
  - rewrite filter_cons_False in * by (cbn; auto).
    pose proof (counter_of_tables _ (tables_set_shaderpack data) e) as Hsame.
    destruct (set_shaderpack data e) as [[[]|x|] e1]; cbn in Hsame;
      [| |split; constructor]; rewrite <- Hsame; apply IH; lia.
  - rewrite filter_cons_False in * by (cbn; auto).
    pose proof (counter_run_next_task e) as Hsame.
    destruct (run_next_task e) as [[[]|x|] e1]; cbn in Hsame;
      [| |split; constructor]; rewrite <- Hsame; apply IH; lia.
Qed.

(** C8, as the 32-bit counter allows it: in a history that does not take
    the counter past 2^32, every id [add_mesh] returns is greater than all
    the ids returned before it, and [delete_mesh] does not touch the
    counter the ids come from. *)
Theorem mesh_ids_increase_until_counter_wraps (history : list api_call) (e : engine) :
  mesh_id_counter e + N.of_nat (length (filter is_add_mesh history)) <= 2 ^ 32 ->
  StronglySorted N.lt (mesh_ids history e) /\
  Forall (fun mesh_id => mesh_id_counter e <= mesh_id) (mesh_ids history e) /\
  (forall mesh_id e0, mesh_id_counter (delete_mesh mesh_id e0).2 = mesh_id_counter e0).
Proof.
  intros Hroom. destruct (mesh_ids_bounds history e Hroom) as [Hsorted Hrange].
  split; [done |]. split.
  - eapply Forall_impl; [exact Hrange |]. cbn. intros; lia.
  - intros mesh_id e0. apply counter_delete_mesh.
Qed.

End MeshIds.

(** ** Staging a mesh *)

Section Staging.
Context `{P : Platform}.
Local Open Scope N_scope.

Lemma bind_returns_inv {A B} (m : M A) (k : A -> M B) e b e' :
  bind m k e = (Returns b, e') ->
  exists a e1, m e = (Returns a, e1) /\ k a e1 = (Returns b, e').
Proof.
  unfold bind. destruct (m e) as [[a|x|] e1]; [eauto | done | done].
Qed.

Lemma preserved_after {X A} (f : engine -> X) (m : M A) (e : engine) r e' :
  preserves f m -> m e = (r, e') -> f e' = f e.
Proof. intros Hm Heq. specialize (Hm e). by rewrite Heq in Hm. Qed.

(** Every copy [add_mesh] schedules is given the number of vertices of a part
    as the number of bytes to copy; there is one staging buffer and one copy
    per part. *)
Lemma stage_mesh_parts_returns (input_mesh : mesh_data) (n : N) (count : nat) :
  forall i e staged e',
    stage_mesh_parts input_mesh n count i e = (Returns staged, e') ->
    length staged.1 = count /\ length staged.2 = count /\
    Forall (fun t => num_vertices t = n) staged.2 /\
    Forall2 (fun b t => buffer_to_upload_to t = b) staged.1 staged.2.
Proof.
  induction count as [|count IH]; intros i e staged e' Hrun.
  - cbn in Hrun. inversion Hrun; subst. cbn. auto.
  - cbn [stage_mesh_parts] in Hrun.
    apply bind_returns_inv in Hrun as (b & e1 & _ & Hrun).
    apply bind_returns_inv in Hrun as (v & e2 & _ & Hrun).
    apply bind_returns_inv in Hrun as (rest & e3 & Hrest & Hrun).
    inversion Hrun; subst. cbn.
    destruct (IH _ _ _ _ Hrest) as (H1 & H2 & H3 & H4).
    split; [lia |]. split; [lia |]. split; constructor; done.
Qed.

(** The command [add_mesh] queues has one staging buffer per part. *)
Lemma add_mesh_queues_well_formed_command (input_mesh : mesh_data) e mesh_id e' :
  add_mesh input_mesh e = (Returns mesh_id, e') ->
  exists cmd,
    mesh_upload_queue (mesh e') = mesh_upload_queue (mesh e) ++ [cmd] /\
    length (staging_buffers cmd) = length (parts (mem cmd)).
Proof.
  unfold add_mesh. cbv zeta. intros Hrun.
  apply bind_returns_inv in Hrun as (allocation & e1 & Halloc & Hrun).
  apply bind_returns_inv in Hrun as (part_size & e2 & Hsize & Hrun).
  apply bind_returns_inv in Hrun as (quotient & e3 & Hquot & Hrun).
  apply bind_returns_inv in Hrun as (staged & e4 & Hstaged & Hrun).
  apply bind_returns_inv in Hrun as ([] & e5 & Hwait & Hrun).
  inversion Hrun; subst. clear Hrun.
  apply stage_mesh_parts_returns in Hstaged as Hlen. destruct Hlen as (Hlen & _).
  exists {| staging_buffers := staged.1; mem := allocation |}.
  split; [| cbn; done].
  cbn. f_equal.
  assert (Hq : forall {A} (m : M A),
             preserves mesh_tables m -> forall e r e', m e = (r, e') ->
             mesh_upload_queue (mesh e') = mesh_upload_queue (mesh e)).
  { intros A m Hm e0 r e0' Heq. apply queue_of_tables in Hm.
    specialize (Hm e0). by rewrite Heq in Hm. }
  rewrite (Hq _ _ (tables_WaitForCounter _ _) _ _ _ Hwait).
  rewrite (Hq _ _ (tables_stage_mesh_parts _ _ _ _) _ _ _ Hstaged).
  rewrite (Hq _ _ (preserves_lift _ _) _ _ _ Hquot).
  rewrite (Hq _ _ tables_the_buffer_part_size _ _ _ Hsize).
  apply (Hq _ _ (tables_mesh_manager_allocate_mesh _) _ _ _ Halloc).
Qed.

(** C1, on a part of eight bytes, a vertex of four bytes and a mesh of two
    vertices (bytes 1 to 8): the mesh takes one part, whose slice is the
    eight bytes of the two vertices; the copy scheduled for it is given the
    two vertices of a part as its byte count, so that the staging buffer
    holds bytes 1 and 2 followed by what it held before. *)
Theorem add_mesh_copies_vertex_count_bytes :
  let r := @add_mesh (Example.platform Example.never_fails) Example.two_vertices
             (Example.initial_engine Example.never_fails) in
  r.1 = Returns 0 /\
  mesh_upload_queue (mesh r.2) =
    [{| staging_buffers := [{| buffer := 100; pMappedData := 100 |}];
        mem := {| parts := [{| part_buffer := 1; offset := 0 |}] |} |}] /\
  mapped_memory (driver r.2) !! 100 = Some (Example.bytes [1; 2; 0; 0; 0; 0; 0; 0]) /\
  take 8 (bytes_from Example.two_vertices 0) = Example.bytes [1; 2; 3; 4; 5; 6; 7; 8].
Proof. vm_compute. repeat split; reflexivity. Qed.

End Staging.

(** ** Merging the bindings of the stages of a pipeline *)

(** C2, on a pipeline whose vertex stage declares the uniform named 7 at set
    0, binding 0 and whose fragment stage declares it at set 0, binding 1:
    [set_shaderpack] returns, having logged the conflict and built the
    pipeline with the binding of the vertex stage.  When the two stages
    declare the name at the same indices, one as a sampled image and one as a
    uniform buffer, nothing is logged at all. *)
Theorem conflicting_uniform_is_logged_and_pipeline_built :
  let r := @set_shaderpack (Example.platform Example.never_fails)
             (Example.shaderpack_with Example.conflicting_bindings)
             (Example.initial_engine Example.never_fails) in
  let r' := @set_shaderpack (Example.platform Example.never_fails)
             (Example.shaderpack_with Example.conflicting_types)
             (Example.initial_engine Example.never_fails) in
  r.1 = Returns tt /\
  nova_log (driver r.2) = [two_uniforms_msg "7"] /\
  pipeline <$> pipelines (shaderpack r.2) !! "gbuffers" = Some 107%N /\
  vkCreateDescriptorSetLayout
    [{| dslb_binding := 0; dslb_descriptorType := VK_DESCRIPTOR_TYPE_COMBINED_IMAGE_SAMPLER;
        dslb_descriptorCount := 1; dslb_stageFlags := VK_SHADER_STAGE_ALL |}] 105%N
    ∈ vk_log (driver r.2) /\
  r'.1 = Returns tt /\
  nova_log (driver r'.2) = [] /\
  pipeline <$> pipelines (shaderpack r'.2) !! "gbuffers" = Some 107%N.
Proof.
  vm_compute. repeat split; try reflexivity.
  do 5 apply list_elem_of_further. apply list_elem_of_here.
Qed.


(** ** The driver calls of a member function *)

Section Calls.
Context `{P : Platform} (Q : vk_call -> Prop).

Lemma only_calls_quiet {A} (m : M A) :
  (forall e, vk_log (driver (m e).2) = vk_log (driver e)) -> only_calls Q m.
Proof. intros Hm e. exists []. by rewrite Hm, app_nil_r. Qed.

Lemma only_calls_ret {A} (a : A) : only_calls Q (ret a).
Proof. by apply only_calls_quiet. Qed.

Lemma only_calls_throw {A} (x : exn) : only_calls Q (@throw _ A x).
Proof. by apply only_calls_quiet. Qed.

Lemma only_calls_undefined {A} : only_calls Q (@undefined_behaviour _ A).
Proof. by apply only_calls_quiet. Qed.

Lemma only_calls_gets {A} (g : engine -> A) : only_calls Q (gets g).
Proof. by apply only_calls_quiet. Qed.

Lemma only_calls_lift {A} (o : outcome A) : only_calls Q (lift o).
Proof. by apply only_calls_quiet. Qed.

Lemma only_calls_fresh_handle : only_calls Q fresh_handle.
Proof. by apply only_calls_quiet. Qed.

Lemma only_calls_NOVA_LOG_ERROR msg : only_calls Q (NOVA_LOG_ERROR msg).
Proof. by apply only_calls_quiet. Qed.

Lemma only_calls_modify (g : engine -> engine) :
  (forall e, vk_log (driver (g e)) = vk_log (driver e)) -> only_calls Q (modify g).
Proof. intros Hg. by apply only_calls_quiet. Qed.

Lemma only_calls_call (c : vk_call) : Q c -> only_calls Q (call c).
Proof. intros Hc e. exists [c]. split; [done |]. by constructor. Qed.

Lemma only_calls_bind {A B} (m : M A) (k : A -> M B) :
  only_calls Q m -> (forall a, only_calls Q (k a)) -> only_calls Q (bind m k).
Proof.
  intros Hm Hk e. rewrite bind_state.
  destruct (Hm e) as (rest1 & Hlog1 & HQ1).
  destruct (m e).1 as [a| |]; [| by exists rest1 ..].
  destruct (Hk a (m e).2) as (rest2 & Hlog2 & HQ2).
  exists (rest1 ++ rest2). split.
  - by rewrite Hlog2, Hlog1, app_assoc.
  - by apply Forall_app.
Qed.

Lemma only_calls_for_each {A} (l : list A) (body : A -> M unit) :
  (forall x, only_calls Q (body x)) -> only_calls Q (for_each l body).
Proof.
  intros Hbody. induction l as [|x l IH]; cbn [for_each].
  - apply only_calls_ret.
  - apply only_calls_bind; [apply Hbody | intros _; apply IH].
Qed.

Lemma only_calls_at {A} (v : list A) (i : N) : only_calls Q (at_ v i).
Proof. unfold at_. destruct (v !! _); [apply only_calls_ret | apply only_calls_throw]. Qed.

Lemma only_calls_map_at `{Countable K} {A} (m : gmap K A) (k : K) :
  only_calls Q (map_at m k).
Proof.
  unfold map_at. destruct (m !! _); [apply only_calls_ret | apply only_calls_throw].
Qed.

Lemma only_calls_index {A} (v : list A) (i : N) : only_calls Q (index v i).
Proof.
  unfold index. destruct (v !! _); [apply only_calls_ret | apply only_calls_undefined].
Qed.

Lemma only_calls_NOVA_THROW_IF_VK_ERROR (r : VkResult) (x : string -> exn) :
  only_calls Q (NOVA_THROW_IF_VK_ERROR r x).
Proof.
  unfold NOVA_THROW_IF_VK_ERROR.
  destruct r; first [apply only_calls_ret | apply only_calls_throw].
Qed.

End Calls.

Create HintDb calls discriminated.

#[export] Hint Resolve only_calls_ret only_calls_throw only_calls_undefined
  only_calls_gets only_calls_lift only_calls_fresh_handle only_calls_NOVA_LOG_ERROR
  only_calls_at only_calls_map_at only_calls_index
  only_calls_NOVA_THROW_IF_VK_ERROR : calls.

Ltac calls_steps :=
  repeat first
    [ progress intros
    | apply only_calls_bind
    | apply only_calls_for_each
    | solve [eauto with calls]
    | apply only_calls_call; solve [cbn; tauto | hnf; cbn; tauto]
    | match goal with
      | |- only_calls _ (match ?x with _ => _ end) => destruct x
      end
    | apply only_calls_modify; intros ?;
      repeat case_match; reflexivity ].

(** ** Replacing a shaderpack *)

Section Teardown.
Context `{P : Platform}.

Lemma creates_to_vk_attachment_info l : only_calls creates (to_vk_attachment_info l).
Proof. induction l; cbn [to_vk_attachment_info]; calls_steps. Qed.
Hint Resolve creates_to_vk_attachment_info : calls.

Lemma creates_create_textures l : only_calls creates (create_textures l).
Proof. unfold create_textures. calls_steps. Qed.

Lemma creates_create_render_passes l : only_calls creates (create_render_passes l).
Proof.
  unfold create_render_passes, assign_pass_data, create_render_pass. calls_steps.
Qed.

Lemma creates_create_shader_module spirv : only_calls creates (create_shader_module spirv).
Proof. unfold create_shader_module. calls_steps. Qed.
Hint Resolve creates_create_shader_module : calls.

Lemma creates_add_resources_to_bindings l :
  forall b, only_calls creates (add_resources_to_bindings b l).
Proof.
  induction l; intros b; cbn [add_resources_to_bindings];
    unfold add_resource_to_bindings; calls_steps.
Qed.
Hint Resolve creates_add_resources_to_bindings : calls.

Lemma creates_get_shader_module_descriptors spirv b :
  only_calls creates (get_shader_module_descriptors spirv b).
Proof. unfold get_shader_module_descriptors. calls_steps. Qed.
Hint Resolve creates_get_shader_module_descriptors : calls.

Lemma creates_dsl_create_infos m count :
  forall i, only_calls creates (dsl_create_infos m count i).
Proof. induction count; intros i; cbn [dsl_create_infos]; calls_steps. Qed.
Hint Resolve creates_dsl_create_infos : calls.

Lemma creates_create_layouts l : only_calls creates (create_layouts l).
Proof. induction l; cbn [create_layouts]; calls_steps. Qed.
Hint Resolve creates_create_layouts : calls.

Lemma creates_compile_optional_stage stage shader acc :
  only_calls creates (compile_optional_stage stage shader acc).
Proof. unfold compile_optional_stage. calls_steps. Qed.
Hint Resolve creates_compile_optional_stage : calls.

Lemma creates_create_graphics_pipelines l :
  only_calls creates (create_graphics_pipelines l).
Proof.
  unfold create_graphics_pipelines, create_graphics_pipeline, compile_stages,
    create_descriptor_set_layouts.
  calls_steps.
Qed.

Lemma emits_for_each {A} (cs : A -> list vk_call) (body : A -> M unit) (l : list A) :
  (forall x, emits (cs x) (body x)) -> emits (l ≫= cs) (for_each l body).
Proof.
  intros Hbody. induction l as [|x l IH]; intros e; cbn [for_each].
  - exists e. cbn. by rewrite app_nil_r.
  - destruct (Hbody x e) as (e1 & Hrun1 & Hlog1 & Hpack1).
    destruct (IH e1) as (e2 & Hrun2 & Hlog2 & Hpack2).
    exists e2. split; [| split].
    + by erewrite bind_returns.
    + rewrite Hlog2, Hlog1. cbn. by rewrite <- app_assoc.
    + congruence.
Qed.

Lemma emits_call (c : vk_call) : emits [c] (let! _ := call c in ret tt).
Proof. intros e. eexists. split; [reflexivity |]. done. Qed.

Lemma emits_two_calls (c1 c2 : vk_call) :
  emits [c1; c2] (let! _ := call c1 in let! _ := call c2 in ret tt).
Proof.
  intros e. eexists. split; [reflexivity |]. split; [| done].
  cbn. by rewrite <- app_assoc.
Qed.

(** What [set_shaderpack] does first when a shaderpack is loaded. *)
Lemma teardown_destroys_passes_pipelines_textures (e : engine) :
  exists e',
    (do! destroy_render_passes in
     do! destroy_graphics_pipelines in
     do! modify (with_shaderpack (set_materials ∅)) in
     destroy_dynamic_textures) e = (Returns tt, e') /\
    vk_log (driver e') =
      vk_log (driver e) ++ pass_destructions e ++ pipeline_destructions e
        ++ texture_destructions e.
Proof.
  pose proof (emits_for_each
                (fun entry : string * vk_render_pass => [vkDestroyRenderPass (pass entry.2)])
                (fun entry => let! _ := call (vkDestroyRenderPass (pass entry.2)) in ret tt)
                (map_to_list (render_passes (shaderpack e)))
                (fun x => emits_call _) e) as (e1 & Hrun1 & Hlog1 & Hpack1).
  set (e1' := with_shaderpack (set_render_passes_by_order [])
                (with_shaderpack (set_render_passes ∅) e1)).
  pose proof (emits_for_each
                (fun entry : string * vk_pipeline => [vkDestroyPipeline (pipeline entry.2)])
                (fun entry => let! _ := call (vkDestroyPipeline (pipeline entry.2)) in ret tt)
                (map_to_list (pipelines (shaderpack e)))
                (fun x => emits_call _) e1') as (e2 & Hrun2 & Hlog2 & Hpack2).
  set (e2' := with_shaderpack (set_materials ∅) (with_shaderpack (set_pipelines ∅) e2)).
  pose proof (emits_for_each
                (fun entry : string * vk_texture =>
                   [vkDestroyImageView (image_view entry.2); vmaDestroyImage (image entry.2)])
                (fun entry =>
                   let! _ := call (vkDestroyImageView (image_view entry.2)) in
                   let! _ := call (vmaDestroyImage (image entry.2)) in ret tt)
                (map_to_list (dynamic_textures (shaderpack e)))
                (fun x => emits_two_calls _ _) e2') as (e3 & Hrun3 & Hlog3 & Hpack3).
  exists (with_shaderpack (set_dynamic_textures ∅) e3). split.
  - unfold destroy_render_passes at 1.
    erewrite bind_returns; [| erewrite bind_returns by reflexivity].
    2:{ erewrite bind_returns by exact Hrun1. erewrite bind_returns by reflexivity.
        reflexivity. }
    unfold destroy_graphics_pipelines at 1.
    erewrite bind_returns; [| erewrite bind_returns by reflexivity].
    2:{ cbn [shaderpack with_shaderpack set_render_passes_by_order set_render_passes
             pipelines].
        rewrite Hpack1.
        erewrite bind_returns by exact Hrun2. reflexivity. }
    erewrite bind_returns by reflexivity.
    unfold destroy_dynamic_textures.
    erewrite bind_returns by reflexivity.
    cbn [shaderpack with_shaderpack set_materials set_pipelines dynamic_textures].
    rewrite Hpack2. cbn [shaderpack with_shaderpack set_render_passes_by_order
      set_render_passes dynamic_textures e1']. rewrite Hpack1.
    erewrite bind_returns by exact Hrun3. reflexivity.
  - cbn. rewrite Hlog3. cbn. rewrite Hlog2. cbn. rewrite Hlog1.
    unfold pass_destructions, pipeline_destructions, texture_destructions.
    rewrite <- !app_assoc.
    assert (Hmap : forall {A} (f : A -> vk_call) (l : list A),
               l ≫= (fun x => [f x]) = f <$> l).
    { intros A f l. induction l as [|x l IH]; [done |]. cbn. by rewrite IH. }
    by rewrite !Hmap.
Qed.

(** C4, as the code orders it: replacing a loaded shaderpack destroys the
    pass of every entry of [render_passes] first, then the pipeline of every
    entry of [pipelines], then the view and the image of every entry of
    [dynamic_textures], and makes no further destruction; so the passes and
    pipelines the tables hold are all gone before the first texture goes,
    and the passes before the pipelines that were built against them.  What
    was compiled but is held by no table is not destroyed. *)
Theorem set_shaderpack_destroys_passes_then_pipelines_then_textures
    (data : shaderpack_data) (e : engine) :
  shaderpack_loaded (shaderpack e) = true ->
  exists rest,
    vk_log (driver (set_shaderpack data e).2) =
      vk_log (driver e) ++ pass_destructions e ++ pipeline_destructions e
        ++ texture_destructions e ++ rest /\
    Forall creates rest.
Proof.
  intros Hloaded. unfold set_shaderpack.
  erewrite bind_returns by reflexivity. rewrite Hloaded.
  destruct (teardown_destroys_passes_pipelines_textures e) as (e1 & Hrun & Hlog).
  erewrite bind_returns by exact Hrun.
  assert (Hrest : only_calls creates
            (do! create_textures (textures (resources data)) in
             do! for_each (shaderpack_materials data) (fun mat_data =>
                   modify (with_shaderpack (fun s =>
                     set_materials (<[material_name mat_data := mat_data]> (materials s)) s))) in
             do! create_render_passes (passes data) in
             do! create_graphics_pipelines (shaderpack_pipelines data) in
             modify (with_shaderpack (set_shaderpack_loaded true)))).
  { calls_steps; auto using creates_create_textures, creates_create_render_passes,
      creates_create_graphics_pipelines. }
  destruct (Hrest e1) as (rest & Hlog' & Hcreates).
  exists rest. split; [| done].
  rewrite Hlog', Hlog, <- !app_assoc. done.
Qed.

End Teardown.

(** ** Descriptor set layouts *)

Section DescriptorSets.
Context `{P : Platform}.
Local Open Scope N_scope.

Lemma foldl_push_back_by_set (l : list (string * vk_resource_binding)) :
  forall (acc : gmap N (list VkDescriptorSetLayoutBinding)) (i : N),
    (is_Some (foldl push_back_by_set acc l !! i) <->
       is_Some (acc !! i) \/ exists b, b ∈ l.*2 /\ set b = i) /\
    default [] (foldl push_back_by_set acc l !! i) =
      default [] (acc !! i)
        ++ (layout_binding_of <$> filter (fun b => set b = i) l.*2).
Proof.
  induction l as [|[name b] l IH]; intros acc i.
  - cbn. rewrite app_nil_r. split; [| done]. split; [auto |].
    intros [H | (b & Hb & _)]; [done |]. by apply elem_of_nil in Hb.
  - cbn [foldl fmap list_fmap]. destruct (IH (push_back_by_set acc (name, b)) i) as [IH1 IH2].
    unfold push_back_by_set in *. cbn [snd fst] in *.
    split.
    + rewrite IH1. destruct (decide (set b = i)) as [<- | Hne].
      * rewrite lookup_insert_eq. split; [| by eauto].
        intros _. right. exists b. split; [apply list_elem_of_here | done].
      * rewrite lookup_insert_ne by done. split.
        -- intros [H | (b' & Hb' & Hset)]; [by left |].
           right. exists b'. split; [by apply list_elem_of_further | done].
        -- intros [H | (b' & Hb' & Hset)]; [by left |].
           apply elem_of_cons in Hb' as [-> | Hb']; [done |]. right. eauto.
    + rewrite IH2. destruct (decide (set b = i)) as [<- | Hne].
      * rewrite lookup_insert_eq. cbn [default].
        rewrite filter_cons_True by done. cbn. by rewrite <- app_assoc.
      * rewrite lookup_insert_ne by done. by rewrite filter_cons_False by done.
Qed.

Lemma group_by_set_populated (all_bindings : gmap string vk_resource_binding) (i : N) :
  is_Some (group_by_set all_bindings !! i) <-> populated all_bindings i.
Proof.
  unfold group_by_set, populated.
  destruct (foldl_push_back_by_set (map_to_list all_bindings) ∅ i) as [H _].
  rewrite H, lookup_empty. split.
  - intros [[? ?] | (b & Hb & Hset)]; [done |].
    apply list_elem_of_fmap in Hb as ([name b'] & -> & Hin).
    apply elem_of_map_to_list in Hin. eauto.
  - intros (name & b & Hb & Hset). right. exists b. split; [| done].
    apply list_elem_of_fmap. exists (name, b). split; [done |].
    by apply elem_of_map_to_list.
Qed.

Lemma group_by_set_lookup (all_bindings : gmap string vk_resource_binding) (i : N) l :
  group_by_set all_bindings !! i = Some l -> l = bindings_of_set all_bindings i.
Proof.
  intros Hl. unfold group_by_set, bindings_of_set in *.
  destruct (foldl_push_back_by_set (map_to_list all_bindings) ∅ i) as [_ H].
  rewrite Hl, lookup_empty in H. done.
Qed.

(** If the indices below the size of a map are all keys, they are all of
    its keys. *)
Lemma keys_below_size {A} (n : nat) :
  forall m : gmap N A,
    base.size m = n ->
    (forall j, j < N.of_nat n -> is_Some (m !! j)) ->
    forall k, is_Some (m !! k) -> k < N.of_nat n.
Proof.
  induction n as [|n IH]; intros m Hsize Hbelow k Hk.
  - apply map_size_empty_inv in Hsize. subst. rewrite lookup_empty in Hk.
    by destruct Hk.
  - destruct (decide (k = N.of_nat n)) as [-> | Hne]; [lia |].
    assert (Hlast : is_Some (m !! N.of_nat n)) by (apply Hbelow; lia).
    assert (k < N.of_nat n); [| lia].
    apply (IH (delete (N.of_nat n) m)).
    + rewrite map_size_delete_Some by done. lia.
    + intros j Hj. rewrite lookup_delete_ne by lia. apply Hbelow. lia.
    + by rewrite lookup_delete_ne.
Qed.

(** A map whose keys are all below [n] has at most [n] entries. *)
Lemma size_le_keys_below {A} (n : nat) :
  forall m : gmap N A,
    (forall j, is_Some (m !! j) -> j < N.of_nat n) -> (base.size m <= n)%nat.
Proof.
  induction n as [|n IH]; intros m Hsub.
  - destruct (decide (m = ∅)) as [-> | Hne]; [by rewrite map_size_empty |].
    apply map_choose in Hne as (j & x & Hj).
    specialize (Hsub j ltac:(eauto)). lia.
  - destruct (m !! N.of_nat n) as [x|] eqn:Hx.
    + assert ((base.size (delete (N.of_nat n) m) <= n)%nat) as Hd;
        [| rewrite map_size_delete_Some in Hd by eauto; lia].
      apply IH. intros j Hj.
      destruct (decide (j = N.of_nat n)) as [-> | Hne];
        [by rewrite lookup_delete_eq in Hj; destruct Hj |].
      rewrite lookup_delete_ne in Hj by done. apply Hsub in Hj. lia.
    + assert ((base.size m <= n)%nat); [| lia].
      apply IH. intros j Hj.
      destruct (decide (j = N.of_nat n)) as [-> | Hne];
        [rewrite Hx in Hj; by destruct Hj |].
      apply Hsub in Hj. lia.
Qed.

(** The second loop stops at the first index that has no bindings. *)
Lemma dsl_create_infos_spec (m : gmap N (list VkDescriptorSetLayoutBinding)) (count : nat) :
  forall (i : N) (e : engine),
    i + N.of_nat count <= 2 ^ 32 ->
    ((forall j, i <= j < i + N.of_nat count -> is_Some (m !! j)) /\
     exists infos,
       dsl_create_infos m count i e = (Returns infos, e) /\
       length infos = count /\
       forall k, (k < count)%nat -> Some <$> infos !! k = Some (m !! (i + N.of_nat k)))
    \/
    (exists j,
       i <= j < i + N.of_nat count /\ m !! j = None /\
       (forall j', i <= j' < j -> is_Some (m !! j')) /\
       dsl_create_infos m count i e =
         (Throws (shader_layout_creation_failed (set_not_present_msg j)),
          with_driver (fun d => set_nova_log (nova_log d ++ [could_not_get_msg j]) d) e)).
Proof.
  induction count as [|count IH]; intros i e Hbound.
  - left. split; [intros j Hj; lia |]. exists [].
    split; [done |]. split; [done |]. intros k Hk. exfalso. lia.
  - cbn [dsl_create_infos]. destruct (m !! i) as [bindings|] eqn:Hi.
    + destruct (decide (i + 1 < 2 ^ 32)) as [Hsmall | Hlast].
      2:{ (* the last index a [uint32_t] can hold: no iteration is left *)
          destruct count as [|count]; [| lia]. left. split.
          - intros j Hj. assert (j = i) as -> by lia. by rewrite Hi.
          - exists [bindings]. split; [reflexivity |]. split; [done |].
            intros [|k] Hk; [| lia]. cbn. by rewrite N.add_0_r, Hi. }
      rewrite (wrap32_small _ Hsmall).
      destruct (IH (i + 1) e ltac:(lia)) as [[Hall (infos & Hrun & Hlen & Hget)] | Hgap].
      * left. split.
        -- intros j Hj. destruct (decide (j = i)) as [-> | Hne]; [by rewrite Hi |].
           apply Hall. lia.
        -- exists (bindings :: infos). split; [by erewrite bind_returns | ].
           split; [cbn; lia |].
           intros [|k] Hk; cbn.
           ++ by rewrite N.add_0_r, Hi.
           ++ rewrite Hget by lia. do 2 f_equal. lia.
      * right. destruct Hgap as (j & Hj & Hnone & Hbefore & Hrun).
        exists j. split; [lia |]. split; [done |]. split.
        -- intros j' Hj'. destruct (decide (j' = i)) as [-> | Hne]; [by rewrite Hi |].
           apply Hbefore. lia.
        -- by erewrite bind_throws.
    + right. exists i. split; [lia |]. split; [done |]. split; [intros; lia |].
      reflexivity.
Qed.

(** The third loop creates the layouts in the order of the create infos. *)
Lemma create_layouts_spec (infos : list (list VkDescriptorSetLayoutBinding)) :
  forall e : engine, exists layouts e',
    create_layouts infos e = (Returns layouts, e') /\
    length layouts = length infos /\
    vk_log (driver e') =
      vk_log (driver e) ++ zip_with vkCreateDescriptorSetLayout infos layouts.
Proof.
  induction infos as [|bindings infos IH]; intros e.
  - exists [], e. cbn. by rewrite app_nil_r.
  - cbn [create_layouts].
    set (h := next_handle (driver e)).
    set (e1 := with_driver (fun d => set_vk_log
                  (vk_log d ++ [vkCreateDescriptorSetLayout bindings h]) d)
                 (with_driver (fun d => set_next_handle (N.succ (next_handle d)) d) e)).
    destruct (IH e1) as (layouts & e' & Hrun & Hlen & Hlog).
    exists (h :: layouts), e'. split; [| split].
    + erewrite bind_returns by reflexivity.
      erewrite bind_returns by reflexivity.
      by erewrite bind_returns by exact Hrun.
    + cbn. lia.
    + rewrite Hlog. cbn. by rewrite <- app_assoc.
Qed.

Lemma size_group_by_set (all_bindings : gmap string vk_resource_binding) :
  (base.size (group_by_set all_bindings) <= base.size all_bindings)%nat.
Proof.
  unfold group_by_set. rewrite <- (length_map_to_list all_bindings).
  assert (H : forall l acc,
            (base.size (foldl push_back_by_set acc l) <= base.size acc + length l)%nat).
  { induction l as [|x l IH]; intros acc; cbn [foldl length]; [lia |].
    etrans; [apply IH |]. unfold push_back_by_set.
    destruct (acc !! set x.2) eqn:Hacc.
    - rewrite map_size_insert_Some by eauto. lia.
    - rewrite map_size_insert_None by done. lia. }
  specialize (H (map_to_list all_bindings) ∅). by rewrite map_size_empty in H.
Qed.

(** C6: when a descriptor set index below a populated one has no bindings,
    [create_descriptor_set_layouts] logs and throws the error that names the
    first index without bindings; when the populated indices are exactly 0
    to [k], it returns [k + 1] layouts, created in the order of the indices
    from the bindings of each set. *)
Theorem descriptor_set_layouts_need_contiguous_sets
    (all_bindings : gmap string vk_resource_binding) (e : engine) :
  N.of_nat (base.size all_bindings) < 2 ^ 32 ->
  (forall missing used,
     populated all_bindings used -> missing < used -> ~ populated all_bindings missing ->
     exists i,
       create_descriptor_set_layouts all_bindings e =
         (Throws (shader_layout_creation_failed (set_not_present_msg i)),
          with_driver (fun d => set_nova_log (nova_log d ++ [could_not_get_msg i]) d) e) /\
       ~ populated all_bindings i /\
       (forall j, j < i -> populated all_bindings j)) /\
  (forall k,
     (forall i, populated all_bindings i <-> i <= k) ->
     exists layouts e',
       create_descriptor_set_layouts all_bindings e = (Returns layouts, e') /\
       length layouts = S (N.to_nat k) /\
       vk_log (driver e') =
         vk_log (driver e) ++
           zip_with vkCreateDescriptorSetLayout
             (bindings_of_set all_bindings <$> (N.of_nat <$> seq 0 (S (N.to_nat k))))
             layouts).
Proof.
  intros Hsmall.
  pose proof (size_group_by_set all_bindings) as Hsize.
  set (m := group_by_set all_bindings) in *.
  destruct (dsl_create_infos_spec m (base.size m) 0 e ltac:(lia))
    as [[Hall (infos & Hrun & Hlen & Hget)] | (i & Hi & Hnone & Hbefore & Hrun)].
  - (* every index below the number of sets is populated *)
    assert (Hkeys : forall k, is_Some (m !! k) -> k < N.of_nat (base.size m)).
    { apply keys_below_size; [done |]. intros j Hj. apply Hall. lia. }
    split.
    + intros missing used Hused Hlt Hmissing. exfalso. apply Hmissing.
      apply group_by_set_populated. apply Hall.
      apply group_by_set_populated, Hkeys in Hused. fold m. lia.
    + intros k Hk.
      assert (Hcount : base.size m = S (N.to_nat k)).
      { assert (k < N.of_nat (base.size m)).
        { apply Hkeys, group_by_set_populated, Hk. lia. }
        destruct (decide (N.of_nat (base.size m) <= k + 1)) as [|Hmore]; [lia |].
        assert (Hextra : populated all_bindings (k + 1)).
        { apply group_by_set_populated, Hall. fold m. lia. }
        apply Hk in Hextra. lia. }
      destruct (create_layouts_spec infos e) as (layouts & e' & Hcreate & Hlayouts & Hlog).
      exists layouts, e'. split; [| split].
      * unfold create_descriptor_set_layouts. fold m.
        by erewrite bind_returns by exact Hrun.
      * lia.
      * rewrite Hlog. f_equal. f_equal.
        apply list_eq. intros n. rewrite !list_lookup_fmap.
        destruct (decide (n < base.size m)%nat) as [Hn | Hn].
        -- specialize (Hget n Hn). rewrite N.add_0_l in Hget.
           rewrite lookup_seq_lt by lia. cbn.
           destruct (infos !! n) as [l|] eqn:Hl; cbn in Hget; [| done].
           inversion Hget as [Hm]. symmetry in Hm.
           by rewrite (group_by_set_lookup _ _ _ Hm).
        -- rewrite lookup_ge_None_2 by lia.
           by rewrite lookup_seq_ge by lia.
  - (* the loop stops at the first index without bindings *)
    assert (Hunpopulated : ~ populated all_bindings i).
    { rewrite <- group_by_set_populated. fold m. rewrite Hnone. by intros [? ?]. }
    assert (Hbelow : forall j, j < i -> populated all_bindings j).
    { intros j Hj. apply group_by_set_populated, Hbefore. lia. }
    split.
    + intros _ _ _ _ _. exists i. split; [| done].
      unfold create_descriptor_set_layouts. fold m.
      by erewrite bind_throws by exact Hrun.
    + intros k Hk. exfalso. apply Hunpopulated, Hk.
      destruct (decide (i <= k)) as [|Hmore]; [done |].
      assert (Hkeys : forall k', is_Some (m !! k') -> k' < i).
      { intros k' Hk'. apply group_by_set_populated, Hk in Hk'. lia. }
      assert (Hi' : (N.to_nat i < base.size m)%nat) by lia.
      (* more sets than indices below [i]: impossible *)
      assert (Hsub : forall j, is_Some (m !! j) -> j < N.of_nat (N.to_nat i)).
      { intros j Hj. apply Hkeys in Hj. lia. }
      exfalso.
      assert (Hle : (base.size m <= N.to_nat i)%nat) by by apply size_le_keys_below.
      lia.
Qed.

End DescriptorSets.

(** ** The descriptor type of merged bindings *)

Section DescriptorTypes.
Context `{P : Platform}.
Local Open Scope N_scope.

Lemma merged_from_empty : merged_from [] ∅.
Proof.
  split.
  - intros r Hr. by apply elem_of_nil in Hr.
  - intros name b Hb. by rewrite lookup_empty in Hb.
Qed.

(** [add_resource_to_bindings] always returns; the name of the resource has
    a binding afterwards, the one recorded first. *)
Lemma add_resource_to_bindings_merges (rs : list spirv_resource)
    (bindings : gmap string vk_resource_binding) (resource : spirv_resource) (e : engine) :
  merged_from rs bindings ->
  exists bindings' e',
    add_resource_to_bindings bindings resource e = (Returns bindings', e') /\
    merged_from (rs ++ [resource]) bindings'.
Proof.
  intros [Hnames Hbindings]. unfold add_resource_to_bindings.
  destruct (bindings !! resource_name resource) as [existing|] eqn:Hold.
  - assert (Hsame : merged_from (rs ++ [resource]) bindings).
    { split.
      - intros r Hr. apply elem_of_app in Hr as [Hr | Hr]; [by apply Hnames |].
        apply list_elem_of_singleton in Hr as ->. by rewrite Hold.
      - intros name b Hb. destruct (Hbindings name b Hb) as (Ht & Hc & r & Hr & Hrest).
        split; [done |]. split; [done |]. exists r. split; [| done].
        apply elem_of_app. by left. }
    destruct (negb _); eauto.
  - eexists _, e. split; [reflexivity |]. split.
    + intros r Hr. apply elem_of_app in Hr as [Hr | Hr].
      * destruct (decide (resource_name resource = resource_name r)) as [-> | Hne].
        -- rewrite lookup_insert_eq. eauto.
        -- rewrite lookup_insert_ne by done. by apply Hnames.
      * apply list_elem_of_singleton in Hr as ->. rewrite lookup_insert_eq. eauto.
    + intros name b Hb. apply lookup_insert_Some in Hb as [[<- <-] | [Hne Hb]].
      * cbn. split; [done |]. split; [done |]. exists resource.
        split; [| done]. apply elem_of_app. right. apply list_elem_of_here.
      * destruct (Hbindings name b Hb) as (Ht & Hc & r & Hr & Hrest).
        split; [done |]. split; [done |]. exists r. split; [| done].
        apply elem_of_app. by left.
Qed.

Lemma add_resources_to_bindings_merges (l : list spirv_resource) :
  forall (rs : list spirv_resource) (bindings : gmap string vk_resource_binding)
         (e : engine),
    merged_from rs bindings ->
    exists bindings' e',
      add_resources_to_bindings bindings l e = (Returns bindings', e') /\
      merged_from (rs ++ l) bindings'.
Proof.
  induction l as [|resource l IH]; intros rs bindings e Hm.
  - exists bindings, e. by rewrite app_nil_r.
  - cbn [add_resources_to_bindings].
    destruct (add_resource_to_bindings_merges rs bindings resource e Hm)
      as (b1 & e1 & Hrun1 & Hm1).
    destruct (IH _ b1 e1 Hm1) as (b2 & e2 & Hrun2 & Hm2).
    exists b2, e2. split; [by erewrite bind_returns |].
    by rewrite <- app_assoc in Hm2.
Qed.

Lemma get_shader_module_descriptors_merges (spirv : list N) (rs : list spirv_resource)
    (bindings : gmap string vk_resource_binding) (e : engine) :
  merged_from rs bindings ->
  exists bindings' e',
    get_shader_module_descriptors spirv bindings e = (Returns bindings', e') /\
    merged_from (rs ++ resources_of spirv) bindings'.
Proof.
  intros Hm. unfold get_shader_module_descriptors, resources_of.
  destruct (add_resources_to_bindings_merges
              (sampled_images (get_shader_resources spirv)) rs bindings e Hm)
    as (b1 & e1 & Hrun1 & Hm1).
  destruct (add_resources_to_bindings_merges
              (uniform_buffers (get_shader_resources spirv)) _ b1 e1 Hm1)
    as (b2 & e2 & Hrun2 & Hm2).
  exists b2, e2. split; [by erewrite bind_returns |].
  by rewrite <- app_assoc in Hm2.
Qed.

Lemma compile_optional_stage_merges (stage : N) (shader : option shader_source)
    (rs : list spirv_resource) acc acc' (e e' : engine) :
  merged_from rs acc.2 ->
  compile_optional_stage stage shader acc e = (Returns acc', e') ->
  merged_from (rs ++ from_option (fun s => resources_of (source s)) [] shader) acc'.2.
Proof.
  intros Hm Hrun. destruct shader as [s|]; cbn in *.
  - apply bind_returns_inv in Hrun as (module & e1 & _ & Hrun).
    destruct (get_shader_module_descriptors_merges (source s) rs acc.2 e1 Hm)
      as (b & e2 & Hrun' & Hm').
    erewrite bind_returns in Hrun by exact Hrun'.
    inversion Hrun; subst. done.
  - inversion Hrun; subst. by rewrite app_nil_r.
Qed.

Lemma compile_stages_merges (data : pipeline_data) compiled (e e' : engine) :
  compile_stages data e = (Returns compiled, e') ->
  merged_from (reflected_resources data) compiled.2.
Proof.
  unfold compile_stages. intros Hrun.
  apply bind_returns_inv in Hrun as (module & e1 & _ & Hrun).
  destruct (get_shader_module_descriptors_merges (source (vertex_shader data)) [] ∅ e1
              merged_from_empty) as (b & e2 & Hrun' & Hm).
  erewrite bind_returns in Hrun by exact Hrun'. cbv zeta in Hrun.
  apply bind_returns_inv in Hrun as (acc1 & e3 & Hrun1 & Hrun).
  apply bind_returns_inv in Hrun as (acc2 & e4 & Hrun2 & Hrun).
  apply bind_returns_inv in Hrun as (acc3 & e5 & Hrun3 & Hrun).
  eapply compile_optional_stage_merges in Hrun1; [| exact Hm].
  eapply compile_optional_stage_merges in Hrun2; [| exact Hrun1].
  eapply compile_optional_stage_merges in Hrun3; [| exact Hrun2].
  eapply compile_optional_stage_merges in Hrun; [| exact Hrun3].
  replace (reflected_resources data) with
    (((((([] ++ resources_of (source (vertex_shader data)))
       ++ from_option (fun s => resources_of (source s)) [] (geometry_shader data))
       ++ from_option (fun s => resources_of (source s)) [] (tessellation_control_shader data))
       ++ from_option (fun s => resources_of (source s)) [] (tessellation_evaluation_shader data))
       ++ from_option (fun s => resources_of (source s)) [] (fragment_shader data)));
    [done |].
  unfold reflected_resources, stage_sources.
  destruct (geometry_shader data), (tessellation_control_shader data),
    (tessellation_evaluation_shader data), (fragment_shader data);
    cbn; rewrite ?app_nil_r, <- ?app_assoc; reflexivity.
Qed.

(** C10: in the merged bindings of a pipeline every reflected resource --
    sampled image or uniform buffer -- has a binding under its name, and
    every binding is recorded as a combined image sampler of count 1, with
    the set and binding index of a reflected resource of that name; so the
    layout bindings of every descriptor set are combined image samplers, and
    none is a uniform buffer. *)
Theorem merged_bindings_are_combined_image_samplers
    (data : pipeline_data) compiled (e e' : engine) :
  compile_stages data e = (Returns compiled, e') ->
  (forall r, r ∈ reflected_resources data -> is_Some (compiled.2 !! resource_name r)) /\
  (forall name b, compiled.2 !! name = Some b ->
     descriptorType b = VK_DESCRIPTOR_TYPE_COMBINED_IMAGE_SAMPLER /\
     descriptorCount b = 1 /\
     exists r, r ∈ reflected_resources data /\ resource_name r = name /\
       set b = DecorationDescriptorSet r /\ binding b = DecorationBinding r) /\
  (forall i l, group_by_set compiled.2 !! i = Some l ->
     Forall (fun lb =>
               dslb_descriptorType lb = VK_DESCRIPTOR_TYPE_COMBINED_IMAGE_SAMPLER /\
               dslb_descriptorType lb <> VK_DESCRIPTOR_TYPE_UNIFORM_BUFFER /\
               dslb_descriptorCount lb = 1) l).
Proof.
  intros Hrun. destruct (compile_stages_merges data compiled e e' Hrun) as [Hnames Hbindings].
  split; [done |]. split; [done |].
  intros i l Hl. apply group_by_set_lookup in Hl as ->.
  unfold bindings_of_set. apply Forall_forall. intros lb Hlb.
  apply list_elem_of_fmap in Hlb as (b & -> & Hb).
  apply list_elem_of_filter in Hb as [_ Hb].
  apply list_elem_of_fmap in Hb as ([name b'] & -> & Hin).
  apply elem_of_map_to_list in Hin.
  destruct (Hbindings name b' Hin) as (Ht & Hc & _).
  cbn. rewrite Ht. done.
Qed.

End DescriptorTypes.

(** ** The order of the frame graph *)

Section FrameGraphOrder.
Import FrameGraph.

Lemma filter_all {A} (Q : A -> Prop) `{!forall x, Decision (Q x)} (l : list A) :
  Forall Q l -> filter Q l = l.
Proof.
  induction 1 as [|x l Hx Hl IH]; [done |].
  by rewrite filter_cons_True, IH.
Qed.

(** Taking the pass at position [i] out of a table without repeated names. *)
Lemma without_found (t : pass_table) (i : nat) (p : string * render_pass_data) :
  NoDup t.*1 -> t !! i = Some p ->
  t = take i t ++ p :: drop (S i) t /\
  without p.1 t = take i t ++ drop (S i) t.
Proof.
  intros Hnd Hp.
  pose proof (take_drop_middle t i p Hp) as Hsplit.
  split; [done |].
  remember (take i t) as l1 eqn:E1. remember (drop (S i) t) as l2 eqn:E2.
  clear E1 E2 Hp. subst t.
  rewrite fmap_app, fmap_cons in Hnd.
  apply NoDup_app in Hnd as (_ & Hleft & Hright).
  apply NoDup_cons in Hright as [Hright _].
  unfold without.
  rewrite filter_app, filter_cons_False by (intros H; by apply H).
  rewrite !filter_all; [done | |].
  - apply Forall_forall. intros q Hq Heq. apply Hright.
    rewrite <- Heq. apply list_elem_of_fmap. eauto.
  - apply Forall_forall. intros q Hq Heq. apply (Hleft q.1).
    + apply list_elem_of_fmap. eauto.
    + rewrite Heq. apply list_elem_of_here.
Qed.

Lemma without_NoDup (name : string) (t : pass_table) :
  NoDup t.*1 -> NoDup (without name t).*1.
Proof.
  intros Hnd. eapply sublist_NoDup; [exact Hnd |].
  apply fmap_sublist, sublist_filter.
Qed.

Lemma unique_by_name (t : pass_table) (name : string) (d1 d2 : render_pass_data) :
  NoDup t.*1 -> (name, d1) ∈ t -> (name, d2) ∈ t -> d1 = d2.
Proof.
  induction t as [|[k v] t IH]; intros Hnd H1 H2; [by apply elem_of_nil in H1 |].
  cbn in Hnd. apply NoDup_cons in Hnd as [Hk Hnd].
  assert (Hkey : forall d, (name, d) ∈ t -> name ∈ t.*1).
  { intros d Hd. apply list_elem_of_fmap. by exists (name, d). }
  apply elem_of_cons in H1 as [H1 | H1], H2 as [H2 | H2].
  - congruence.
  - inversion H1; subst. by apply Hkey in H2.
  - inversion H2; subst. by apply Hkey in H1.
  - by apply IH.
Qed.

(** What a successful run of the loop returns. *)
Lemma order_passes_loop_spec (steps : nat) :
  forall (remaining : pass_table) (order : list string),
    (length remaining <= steps)%nat ->
    NoDup remaining.*1 ->
    order_passes_loop steps remaining = Returns order ->
    order ≡ₚ remaining.*1 /\ places_first_ready remaining order.
Proof.
  induction steps as [|steps IH]; intros remaining order Hlen Hnd Hrun.
  - destruct remaining; [| cbn in Hlen; lia]. cbn in Hrun. inversion Hrun; subst.
    split; [done |]. intros placed name rest Hsplit. by destruct placed.
  - destruct remaining as [|r remaining'].
    { cbn in Hrun. inversion Hrun; subst.
      split; [done |]. intros placed name rest Hsplit. by destruct placed. }
    remember (r :: remaining') as remaining eqn:Hrem.
    assert (Hunfold : order_passes_loop (S steps) remaining =
              match list_find (ready remaining) remaining with
              | None => Throws (pass_ordering_exception (cycle_message remaining))
              | Some (_, p) =>
                  obind (order_passes_loop steps (without p.1 remaining))
                        (fun rest => Returns (p.1 :: rest))
              end).
    { by rewrite Hrem. }
    rewrite Hunfold in Hrun. clear Hunfold Hrem r remaining'.
    destruct (list_find (ready remaining) remaining) as [[i p]|] eqn:Hfind; [| done].
    apply list_find_Some in Hfind as (Hp & Hready & Hfirst).
    destruct (order_passes_loop steps (without p.1 remaining)) as [rest| |] eqn:Hrest;
      [| done | done].
    cbn in Hrun. inversion Hrun; subst order. clear Hrun.
    destruct (without_found remaining i p Hnd Hp) as [Hsplit Hwithout].
    assert (Hshorter : (length (without p.1 remaining) <= steps)%nat).
    { assert (length (without p.1 remaining) < length remaining)%nat; [| lia].
      eapply (length_filter_lt _ _ p).
      - eapply list_elem_of_lookup_2. exact Hp.
      - intros H. by apply H. }
    destruct (IH _ _ Hshorter (without_NoDup _ _ Hnd) Hrest) as [Hperm Hplaces].
    split.
    + rewrite Hperm, Hwithout.
      transitivity ((take i remaining ++ p :: drop (S i) remaining).*1);
        [| by rewrite <- Hsplit].
      rewrite !fmap_app, fmap_cons. by rewrite <- Permutation_middle.
    + intros placed name rest' Horder. destruct placed as [|first placed].
      * cbn in Horder. inversion Horder; subst name rest'.
        exists (take i remaining), p, (drop (S i) remaining).
        assert (Hall : still_to_place [] remaining = remaining).
        { unfold still_to_place. apply filter_all, Forall_forall.
          intros q _. apply not_elem_of_nil. }
        rewrite Hall, <- Hsplit. split; [done |]. split; [done |]. split; [done |].
        apply Forall_forall. intros q Hq.
        apply list_elem_of_lookup_1 in Hq as (j & Hj).
        apply (Hfirst j).
        -- rewrite lookup_take_Some in Hj. tauto.
        -- apply lookup_lt_Some in Hj. rewrite length_take in Hj. lia.
      * cbn in Horder. inversion Horder; subst first rest.
        destruct (Hplaces placed name rest' eq_refl)
          as (earlier & p' & later & Hstill & Hname & Hready' & Hearlier).
        exists earlier, p', later. split; [| done].
        rewrite <- Hstill. unfold still_to_place, without.
        rewrite list_filter_filter. apply list_filter_iff.
        intros q. rewrite not_elem_of_cons. tauto.
Qed.

(** A pass of least rank has no producer among the passes it is listed
    with. *)
Lemma least_rank_is_ready (rank : string -> nat) (t : pass_table) :
  (forall a b, a ∈ t -> b ∈ t -> depends_on a.2 b.2 -> (rank b.1 < rank a.1)%nat) ->
  t <> [] -> exists p, p ∈ t /\ ready t p.
Proof.
  intros Hrank Hne.
  assert (Hmin : exists p, p ∈ t /\ forall q, q ∈ t -> (rank p.1 <= rank q.1)%nat).
  { clear Hrank. induction t as [|x t IH]; [done |].
    destruct t as [|y t'].
    - exists x. split; [apply list_elem_of_here |].
      intros q Hq. apply list_elem_of_singleton in Hq as ->. lia.
    - destruct (IH ltac:(done)) as (p & Hp & Hleast).
      destruct (decide (rank x.1 <= rank p.1)%nat) as [Hle | Hgt].
      + exists x. split; [apply list_elem_of_here |].
        intros q Hq. apply elem_of_cons in Hq as [-> | Hq]; [lia |].
        specialize (Hleast q Hq). lia.
      + exists p. split; [by apply list_elem_of_further |].
        intros q Hq. apply elem_of_cons in Hq as [-> | Hq]; [lia |].
        by apply Hleast. }
  destruct Hmin as (p & Hp & Hleast). exists p. split; [done |].
  apply Forall_forall. intros q Hq Hdep.
  specialize (Hrank p q Hp Hq Hdep). specialize (Hleast q Hq). lia.
Qed.

(** On an acyclic graph the loop returns an order. *)
Lemma order_passes_loop_returns (rank : string -> nat) (steps : nat) :
  forall remaining : pass_table,
    (length remaining <= steps)%nat ->
    (forall a b, a ∈ remaining -> b ∈ remaining -> depends_on a.2 b.2 ->
                 (rank b.1 < rank a.1)%nat) ->
    exists order, order_passes_loop steps remaining = Returns order.
Proof.
  induction steps as [|steps IH]; intros remaining Hlen Hrank.
  - exists []. done.
  - destruct remaining as [|r remaining']; [by exists [] |].
    remember (r :: remaining') as remaining eqn:Hrem.
    assert (Hne : remaining <> []) by by rewrite Hrem.
    assert (Hunfold : order_passes_loop (S steps) remaining =
              match list_find (ready remaining) remaining with
              | None => Throws (pass_ordering_exception (cycle_message remaining))
              | Some (_, p) =>
                  obind (order_passes_loop steps (without p.1 remaining))
                        (fun rest => Returns (p.1 :: rest))
              end).
    { by rewrite Hrem. }
    rewrite Hunfold. clear Hunfold Hrem r remaining'.
    destruct (list_find (ready remaining) remaining) as [[i p]|] eqn:Hfind.
    + apply list_find_Some in Hfind as (Hp & _ & _).
      apply list_elem_of_lookup_2 in Hp.
      destruct (IH (without p.1 remaining)) as (rest & Hrest).
      * assert (length (without p.1 remaining) < length remaining)%nat; [| lia].
        eapply (length_filter_lt _ _ p); [done |]. intros H. by apply H.
      * intros a b Ha Hb. apply Hrank.
        -- by apply list_elem_of_filter in Ha as [_ Ha].
        -- by apply list_elem_of_filter in Hb as [_ Hb].
      * rewrite Hrest. cbn. eauto.
    + apply list_find_None in Hfind.
      destruct (least_rank_is_ready rank remaining Hrank Hne) as (p & Hp & Hready).
      rewrite Forall_forall in Hfind. by destruct (Hfind p Hp).
Qed.

(** The example table holds every name once. *)
Lemma table_assign_NoDup (name : string) (data : render_pass_data) (t : pass_table) :
  NoDup t.*1 -> NoDup (table_assign name data t).*1.
Proof.
  intros Hnd. unfold table_assign. case_decide as Hin.
  - assert (Hkeys : (table_replace name data t).*1 = t.*1); [| by rewrite Hkeys].
    clear. induction t as [|[k v] t IH]; cbn; [done |].
    case_decide; cbn; [done | by rewrite IH].
  - cbn. by apply NoDup_cons.
Qed.

(** The sort modelled from the spec, on a table that holds every name once
    and whose dependency graph has no cycle: it returns every name of the
    table once, each place taken by the first entry of the table that could
    take it, a pass that reads a texture after every pass of the table that
    produces it. *)
Lemma order_passes_sorts_topologically (t : pass_table) :
  NoDup t.*1 ->
  acyclic t ->
  exists order,
    FrameGraph.order_passes t = Returns order /\
    order ≡ₚ t.*1 /\
    places_first_ready t order /\
    (forall placed name rest consumer producer,
       order = placed ++ name :: rest ->
       consumer ∈ t -> consumer.1 = name ->
       producer ∈ t -> depends_on consumer.2 producer.2 ->
       producer.1 ∈ placed).
Proof.
  intros Hnd [rank Hrank].
  destruct (order_passes_loop_returns rank _ t (Nat.le_refl _) Hrank)
    as (order & Horder).
  destruct (order_passes_loop_spec _ _ order (Nat.le_refl _) Hnd Horder)
    as [Hperm Hplaces].
  exists order. split; [exact Horder |]. split; [done |]. split; [done |].
  intros placed name rest consumer producer Hsplit Hconsumer Hname Hproducer Hdep.
  destruct (Hplaces placed name rest Hsplit)
    as (earlier & p & later & Hstill & Hp & Hready & _).
  assert (Hp_in : p ∈ t).
  { assert (Hin : p ∈ still_to_place placed t).
    { rewrite Hstill. apply elem_of_app. right. apply list_elem_of_here. }
    by apply list_elem_of_filter in Hin as [_ Hin]. }
  assert (consumer = p) as ->.
  { destruct consumer as [n1 d1], p as [n2 d2]. cbn in *. subst.
    f_equal. by eapply unique_by_name. }
  destruct (decide (producer.1 ∈ placed)) as [|Hout]; [done |]. exfalso.
  assert (Hin : producer ∈ still_to_place placed t).
  { by apply list_elem_of_filter. }
  rewrite Hstill in Hin. unfold ready in Hready. rewrite Forall_forall in Hready.
  by apply (Hready producer Hin).
Qed.

End FrameGraphOrder.

Section FrameGraphCompilation.
Context `{P : Platform}.
Local Open Scope N_scope.








End FrameGraphCompilation.

(** ** The staging buffer pool *)

Section StagingPool.
Context `{P : Platform}.
Local Open Scope N_scope.

(** X1: the pool of staging buffers is a stack.  A buffer given back with
    [free_mesh_staging_buffer] is the one the next
    [get_or_allocate_mesh_staging_buffer] hands out, without any call to the
    driver: the engine is then exactly as it was before the buffer was given
    back. *)
Theorem staging_buffer_pool_is_a_stack (b : vk_buffer) (e : engine) :
  (do! free_mesh_staging_buffer b in get_or_allocate_mesh_staging_buffer) e
    = (Returns b, e).
Proof.
  destruct e as [d s m f t]. destruct m as [mm pool q n ms].
  unfold free_mesh_staging_buffer, get_or_allocate_mesh_staging_buffer,
    bind, modify, gets, with_mesh, set_mesh_staging_buffers.
  cbn. rewrite last_snoc. cbn. by rewrite removelast_last.
Qed.

(** X2: with the pool empty, [get_or_allocate_mesh_staging_buffer] asks the
    driver for one buffer of [buffer_part_size] bytes.  If the driver answers
    with success the new buffer is returned, mapped over that many bytes, and
    the pool stays empty; on any other answer a rendering exception is thrown
    and no memory is mapped. *)
Theorem staging_buffer_is_created_when_pool_is_empty (e : engine) :
  mesh_staging_buffers (mesh e) = [] ->
  let h := next_handle (driver e) in
  let new_buffer := {| buffer := h; pMappedData := h |} in
  let part_size := buffer_part_size (mesh_manager (mesh e)) in
  exists e',
    vk_log (driver e') = vk_log (driver e) ++ [vmaCreateBuffer part_size new_buffer] /\
    mesh e' = mesh e /\
    match vk_result (length (vk_log (driver e))) with
    | VK_SUCCESS =>
        get_or_allocate_mesh_staging_buffer e = (Returns new_buffer, e') /\
        length <$> mapped_memory (driver e') !! h = Some (N.to_nat part_size)
    | _ =>
        (exists msg, get_or_allocate_mesh_staging_buffer e
           = (Throws (render_engine_rendering_exception msg), e')) /\
        mapped_memory (driver e') = mapped_memory (driver e)
    end.
Proof.
  intros Hpool h new_buffer part_size.
  unfold get_or_allocate_mesh_staging_buffer.
  erewrite bind_returns by reflexivity. rewrite Hpool. cbn [last].
  do 3 (erewrite bind_returns by reflexivity).
  destruct (vk_result (length (vk_log (driver e)))) eqn:Hr.
  - eexists. split; [| split]; [| | split].
    3:{ cbn [driver with_driver vk_log set_vk_log set_next_handle].
        rewrite Hr. cbn. reflexivity. }
    + reflexivity.
    + reflexivity.
    + cbn. rewrite lookup_insert_eq. cbn. by rewrite length_replicate.
  - eexists. split; [| split]; [| | split].
    3:{ cbn [driver with_driver vk_log set_vk_log set_next_handle].
        rewrite Hr. cbn. eexists. reflexivity. }
    all: reflexivity.
  - eexists. split; [| split]; [| | split].
    3:{ cbn [driver with_driver vk_log set_vk_log set_next_handle].
        rewrite Hr. cbn. eexists. reflexivity. }
    all: reflexivity.
  - eexists. split; [| split]; [| | split].
    3:{ cbn [driver with_driver vk_log set_vk_log set_next_handle].
        rewrite Hr. cbn. eexists. reflexivity. }
    all: reflexivity.
Qed.

End StagingPool.

(** ** The life of a mesh *)

Section MeshLifecycle.
Context `{P : Platform}.
Local Open Scope N_scope.

Hint Resolve tables_mesh_manager_allocate_mesh tables_the_buffer_part_size
  tables_stage_mesh_parts tables_WaitForCounter tables_call tables_fresh_handle
  tables_memcpy : preserves.

Lemma tables_after {A} (m : M A) (e : engine) r e' :
  preserves mesh_tables m -> m e = (r, e') -> mesh_tables e' = mesh_tables e.
Proof. intros Hm Heq. specialize (Hm e). by rewrite Heq in Hm. Qed.

(** X3: [delete_mesh] on a known id removes exactly that entry and gives
    exactly its allocation back to the allocator, without a driver call and
    without looking at the upload queue; on an unknown id it throws
    [std::out_of_range] and changes nothing. *)
Theorem delete_mesh_removes_entry_and_frees_its_memory (mesh_id : N) (e : engine) :
  match meshes (mesh e) !! mesh_id with
  | Some m =>
      exists e',
        delete_mesh mesh_id e = (Returns tt, e') /\
        meshes (mesh e') = delete mesh_id (meshes (mesh e)) /\
        allocator_state e' = free (allocator_state e) (memory m) /\
        mesh_upload_queue (mesh e') = mesh_upload_queue (mesh e) /\
        mesh_staging_buffers (mesh e') = mesh_staging_buffers (mesh e) /\
        next_mesh_id (mesh e') = next_mesh_id (mesh e) /\
        driver e' = driver e
  | None => delete_mesh mesh_id e = (Throws (out_of_range "_Map_base::at"), e)
  end.
Proof.
  unfold delete_mesh. erewrite bind_returns by reflexivity.
  unfold map_at. destruct (meshes (mesh e) !! mesh_id) as [m|] eqn:Hm.
  - eexists. split; [reflexivity |]. cbn. done.
  - reflexivity.
Qed.

(** What a returning [add_mesh] has done. *)
Lemma add_mesh_returns_inv (input_mesh : mesh_data) (e : engine) mesh_id e' :
  add_mesh input_mesh e = (Returns mesh_id, e') ->
  mesh_id = next_mesh_id (mesh e) /\
  exists allocation staging,
    (allocate_mesh (allocator_state e) (vertex_bytes input_mesh)).1 = Returns allocation /\
    meshes (mesh e') =
      <[mesh_id := {| memory := allocation; mesh_input := input_mesh |}]> (meshes (mesh e)) /\
    mesh_upload_queue (mesh e') =
      mesh_upload_queue (mesh e) ++ [{| staging_buffers := staging; mem := allocation |}] /\
    length staging = length (parts allocation) /\
    next_mesh_id (mesh e') = UInt.wrap32 (mesh_id + 1).
Proof.
  unfold add_mesh. cbv zeta. intros Hrun.
  apply bind_returns_inv in Hrun as (allocation & e1 & Halloc & Hrun).
  apply bind_returns_inv in Hrun as (part_size & e2 & Hsize & Hrun).
  apply bind_returns_inv in Hrun as (quotient & e3 & Hquot & Hrun).
  apply bind_returns_inv in Hrun as (staged & e4 & Hstaged & Hrun).
  apply bind_returns_inv in Hrun as ([] & e5 & Hwait & Hrun).
  inversion Hrun; subst. clear Hrun.
  apply stage_mesh_parts_returns in Hstaged as Hlen. destruct Hlen as (Hlen & _).
  assert (Htables : mesh_tables e5 = mesh_tables e).
  { rewrite (tables_after _ _ _ _ (tables_WaitForCounter _ _) Hwait).
    rewrite (tables_after _ _ _ _ (tables_stage_mesh_parts _ _ _ _) Hstaged).
    rewrite (tables_after _ _ _ _ (preserves_lift _ _) Hquot).
    rewrite (tables_after _ _ _ _ tables_the_buffer_part_size Hsize).
    apply (tables_after _ _ _ _ (tables_mesh_manager_allocate_mesh _) Halloc). }
  unfold mesh_tables in Htables. inversion Htables as [[Hq Hn Hm]].
  cbn. rewrite Hq, Hn, Hm. split; [done |].
  exists allocation, staged.1. split; [| done].
  unfold mesh_manager_allocate_mesh in Halloc. unfold allocator_state, vertex_bytes.
  destruct (allocate_mesh _ _) as [o blocks']. by inversion Halloc.
Qed.

(** X4: when [add_mesh] returns, the id it returns is the value of the id
    counter, the counter has advanced by one (modulo 2^32), the mesh is found
    under that id with the allocation the allocator gave for the byte size of
    the vertices, and the upload queue has grown by one command for that
    allocation, with one staging buffer per part. *)
Theorem add_mesh_records_mesh_and_queues_upload
    (input_mesh : mesh_data) (e : engine) mesh_id e' :
  add_mesh input_mesh e = (Returns mesh_id, e') ->
  mesh_id = next_mesh_id (mesh e) /\
  next_mesh_id (mesh e') = UInt.wrap32 (mesh_id + 1) /\
  exists allocation staging,
    (allocate_mesh (allocator_state e) (vertex_bytes input_mesh)).1 = Returns allocation /\
    meshes (mesh e') !! mesh_id
      = Some {| memory := allocation; mesh_input := input_mesh |} /\
    (forall other, other <> mesh_id ->
       meshes (mesh e') !! other = meshes (mesh e) !! other) /\
    mesh_upload_queue (mesh e') =
      mesh_upload_queue (mesh e) ++ [{| staging_buffers := staging; mem := allocation |}] /\
    length staging = length (parts allocation).
Proof.
  intros Hrun.
  destruct (add_mesh_returns_inv _ _ _ _ Hrun)
    as (Hid & allocation & staging & Halloc & Hmeshes & Hqueue & Hlen & Hnext).
  split; [done |]. split; [done |]. exists allocation, staging.
  split; [done |]. rewrite Hmeshes. split; [by rewrite lookup_insert_eq |].
  split; [| done]. intros other Hother. by rewrite lookup_insert_ne.
Qed.

(** X5: deleting a mesh right after it was added does not take its upload
    out of the queue.  [delete_mesh] returns, the mesh entries are those from
    before the mesh was added (less a mesh that was known under the same id),
    and the allocation has gone back to the allocator, but the command that
    copies into this allocation is still the last one of the upload queue. *)
Theorem deleting_a_mesh_leaves_its_upload_queued
    (input_mesh : mesh_data) (e : engine) mesh_id e1 :
  add_mesh input_mesh e = (Returns mesh_id, e1) ->
  exists e2 cmd,
    delete_mesh mesh_id e1 = (Returns tt, e2) /\
    meshes (mesh e2) = delete mesh_id (meshes (mesh e)) /\
    mesh_upload_queue (mesh e2) = mesh_upload_queue (mesh e) ++ [cmd] /\
    allocator_state e2 = free (allocator_state e1) (mem cmd).
Proof.
  intros Hrun.
  destruct (add_mesh_returns_inv _ _ _ _ Hrun)
    as (Hid & allocation & staging & Halloc & Hmeshes & Hqueue & Hlen & Hnext).
  unfold delete_mesh. erewrite bind_returns by reflexivity.
  unfold map_at. rewrite Hmeshes, lookup_insert_eq.
  eexists. exists {| staging_buffers := staging; mem := allocation |}.
  split; [reflexivity |]. cbn. rewrite Hmeshes, Hqueue.
  split; [apply delete_insert_eq | done].
Qed.

Lemma fails_quietly_bind {A B} (m : M A) (k : A -> M B) :
  preserves mesh_tables m -> (forall a, fails_quietly (k a)) ->
  fails_quietly (bind m k).
Proof.
  intros Hm Hk e. unfold bind.
  pose proof (Hm e) as He. destruct (m e) as [[a|x|] e1]; cbn in He |- *.
  - specialize (Hk a e1). destruct (k a e1).1; [done | congruence | congruence].
  - done.
  - done.
Qed.

Lemma allocator_state_stage_mesh_parts m n count :
  forall i, preserves allocator_state (stage_mesh_parts m n count i).
Proof.
  induction count; intros i; cbn [stage_mesh_parts];
    unfold get_or_allocate_mesh_staging_buffer, the_buffer_part_size;
    preserves_steps; solve [by intros ?].
Qed.

Lemma allocator_state_run_staging_copy_task m t :
  preserves allocator_state (run_staging_copy_task m t).
Proof.
  intros e. unfold run_staging_copy_task, memcpy. by repeat case_match.
Qed.

Lemma add_mesh_fails_quietly (input_mesh : mesh_data) :
  fails_quietly (add_mesh input_mesh).
Proof.
  unfold add_mesh. cbv zeta.
  do 5 (apply fails_quietly_bind; [solve [preserves_steps] | intros ?]).
  intros e. reflexivity.
Qed.

(** X6: a call of [add_mesh] that does not return leaves the upload queue,
    the id counter and the mesh entries as they were.  And however the call
    ends, the allocator is left as the one call of [allocate_mesh] left it:
    when staging fails after the allocation was made, the allocation is not
    given back. *)
Theorem failed_add_mesh_keeps_tables_and_allocation (input_mesh : mesh_data) :
  fails_quietly (add_mesh input_mesh) /\
  forall e,
    allocator_state (add_mesh input_mesh e).2
      = (allocate_mesh (allocator_state e) (vertex_bytes input_mesh)).2.
Proof.
  split; [apply add_mesh_fails_quietly |].
  intros e. unfold add_mesh. cbv zeta. rewrite bind_state.
    assert (Halloc : allocator_state (mesh_manager_allocate_mesh (vertex_bytes input_mesh) e).2
                     = (allocate_mesh (allocator_state e) (vertex_bytes input_mesh)).2).
    { unfold mesh_manager_allocate_mesh, allocator_state.
      by destruct (allocate_mesh _ _). }
    fold (vertex_bytes input_mesh).
    destruct (mesh_manager_allocate_mesh (vertex_bytes input_mesh) e).1 as [allocation|x|];
      [| done | done].
    rewrite <- Halloc.
    generalize ((mesh_manager_allocate_mesh (vertex_bytes input_mesh) e).2).
    change (preserves allocator_state
      (let! part_size := the_buffer_part_size in
       let! quotient := lift (defined (UInt.udiv part_size sizeof_full_vertex)) in
       let! staged := stage_mesh_parts input_mesh (UInt.wrap32 quotient)
                        (length (parts allocation)) 0 in
       do! WaitForCounter input_mesh staged.2 in
       do! modify (with_mesh (fun s =>
             set_mesh_upload_queue
               (mesh_upload_queue s ++
                  [{| staging_buffers := staged.1; mem := allocation |}]) s)) in
       let! mesh_id := gets (fun e => next_mesh_id (mesh e)) in
       do! modify (with_mesh (set_next_mesh_id (UInt.wrap32 (mesh_id + 1)))) in
       do! modify (with_mesh (fun s =>
             set_meshes
               (<[mesh_id := {| memory := allocation; mesh_input := input_mesh |}]>
                  (meshes s)) s)) in
       ret mesh_id)).
    unfold the_buffer_part_size.
    preserves_steps;
      auto using allocator_state_stage_mesh_parts, allocator_state_run_staging_copy_task.
Qed.

End MeshLifecycle.

(** ** The upload queue across calls *)

Section UploadQueue.
Context `{P : Platform}.
Local Open Scope N_scope.

Hint Resolve tables_call tables_fresh_handle tables_record_part_copies
  tables_the_buffer_part_size tables_mesh_manager_free : preserves.


(** What the draining loop leaves in the queue, however it ends: a tail of
    the queue it was started on. *)
Lemma drain_mesh_upload_queue_leaves_tail (part_size : N) :
  forall (pending : list staging_buffer_upload_command) (e : engine),
    mesh_upload_queue (mesh e) = pending ->
    exists k,
      mesh_upload_queue (mesh (drain_mesh_upload_queue part_size pending e).2)
        = drop k pending.
Proof.
  induction pending as [|cmd pending IH]; intros e Hq.
  - exists 0%nat. done.
  - cbn [drain_mesh_upload_queue].
    erewrite bind_returns by reflexivity.
    set (e1 := with_mesh (set_mesh_upload_queue pending) e).
    rewrite bind_state.
    pose proof (queue_of_tables _
      (tables_record_part_copies cmd part_size (length (staging_buffers cmd)) 0) e1)
      as Hcopies.
    cbn beta in Hcopies.
    destruct (record_part_copies cmd part_size _ 0 e1) as [[copies|x|] e2];
      cbn [fst snd] in *.
    + destruct (IH e2) as [k Hk]; [by rewrite Hcopies |].
      exists (S k). rewrite bind_state.
      destruct (drain_mesh_upload_queue part_size pending e2) as [[rest|x|] e3];
        cbn [fst snd] in *; exact Hk.
    + exists 1%nat. rewrite Hcopies. cbn. by rewrite drop_0.
    + exists 1%nat. rewrite Hcopies. cbn. by rewrite drop_0.
Qed.

(** Getting the command pool of the thread leaves the meshes alone. *)
Lemma mesh_get_command_buffer_pool (queue_index : N) :
  preserves (fun e => mesh e)
    (ThreadLocal.get_command_buffer_pool_for_current_thread queue_index).
Proof.
  assert (Hloop : forall l pools,
            preserves (fun e => mesh e) (ThreadLocal.create_command_pools l pools)).
  { induction l as [|x l IH]; intros pools; cbn [ThreadLocal.create_command_pools];
      preserves_steps; apply IH. }
  unfold ThreadLocal.get_command_buffer_pool_for_current_thread,
    ThreadLocal.command_pools_of_current_thread, ThreadLocal.make_new_command_pools.
  preserves_steps; apply Hloop.
Qed.

Lemma run_task_leaves_tail (t : task) (e : engine) :
  exists k,
    mesh_upload_queue (mesh (run_task t e).2) = drop k (mesh_upload_queue (mesh e)).
Proof.
  destruct t as [|[buffers|]]; cbn [run_task].
  - unfold run_upload_new_mesh_parts_task.
    erewrite bind_returns by reflexivity.
    rewrite bind_state.
    pose proof (mesh_get_command_buffer_pool (copy_queue_index (device e)) e) as Hpool.
    cbn beta in Hpool.
    destruct (ThreadLocal.get_command_buffer_pool_for_current_thread _ e)
      as [[pool|x|] e0]; cbn [fst snd] in *;
      [| exists 0%nat; by rewrite Hpool | exists 0%nat; by rewrite Hpool].
    rewrite <- Hpool.
    do 4 (erewrite bind_returns by reflexivity).
    rewrite bind_state.
    match goal with
    | |- context [drain_mesh_upload_queue ?n ?q ?e1] =>
        destruct (drain_mesh_upload_queue_leaves_tail n q e1 eq_refl) as [k Hk];
        destruct (drain_mesh_upload_queue n q e1) as [[drained|x|] e2]
    end; cbn [fst snd] in *; exists k; exact Hk.
  - exists 0%nat. reflexivity.
  - exists 0%nat. reflexivity.
Qed.

Lemma queue_delete_mesh mesh_id :
  preserves (fun e => mesh_upload_queue (mesh e)) (delete_mesh mesh_id).
Proof. unfold delete_mesh, mesh_manager_free. preserves_steps. Qed.

Lemma run_call_keeps_one_staging_buffer_per_part (c : api_call) (e : engine) :
  one_staging_buffer_per_part e -> one_staging_buffer_per_part (run_call c e).2.
Proof.
  unfold one_staging_buffer_per_part. intros Hinv.
  destruct c as [input_mesh|mesh_id| |data|]; cbn [run_call snd].
  - pose proof (add_mesh_fails_quietly input_mesh e) as Hquiet.
    pose proof (add_mesh_returns_inv input_mesh e) as Hret.
    destruct (add_mesh input_mesh e) as [[mesh_id|x|] e1]; cbn [fst snd] in *.
    + destruct (Hret _ _ eq_refl) as (_ & allocation & staging & _ & _ & -> & Hlen & _).
      apply Forall_app. split; [done |]. by constructor.
    + unfold mesh_tables in Hquiet. inversion Hquiet as [[Hq Hn Hm]]. by rewrite Hq.
    + unfold mesh_tables in Hquiet. inversion Hquiet as [[Hq Hn Hm]]. by rewrite Hq.
  - by rewrite queue_delete_mesh.
  - by rewrite (queue_of_tables _ tables_render_frame e).
  - by rewrite (queue_of_tables _ (tables_set_shaderpack data) e).
  - unfold run_next_task. destruct (scheduled e) as [|t ts]; [done |].
    destruct (run_task_leaves_tail t (with_scheduled (fun _ => ts) e)) as [k ->].
    by apply Forall_drop.
Qed.

(** X8: an invariant of the upload queue.  If every queued command has one
    staging buffer per part of its allocation, this is still so after any
    history of [add_mesh], [delete_mesh], [render_frame], [set_shaderpack]
    and scheduler steps, whether the calls return or throw. *)
Theorem upload_queue_keeps_one_staging_buffer_per_part
    (history : list api_call) (e e' : engine) :
  one_staging_buffer_per_part e ->
  after history e = Some e' ->
  one_staging_buffer_per_part e'.
Proof.
  revert e. induction history as [|c history IH]; intros e Hinv Hafter.
  - cbn in Hafter. by inversion Hafter; subst.
  - cbn [after] in Hafter.
    pose proof (run_call_keeps_one_staging_buffer_per_part c e Hinv) as Hstep.
    destruct (run_call c e) as [[[]|x|] e1]; cbn [snd] in Hstep;
      [by apply (IH e1) | by apply (IH e1) | done].
Qed.

End UploadQueue.

(** ** Frames that are rendered *)

Section FramesRendered.
Context `{P : Platform}.
Local Open Scope N_scope.

Lemma acquire_next_image_delivers (semaphore : handle) (e : engine) :
  vk_result (length (vk_log (driver e))) = VK_SUCCESS ->
  acquire_next_image semaphore e =
    (Returns VK_SUCCESS,
     with_frame (set_current_swapchain_index (vk_image_index (length (vk_log (driver e)))))
       (with_driver (fun d => set_vk_log (vk_log d ++ [vkAcquireNextImageKHR semaphore]) d) e)).
Proof. intros Hr. unfold acquire_next_image, call. by rewrite Hr. Qed.

Lemma acquire_next_image_fails (semaphore : handle) (e : engine) (code : N) :
  vk_result (length (vk_log (driver e))) = VK_ERROR code ->
  acquire_next_image semaphore e =
    (Returns (VK_ERROR code),
     with_driver (fun d => set_vk_log (vk_log d ++ [vkAcquireNextImageKHR semaphore]) d) e).
Proof. intros Hr. unfold acquire_next_image, call. by rewrite Hr. Qed.

(** A frame that goes through. *)
Lemma render_frame_returns (e : engine) (fence available finished commands : handle) :
  let slot := current_frame (frame e) in
  let n := length (vk_log (driver e)) in
  submit_fences (frame e) !! N.to_nat slot = Some fence ->
  image_available_semaphores (frame e) !! N.to_nat slot = Some available ->
  render_finished_semaphores (frame e) !! N.to_nat slot = Some finished ->
  vk_result (S n) = VK_SUCCESS ->
  command_buffers (frame e) !! N.to_nat (vk_image_index (S n)) = Some commands ->
  vk_result (n + 3) = VK_SUCCESS ->
  0 < MAX_FRAMES_IN_QUEUE ->
  render_frame e =
    (Returns tt,
     with_frame (set_current_frame (UInt.wrap32 (slot + 1) mod MAX_FRAMES_IN_QUEUE))
       (with_driver (fun d => set_vk_log
          (vk_log (driver e) ++
             [vkWaitForFences fence; vkAcquireNextImageKHR available;
              vkResetFences fence;
              vkQueueSubmit graphics_queue (prerecorded commands)
                (Some available) (Some finished) (Some fence);
              vkQueuePresentKHR finished (vk_image_index (S n))]) d)
          (with_scheduled (fun l => l ++ [upload_new_mesh_parts_task])
             (with_frame (set_current_swapchain_index (vk_image_index (S n))) e)))).
Proof.
  destruct e as [[log next mapped logged] s m f t].
  cbn [driver frame vk_log].
  intros Hfence Havailable Hfinished Hacquire Hcommands Hsubmit Hmax.
  unfold render_frame.
  do 4 (erewrite bind_returns by reflexivity).
  erewrite bind_returns by (apply at_returns; exact Hfence).
  erewrite bind_returns by reflexivity.
  erewrite bind_returns by (apply at_returns; exact Havailable).
  erewrite bind_returns.
  2:{ apply acquire_next_image_delivers. cbn [driver with_driver vk_log set_vk_log].
      rewrite length_app, Nat.add_comm. exact Hacquire. }
  cbn [driver frame with_driver with_frame vk_log set_vk_log next_handle mapped_memory
       nova_log shaderpack mesh scheduled].
  rewrite bool_decide_eq_false_2 by (intros [?|?]; discriminate).
  rewrite bool_decide_eq_false_2 by (intros Hne; by apply Hne).
  erewrite bind_returns by (apply at_returns; exact Hfence).
  erewrite bind_returns by reflexivity.
  unfold upload_new_mesh_parts.
  erewrite bind_returns by reflexivity.
  erewrite bind_returns by (apply at_returns; exact Havailable).
  do 2 (erewrite bind_returns by reflexivity).
  cbn [driver frame with_driver with_frame with_scheduled vk_log set_vk_log next_handle
       mapped_memory nova_log shaderpack mesh scheduled
       current_swapchain_index set_current_swapchain_index command_buffers].
  rewrite length_app, Nat.add_comm. cbn [length Nat.add].
  erewrite bind_returns by (apply at_returns; exact Hcommands).
  erewrite bind_returns by (apply at_returns; exact Hfinished).
  erewrite bind_returns by (apply at_returns; exact Hfence).
  erewrite bind_returns by reflexivity.
  cbn [driver frame with_driver with_frame with_scheduled vk_log set_vk_log next_handle
       mapped_memory nova_log shaderpack mesh scheduled].
  rewrite !length_app. cbn [length].
  replace (length log + 1 + 1 + 1)%nat with (length log + 3)%nat by lia.
  rewrite Hsubmit.
  erewrite bind_returns by reflexivity.
  erewrite bind_returns by (apply at_returns; exact Hfinished).
  erewrite bind_returns by reflexivity.
  rewrite umod_pos by done.
  erewrite bind_returns by reflexivity.
  unfold modify.
  cbv [with_driver with_frame with_scheduled set_vk_log set_current_frame
       set_current_swapchain_index driver shaderpack mesh frame scheduled
       vk_log next_handle mapped_memory nova_log].
  rewrite <- !app_assoc. reflexivity.
Qed.

(** X9: a frame that goes through.  When the slot has its fence and
    semaphores, the acquire delivers an image that has a command buffer, and
    the submit succeeds, [render_frame] returns after exactly five driver
    calls -- wait for the slot's fence, acquire, reset the fence, submit the
    image's command buffer (waiting for the slot's image-available semaphore,
    signalling its render-finished semaphore and the fence), present --, has
    handed the upload step to the scheduler, and has moved on to the next
    slot modulo [MAX_FRAMES_IN_QUEUE]. *)
Theorem render_frame_submits_presents_and_advances
    (e : engine) (fence available finished commands : handle) :
  let slot := current_frame (frame e) in
  let n := length (vk_log (driver e)) in
  submit_fences (frame e) !! N.to_nat slot = Some fence ->
  image_available_semaphores (frame e) !! N.to_nat slot = Some available ->
  render_finished_semaphores (frame e) !! N.to_nat slot = Some finished ->
  vk_result (S n) = VK_SUCCESS ->
  command_buffers (frame e) !! N.to_nat (vk_image_index (S n)) = Some commands ->
  vk_result (n + 3) = VK_SUCCESS ->
  0 < MAX_FRAMES_IN_QUEUE ->
  exists e',
    render_frame e = (Returns tt, e') /\
    vk_log (driver e') =
      vk_log (driver e) ++
        [vkWaitForFences fence; vkAcquireNextImageKHR available;
         vkResetFences fence;
         vkQueueSubmit graphics_queue (prerecorded commands)
           (Some available) (Some finished) (Some fence);
         vkQueuePresentKHR finished (vk_image_index (S n))] /\
    scheduled e' = scheduled e ++ [upload_new_mesh_parts_task] /\
    current_frame (frame e') = UInt.wrap32 (slot + 1) mod MAX_FRAMES_IN_QUEUE /\
    current_swapchain_index (frame e') = vk_image_index (S n) /\
    mesh e' = mesh e /\
    shaderpack e' = shaderpack e.
Proof.
  intros slot n Hfence Havailable Hfinished Hacquire Hcommands Hsubmit Hmax.
  eexists. split.
  - by apply (render_frame_returns e fence available finished commands).
  - cbn. done.
Qed.

Lemma frame_ready_lookups (e : engine) :
  frame_ready e ->
  exists fence available finished,
    submit_fences (frame e) !! N.to_nat (current_frame (frame e)) = Some fence /\
    image_available_semaphores (frame e) !! N.to_nat (current_frame (frame e))
      = Some available /\
    render_finished_semaphores (frame e) !! N.to_nat (current_frame (frame e))
      = Some finished.
Proof.
  intros [Hslot Hfences Havailable Hfinished _].
  destruct (lookup_lt_is_Some_2 (submit_fences (frame e))
              (N.to_nat (current_frame (frame e)))) as [fence Hf]; [lia |].
  destruct (lookup_lt_is_Some_2 (image_available_semaphores (frame e))
              (N.to_nat (current_frame (frame e)))) as [available Ha]; [lia |].
  destruct (lookup_lt_is_Some_2 (render_finished_semaphores (frame e))
              (N.to_nat (current_frame (frame e)))) as [finished Hr]; [lia |].
  eauto 10.
Qed.

Lemma render_frame_when_ready (e : engine) :
  frame_ready e -> (forall n, vk_result n = VK_SUCCESS) ->
  MAX_FRAMES_IN_QUEUE < 2 ^ 32 ->
  (render_frame e).1 = Returns tt /\
  frame_ready (render_frame e).2 /\
  current_frame (frame (render_frame e).2)
    = (current_frame (frame e) + 1) mod MAX_FRAMES_IN_QUEUE /\
  scheduled (render_frame e).2 = scheduled e ++ [upload_new_mesh_parts_task].
Proof.
  intros Hready Hdriver Hmax.
  destruct (frame_ready_lookups e Hready) as (fence & available & finished & Hf & Ha & Hr).
  destruct Hready as [Hslot Hfences Havailable Hfinished Himages].
  destruct (lookup_lt_is_Some_2 (command_buffers (frame e))
              (N.to_nat (vk_image_index (S (length (vk_log (driver e)))))))
    as [commands Hc]; [apply Himages |].
  rewrite (render_frame_returns e fence available finished commands) by (auto; lia).
  rewrite wrap32_small by lia. cbn [fst snd].
  split; [done |]. split; [| split; reflexivity].
  split; cbn; try done. apply N.mod_lt. lia.
Qed.

(** X10: the frame slots are gone through in a cycle.  With a driver that
    never fails, [MAX_FRAMES_IN_QUEUE] fences and semaphores, and a command
    buffer for every image the driver can deliver, every call of
    [render_frame] returns; after [k] calls the slot is the initial one plus
    [k] modulo [MAX_FRAMES_IN_QUEUE], so that it is back where it started
    after [MAX_FRAMES_IN_QUEUE] calls, and [k] upload steps have been handed
    to the scheduler. *)
Theorem frame_slots_cycle (e : engine) :
  frame_ready e -> (forall n, vk_result n = VK_SUCCESS) ->
  MAX_FRAMES_IN_QUEUE < 2 ^ 32 ->
  (forall k,
     (render_frame (frames k e)).1 = Returns tt /\
     current_frame (frame (frames k e))
       = (current_frame (frame e) + N.of_nat k) mod MAX_FRAMES_IN_QUEUE /\
     scheduled (frames k e) = scheduled e ++ replicate k upload_new_mesh_parts_task) /\
  current_frame (frame (frames (N.to_nat MAX_FRAMES_IN_QUEUE) e)) = current_frame (frame e).
Proof.
  intros Hready Hdriver Hmax.
  assert (Hall : forall k,
    frame_ready (frames k e) /\
    current_frame (frame (frames k e))
      = (current_frame (frame e) + N.of_nat k) mod MAX_FRAMES_IN_QUEUE /\
    scheduled (frames k e) = scheduled e ++ replicate k upload_new_mesh_parts_task).
  { induction k as [|k (IHready & IHslot & IHscheduled)].
    - cbn. split; [done |]. split.
      + rewrite N.add_0_r, N.mod_small; [done | apply Hready].
      + by rewrite app_nil_r.
    - change (frames (S k) e) with ((render_frame (frames k e)).2).
      destruct (render_frame_when_ready (frames k e) IHready Hdriver Hmax)
        as (_ & Hready' & Hslot' & Hscheduled').
      split; [done |]. split.
      + rewrite Hslot', IHslot, N.Div0.add_mod_idemp_l. f_equal. lia.
      + rewrite Hscheduled', IHscheduled, <- app_assoc. f_equal.
        change [upload_new_mesh_parts_task] with (replicate 1 upload_new_mesh_parts_task).
        rewrite <- replicate_add. f_equal. lia. }
  split.
  - intros k. destruct (Hall k) as (Hk & Hslot & Hscheduled).
    split; [| done]. by apply render_frame_when_ready.
  - destruct (Hall (N.to_nat MAX_FRAMES_IN_QUEUE)) as (_ & -> & _).
    rewrite N2Nat.id.
    destruct Hready as [Hslot _ _ _ _].
    rewrite <- (N.mul_1_l MAX_FRAMES_IN_QUEUE) at 1.
    rewrite N.Div0.mod_add. by apply N.mod_small.
Qed.

(** X11: an acquire that fails.  When [vkAcquireNextImageKHR] answers with
    an error other than an out-of-date surface, [render_frame] throws a
    rendering exception after the wait and the acquire: the fence is not
    reset, nothing is submitted or presented, the upload step is not
    scheduled, and the frame state is as before. *)
Theorem render_frame_throws_when_acquire_fails
    (e : engine) (fence available : handle) (code : N) :
  submit_fences (frame e) !! N.to_nat (current_frame (frame e)) = Some fence ->
  image_available_semaphores (frame e) !! N.to_nat (current_frame (frame e))
    = Some available ->
  vk_result (S (length (vk_log (driver e)))) = VK_ERROR code ->
  exists msg e',
    render_frame e = (Throws (render_engine_rendering_exception msg), e') /\
    vk_log (driver e') =
      vk_log (driver e) ++ [vkWaitForFences fence; vkAcquireNextImageKHR available] /\
    scheduled e' = scheduled e /\
    frame e' = frame e /\
    mesh e' = mesh e.
Proof.
  intros Hfence Havailable Hacquire.
  unfold render_frame.
  do 4 (erewrite bind_returns by reflexivity).
  erewrite bind_returns by (apply at_returns; exact Hfence).
  erewrite bind_returns by reflexivity.
  erewrite bind_returns by (apply at_returns; exact Havailable).
  erewrite bind_returns.
  2:{ apply (acquire_next_image_fails _ _ code).
      cbn [driver with_driver vk_log set_vk_log].
      rewrite length_app, Nat.add_comm. exact Hacquire. }
  rewrite bool_decide_eq_false_2 by (intros [?|?]; discriminate).
  rewrite bool_decide_eq_true_2 by discriminate.
  eexists. eexists. split; [reflexivity |].
  cbn. rewrite <- app_assoc. done.
Qed.

(** X12: a submit that fails.  When the acquire delivers an image but
    [vkQueueSubmit] does not answer with success, [render_frame] throws a
    rendering exception after four driver calls: the slot's fence has been
    reset and the upload step scheduled, nothing is presented, and the slot
    is not advanced, so that the next [render_frame] waits for the fence
    that was reset. *)
Theorem render_frame_throws_when_submit_fails
    (e : engine) (fence available finished commands : handle) :
  let slot := current_frame (frame e) in
  let n := length (vk_log (driver e)) in
  submit_fences (frame e) !! N.to_nat slot = Some fence ->
  image_available_semaphores (frame e) !! N.to_nat slot = Some available ->
  render_finished_semaphores (frame e) !! N.to_nat slot = Some finished ->
  vk_result (S n) = VK_SUCCESS ->
  command_buffers (frame e) !! N.to_nat (vk_image_index (S n)) = Some commands ->
  vk_result (n + 3) <> VK_SUCCESS ->
  exists msg e',
    render_frame e = (Throws (render_engine_rendering_exception msg), e') /\
    vk_log (driver e') =
      vk_log (driver e) ++
        [vkWaitForFences fence; vkAcquireNextImageKHR available;
         vkResetFences fence;
         vkQueueSubmit graphics_queue (prerecorded commands)
           (Some available) (Some finished) (Some fence)] /\
    scheduled e' = scheduled e ++ [upload_new_mesh_parts_task] /\
    current_frame (frame e') = slot /\
    submit_fences (frame e') !! N.to_nat (current_frame (frame e')) = Some fence.
Proof.
  intros slot n Hfence Havailable Hfinished Hacquire Hcommands Hsubmit.
  unfold render_frame.
  do 4 (erewrite bind_returns by reflexivity).
  erewrite bind_returns by (apply at_returns; exact Hfence).
  erewrite bind_returns by reflexivity.
  erewrite bind_returns by (apply at_returns; exact Havailable).
  erewrite bind_returns.
  2:{ apply acquire_next_image_delivers. cbn [driver with_driver vk_log set_vk_log].
      rewrite length_app, Nat.add_comm. exact Hacquire. }
  rewrite bool_decide_eq_false_2 by (intros [?|?]; discriminate).
  rewrite bool_decide_eq_false_2 by (intros Hne; by apply Hne).
  erewrite bind_returns by (apply at_returns; exact Hfence).
  erewrite bind_returns by reflexivity.
  unfold upload_new_mesh_parts.
  erewrite bind_returns by reflexivity.
  erewrite bind_returns by (apply at_returns; exact Havailable).
  do 2 (erewrite bind_returns by reflexivity).
  erewrite bind_returns.
  2:{ apply at_returns.
      cbn [driver frame with_driver with_frame with_scheduled vk_log set_vk_log
           current_swapchain_index set_current_swapchain_index command_buffers].
      rewrite length_app, Nat.add_comm. exact Hcommands. }
  erewrite bind_returns by (apply at_returns; exact Hfinished).
  erewrite bind_returns by (apply at_returns; exact Hfence).
  erewrite bind_returns by reflexivity.
  cbn [driver with_driver with_frame with_scheduled vk_log set_vk_log].
  rewrite !length_app. cbn [length].
  replace (length (vk_log (driver e)) + 1 + 1 + 1)%nat with (n + 3)%nat by (unfold n; lia).
  destruct (vk_result (n + 3)) eqn:Hr; [done |..];
    (eexists; eexists; split; [reflexivity |]; cbn;
     rewrite <- !app_assoc; done).
Qed.

End FramesRendered.

(** ** What compiling a shaderpack leaves alone *)

Section DriverOnly.
Context `{P : Platform} {X : Type} (f : engine -> X).
Hypothesis f_ignores_driver : forall g e, f (with_driver g e) = f e.

Lemma ignored_call c : preserves f (call c).
Proof. intros e. apply f_ignores_driver. Qed.

Lemma ignored_fresh_handle : preserves f fresh_handle.
Proof. intros e. apply f_ignores_driver. Qed.

Lemma ignored_NOVA_LOG_ERROR msg : preserves f (NOVA_LOG_ERROR msg).
Proof. intros e. apply f_ignores_driver. Qed.

Hint Resolve ignored_call ignored_fresh_handle ignored_NOVA_LOG_ERROR : preserves.

Lemma ignored_to_vk_attachment_info l : preserves f (to_vk_attachment_info l).
Proof. induction l; cbn [to_vk_attachment_info]; preserves_steps. Qed.

Lemma ignored_create_shader_module spirv : preserves f (create_shader_module spirv).
Proof. unfold create_shader_module. preserves_steps. Qed.

Lemma ignored_add_resources_to_bindings l :
  forall b, preserves f (add_resources_to_bindings b l).
Proof.
  induction l; intros b; cbn [add_resources_to_bindings];
    unfold add_resource_to_bindings; preserves_steps.
Qed.

Hint Resolve ignored_create_shader_module ignored_add_resources_to_bindings : preserves.

Lemma ignored_get_shader_module_descriptors spirv b :
  preserves f (get_shader_module_descriptors spirv b).
Proof. unfold get_shader_module_descriptors. preserves_steps. Qed.

Lemma ignored_dsl_create_infos m count :
  forall i, preserves f (dsl_create_infos m count i).
Proof. induction count; intros i; cbn [dsl_create_infos]; preserves_steps. Qed.

Lemma ignored_create_layouts l : preserves f (create_layouts l).
Proof. induction l; cbn [create_layouts]; preserves_steps. Qed.

Hint Resolve ignored_get_shader_module_descriptors ignored_dsl_create_infos
  ignored_create_layouts : preserves.

Lemma ignored_compile_optional_stage stage shader acc :
  preserves f (compile_optional_stage stage shader acc).
Proof. unfold compile_optional_stage. preserves_steps. Qed.

Hint Resolve ignored_compile_optional_stage : preserves.

Lemma ignored_compile_stages data : preserves f (compile_stages data).
Proof. unfold compile_stages. preserves_steps. Qed.

Lemma ignored_create_descriptor_set_layouts b :
  preserves f (create_descriptor_set_layouts b).
Proof. unfold create_descriptor_set_layouts. preserves_steps. Qed.

End DriverOnly.

Section Invariance.
Context `{P : Platform}.

Lemma keeps_bind (I : engine -> Prop) {A B} (m : M A) (k : A -> M B) :
  keeps I m -> (forall a, keeps I (k a)) -> keeps I (bind m k).
Proof.
  intros Hm Hk e He. rewrite bind_state. specialize (Hm e He).
  destruct (m e).1; [by apply Hk | done | done].
Qed.

Lemma keeps_preserves {X} (f : engine -> X) (Q : X -> Prop) {A} (m : M A) :
  preserves f m -> keeps (fun e => Q (f e)) m.
Proof. intros Hm e He. by rewrite Hm. Qed.

Lemma keeps_for_each (I : engine -> Prop) {A} (l : list A) (body : A -> M unit) :
  (forall x, keeps I (body x)) -> keeps I (for_each l body).
Proof.
  intros Hbody. induction l as [|x l IH]; cbn [for_each].
  - by intros e.
  - apply keeps_bind; [apply Hbody | intros _; apply IH].
Qed.

End Invariance.

Section Compilation.
Context `{P : Platform}.
Local Open Scope N_scope.

Hint Resolve ignored_call ignored_fresh_handle ignored_NOVA_LOG_ERROR
  ignored_to_vk_attachment_info ignored_create_shader_module
  ignored_add_resources_to_bindings ignored_get_shader_module_descriptors
  ignored_compile_optional_stage ignored_compile_stages
  ignored_dsl_create_infos ignored_create_layouts
  ignored_create_descriptor_set_layouts : preserves.
Hint Extern 0 (forall _ _, _ (with_driver _ _) = _) => (intros; reflexivity) : preserves.

(** X13: [to_vk_attachment_info] is all or nothing.  If every attachment
    name is the name of a dynamic texture, it returns one format per name, in
    the order of the names, each the Vulkan format of the texture of that
    name; if some name is not, it throws [std::out_of_range].  Either way
    the engine is left untouched. *)
Theorem to_vk_attachment_info_needs_every_texture
    (attachment_names : list string) (e : engine) :
  let textures := dynamic_textures (shaderpack e) in
  (Forall (fun name => is_Some (textures !! name)) attachment_names ->
   exists formats,
     to_vk_attachment_info attachment_names e = (Returns formats, e) /\
     Forall2 (fun name format =>
                exists tex, textures !! name = Some tex /\
                  format = to_vk_format (pixel_format (texture_data tex)))
             attachment_names formats) /\
  (Exists (fun name => textures !! name = None) attachment_names ->
   exists msg, to_vk_attachment_info attachment_names e = (Throws (out_of_range msg), e)).
Proof.
  intros textures. split.
  - induction 1 as [|name names [tex Htex] _ (formats & Hrun & Hformats)].
    + exists []. split; [reflexivity | constructor].
    + exists (to_vk_format (pixel_format (texture_data tex)) :: formats).
      split; [| constructor; eauto].
      cbn [to_vk_attachment_info].
      erewrite bind_returns by reflexivity.
      unfold map_at. fold textures. rewrite Htex.
      erewrite bind_returns by reflexivity.
      erewrite bind_returns by exact Hrun. reflexivity.
  - induction attachment_names as [|name names IH]; intros Hmissing.
    + by apply Exists_nil in Hmissing.
    + cbn [to_vk_attachment_info].
      erewrite bind_returns by reflexivity.
      unfold map_at. fold textures.
      destruct (textures !! name) as [tex|] eqn:Htex; [| by eexists].
      apply Exists_cons in Hmissing as [Hhere | Hlater]; [congruence |].
      destruct (IH Hlater) as [msg Hrun].
      erewrite bind_returns by reflexivity.
      erewrite bind_throws by exact Hrun. by eexists.
Qed.

Lemma create_textures_returns
    (texture_datas : list texture_resource_data) (e : engine) :
  exists e',
    create_textures texture_datas e = (Returns tt, e') /\
    length (vk_log (driver e')) =
      (length (vk_log (driver e)) + 2 * length texture_datas)%nat /\
    (forall name, name ∈ texture_name <$> texture_datas ->
       exists tex, dynamic_textures (shaderpack e') !! name = Some tex /\
         texture_name (texture_data tex) = name /\
         texture_data tex ∈ texture_datas) /\
    (forall name, name ∉ texture_name <$> texture_datas ->
       dynamic_textures (shaderpack e') !! name = dynamic_textures (shaderpack e) !! name).
Proof.
  unfold create_textures. revert e.
  induction texture_datas as [|data datas IH]; intros e.
  - exists e. split; [reflexivity |]. split; [cbn; lia |].
    split; [| done]. intros name Hin. by apply elem_of_nil in Hin.
  - cbn [for_each].
    erewrite bind_returns by reflexivity.
    match goal with |- context [for_each datas ?body ?e1] =>
      destruct (IH e1) as (e' & Hrun & Hlog & Hdeclared & Hothers)
    end.
    exists e'. split; [exact Hrun |]. split; [| split].
    + rewrite Hlog. cbn. rewrite !length_app. cbn. lia.
    + intros name Hin.
      destruct (decide (name ∈ texture_name <$> datas)) as [Hlater | Hnot].
      * destruct (Hdeclared name Hlater) as (tex & Htex & Hname & Hdata).
        exists tex. split; [done |]. split; [done |]. by apply list_elem_of_further.
      * rewrite fmap_cons in Hin. apply elem_of_cons in Hin as [-> | Hin]; [| done].
        eexists. split; [| split].
        -- rewrite (Hothers _ Hnot). cbn. apply lookup_insert_eq.
        -- reflexivity.
        -- apply list_elem_of_here.
    + intros name Hnot. rewrite fmap_cons in Hnot.
      apply not_elem_of_cons in Hnot as [Hne Hnot].
      rewrite (Hothers _ Hnot). cbn. by rewrite lookup_insert_ne.
Qed.

(** X14: [create_textures] does not look at what the driver answers.  It
    always returns, after two driver calls per declared texture; afterwards
    every declared name has a texture, made from a declaration of that name,
    and the textures of all other names are as before. *)
Theorem create_textures_always_returns
    (texture_datas : list texture_resource_data) (e : engine) :
  exists e',
    create_textures texture_datas e = (Returns tt, e') /\
    length (vk_log (driver e')) =
      (length (vk_log (driver e)) + 2 * length texture_datas)%nat /\
    (forall name, name ∈ texture_name <$> texture_datas ->
       exists tex, dynamic_textures (shaderpack e') !! name = Some tex /\
         texture_name (texture_data tex) = name /\
         texture_data tex ∈ texture_datas) /\
    (forall name, name ∉ texture_name <$> texture_datas ->
       dynamic_textures (shaderpack e') !! name = dynamic_textures (shaderpack e) !! name).
Proof. apply create_textures_returns. Qed.

Lemma loaded_bind {A B} (m : M A) (k : A -> M B) :
  preserves (fun e => shaderpack_loaded (shaderpack e)) m ->
  (forall a e,
     shaderpack_loaded (shaderpack (k a e).2) =
       match (k a e).1 with
       | Returns _ => true
       | _ => shaderpack_loaded (shaderpack e)
       end) ->
  forall e,
    shaderpack_loaded (shaderpack (bind m k e).2) =
      match (bind m k e).1 with
      | Returns _ => true
      | _ => shaderpack_loaded (shaderpack e)
      end.
Proof.
  intros Hm Hk e. unfold bind. specialize (Hm e). cbn beta in Hm.
  destruct (m e) as [[a|x|] e1]; cbn [fst snd] in *.
  - rewrite Hk, Hm. done.
  - done.
  - done.
Qed.

Lemma loaded_after_set_shaderpack (data : shaderpack_data) (e : engine) :
  shaderpack_loaded (shaderpack (set_shaderpack data e).2) =
    match (set_shaderpack data e).1 with
    | Returns _ => true
    | _ => shaderpack_loaded (shaderpack e)
    end.
Proof.
  revert e. unfold set_shaderpack.
  apply loaded_bind; [solve [preserves_steps] | intros loaded].
  apply loaded_bind.
  { unfold destroy_render_passes, destroy_graphics_pipelines, destroy_dynamic_textures.
    preserves_steps. }
  intros _. apply loaded_bind; [unfold create_textures; preserves_steps | intros _].
  apply loaded_bind; [preserves_steps | intros _].
  apply loaded_bind.
  { unfold create_render_passes, assign_pass_data, create_render_pass. preserves_steps. }
  intros _. apply loaded_bind.
  { unfold create_graphics_pipelines, create_graphics_pipeline. preserves_steps.
    apply preserves_modify. intros e. cbn. by case_match. }
  intros _ e. reflexivity.
Qed.

(** X15: the engine counts a shaderpack as loaded exactly from the first
    [set_shaderpack] that returns.  A call that returns sets
    [shaderpack_loaded]; a call that does not return leaves the flag as it
    was, also when it had already destroyed the objects of the pack that was
    loaded. *)
Theorem shaderpack_is_loaded_when_set_shaderpack_returns
    (data : shaderpack_data) (e : engine) :
  shaderpack_loaded (shaderpack (set_shaderpack data e).2) =
    match (set_shaderpack data e).1 with
    | Returns _ => true
    | _ => shaderpack_loaded (shaderpack e)
    end.
Proof. apply loaded_after_set_shaderpack. Qed.

Lemma create_graphics_pipeline_keeps_pipeline
    (name : string) (p : vk_pipeline) (data : pipeline_data) :
  keeps (fun e => pipelines (shaderpack e) !! name = Some p)
        (create_graphics_pipeline data).
Proof.
  unfold create_graphics_pipeline.
  repeat (apply keeps_bind;
          [apply (keeps_preserves (fun e => pipelines (shaderpack e))
                    (fun m => m !! name = Some p));
           solve [preserves_steps] | intros ?]).
  intros e He. cbn.
  destruct (pipelines (shaderpack e) !! pipeline_name data) eqn:Hknown; [done |].
  cbn. rewrite lookup_insert_ne; [done |]. congruence.
Qed.

(** X16: a pipeline that is stored is never replaced.
    [create_graphics_pipelines] keeps every pipeline the engine already holds
    under its name, also when the list declares a pipeline of the same name:
    of two pipelines of one name the one compiled first is the one that
    stays. *)
Theorem create_graphics_pipelines_keeps_stored_pipelines
    (name : string) (p : vk_pipeline) (datas : list pipeline_data) (e : engine) :
  pipelines (shaderpack e) !! name = Some p ->
  pipelines (shaderpack (create_graphics_pipelines datas e).2) !! name = Some p.
Proof.
  apply (keeps_for_each (fun e => pipelines (shaderpack e) !! name = Some p)).
  intros data. apply create_graphics_pipeline_keeps_pipeline.
Qed.

End Compilation.

(** ** Choosing the surface format, the present mode and the extent *)

Section SwapchainChoices.
Import Startup.
Local Open Scope N_scope.

Lemma first_preferred_format_spec (available : list VkSurfaceFormatKHR) :
  match first_preferred_format available with
  | Some f => f = preferred_format /\ f ∈ available
  | None => preferred_format ∉ available
  end.
Proof.
  induction available as [|f rest IH]; cbn [first_preferred_format].
  - apply not_elem_of_nil.
  - destruct (N.eqb_spec (format f) VK_FORMAT_B8G8R8_UNORM) as [Hf|Hf]; cbn [andb].
    + destruct (N.eqb_spec (colorSpace f) VK_COLOR_SPACE_SRGB_NONLINEAR_KHR) as [Hc|Hc].
      * split; [| apply list_elem_of_here].
        destruct f; cbn in *; subst; reflexivity.
      * destruct (first_preferred_format rest) as [g|].
        -- destruct IH. split; [done | by apply list_elem_of_further].
        -- apply not_elem_of_cons. split; [| done]. intros <-. by apply Hc.
    + destruct (first_preferred_format rest) as [g|].
      * destruct IH. split; [done | by apply list_elem_of_further].
      * apply not_elem_of_cons. split; [| done]. intros <-. by apply Hf.
Qed.

Lemma choose_swapchain_format_nonempty (first : VkSurfaceFormatKHR)
    (others : list VkSurfaceFormatKHR) :
  exists f, choose_swapchain_format (first :: others) = Returns f.
Proof.
  unfold choose_swapchain_format. cbn [lookup list_lookup].
  destruct (_ && _); [by eexists |].
  destruct (first_preferred_format _); by eexists.
Qed.

(** X17: [choose_swapchain_format] throws [std::out_of_range] on an empty
    list.  On any other list it returns; what it returns is B8G8R8_UNORM with
    the sRGB colour space whenever that format is reported, and also when the
    only format reported is the undefined one; in all other cases it is the
    first format of the list. *)
Theorem choose_swapchain_format_prefers_bgr8_srgb (available : list VkSurfaceFormatKHR) :
  match available with
  | [] => exists msg, choose_swapchain_format available = Throws (out_of_range msg)
  | first :: others =>
      exists f,
        choose_swapchain_format available = Returns f /\
        (preferred_format ∈ available -> f = preferred_format) /\
        (others = [] -> format first = VK_FORMAT_UNDEFINED -> f = preferred_format) /\
        (preferred_format ∉ available ->
         ~ (others = [] /\ format first = VK_FORMAT_UNDEFINED) -> f = first)
  end.
Proof.
  destruct available as [|first others]; [by eexists |].
  unfold choose_swapchain_format.
  pose proof (first_preferred_format_spec (first :: others)) as Hloop.
  cbn [lookup list_lookup length].
  destruct (Nat.eqb_spec (length others + 1) 1) as [Hone|Hmore];
    replace (S (length others)) with (length others + 1)%nat by lia.
  - assert (others = []) as -> by (destruct others; [done | cbn in Hone; lia]).
    cbn [length Nat.add Nat.eqb andb].
    destruct (N.eqb_spec (format first) VK_FORMAT_UNDEFINED) as [Hundef|Hdef].
    + exists preferred_format. split; [done |]. split; [done |]. split; [done |].
      intros _ Hnot. destruct Hnot. done.
    + destruct (first_preferred_format [first]) as [g|].
      * destruct Hloop as [-> Hin]. exists preferred_format.
        split; [done |]. split; [done |]. split; [done |]. intros Hnot. done.
      * exists first. split; [done |]. split; [done |]. split; [done |]. done.
  - destruct (Nat.eqb_spec (length others + 1) 1) as [|_]; [done |]. cbn [andb].
    assert (others <> []) by (intros ->; cbn in Hmore; lia).
    destruct (first_preferred_format (first :: others)) as [g|].
    + destruct Hloop as [-> Hin]. exists preferred_format.
      split; [done |]. split; [done |]. split; [done |]. intros Hnot. done.
    + exists first. split; [done |]. split; [done |]. split; [done |]. done.
Qed.

(** X18: [choose_present_mode] gives the mailbox mode exactly when the
    driver reports it, and the FIFO mode otherwise, whether or not the FIFO
    mode is reported. *)
Theorem choose_present_mode_is_mailbox_or_fifo (available : list VkPresentModeKHR) :
  choose_present_mode available =
    if decide (VK_PRESENT_MODE_MAILBOX_KHR ∈ available)
    then VK_PRESENT_MODE_MAILBOX_KHR
    else VK_PRESENT_MODE_FIFO_KHR.
Proof.
  induction available as [|mode rest IH]; cbn [choose_present_mode].
  - destruct (decide _) as [Hin|]; [by apply elem_of_nil in Hin | done].
  - destruct (decide (mode = VK_PRESENT_MODE_MAILBOX_KHR)) as [->|Hne].
    + rewrite decide_True; [done | apply list_elem_of_here].
    + rewrite IH. destruct (decide (_ ∈ rest)) as [Hin|Hnot].
      * rewrite decide_True; [done | by apply list_elem_of_further].
      * rewrite decide_False; [done |].
        apply not_elem_of_cons. split; [congruence | done].
Qed.

Lemma erase_each (required : gset string) (available : list string) :
  foldl (fun (required : gset string) extensionName => required ∖ {[extensionName]})
        required available
  = required ∖ list_to_set available.
Proof.
  revert required. induction available as [|name rest IH]; intros required; cbn.
  - by rewrite difference_empty_L.
  - by rewrite IH, difference_difference_l_L.
Qed.

(** X19: [does_device_support_extensions] holds exactly when the swapchain
    extension is among the extensions the driver enumerates for the
    device. *)
Theorem device_supports_extensions_iff_swapchain_enumerated (available : list string) :
  does_device_support_extensions available = true <->
  VK_KHR_SWAPCHAIN_EXTENSION_NAME ∈ available.
Proof.
  unfold does_device_support_extensions. rewrite erase_each, bool_decide_eq_true.
  split.
  - intros Hempty.
    destruct (decide (VK_KHR_SWAPCHAIN_EXTENSION_NAME ∈ available)) as [|Hnot]; [done |].
    assert (VK_KHR_SWAPCHAIN_EXTENSION_NAME
              ∈ ({[VK_KHR_SWAPCHAIN_EXTENSION_NAME]} ∖ list_to_set available : gset string))
      as Hin.
    { apply elem_of_difference. split; [by apply elem_of_singleton |].
      by rewrite elem_of_list_to_set. }
    rewrite Hempty in Hin. by apply not_elem_of_empty in Hin.
  - intros Hin. apply leibniz_equiv, elem_of_equiv_empty. intros name Hname.
    apply elem_of_difference in Hname as [Hrequired Hnot].
    apply elem_of_singleton in Hrequired as ->.
    apply Hnot. by rewrite elem_of_list_to_set.
Qed.

(** The conditions under which [create_swapchain] gets through. *)
Lemma create_swapchain_outcome (window_size : VkExtent2D) (reports : surface_reports) :
  match create_swapchain window_size reports with
  | Returns s =>
      format_count_result reports = VK_SUCCESS /\ formats reports <> [] /\
      present_mode_count_result reports = VK_SUCCESS /\ present_modes reports <> [] /\
      present_modes_result reports = VK_SUCCESS /\
      capabilities_result reports = VK_SUCCESS /\
      create_swapchain_result reports = VK_SUCCESS /\
      exists surface_format,
        choose_swapchain_format (formats reports) = Returns surface_format /\
        let capabilities := capabilities reports in
        let image_count := N.max (minImageCount capabilities) 3 in
        let extent :=
          {| width := N.min (N.max (width window_size)
                                   (width (minImageExtent capabilities)))
                            (width (maxImageExtent capabilities));
             height := N.min (N.max (height window_size)
                                    (height (minImageExtent capabilities)))
                             (height (maxImageExtent capabilities)) |} in
        s = {| swapchain_create_info :=
                 {| info_minImageCount :=
                      if N.ltb 0 (maxImageCount capabilities)
                         && N.ltb (maxImageCount capabilities) image_count
                      then maxImageCount capabilities else image_count;
                    imageFormat := format surface_format;
                    imageColorSpace := colorSpace surface_format;
                    imageExtent := extent;
                    preTransform := currentTransform capabilities;
                    presentMode := choose_present_mode (present_modes reports) |};
               swapchain_images := images reports;
               swapchain_format := format surface_format;
               swapchain_extent := extent |}
  | Throws (render_engine_initialization_exception _) =>
      ~ (format_count_result reports = VK_SUCCESS /\ formats reports <> [] /\
         present_mode_count_result reports = VK_SUCCESS /\ present_modes reports <> [] /\
         present_modes_result reports = VK_SUCCESS /\
         capabilities_result reports = VK_SUCCESS /\
         create_swapchain_result reports = VK_SUCCESS)
  | _ => False
  end.
Proof.
  unfold create_swapchain, throw_if_vk_error.
  destruct (format_count_result reports); cbn [obind];
    try solve [intros (?&?&?&?&?&?&?); congruence].
  destruct (formats reports) as [|first others] eqn:Hformats; cbn [length Nat.eqb];
    [intros (?&?&?&?&?&?&?); congruence |].
  destruct (present_mode_count_result reports); cbn [obind];
    try solve [intros (?&?&?&?&?&?&?); congruence].
  destruct (present_modes reports) as [|mode modes] eqn:Hmodes; cbn [length Nat.eqb];
    [intros (?&?&?&?&?&?&?); congruence |].
  destruct (present_modes_result reports); cbn [obind];
    try solve [intros (?&?&?&?&?&?&?); congruence].
  pose proof (choose_swapchain_format_nonempty first others) as [surface_format Hchoice].
  rewrite Hchoice. cbn [obind].
  destruct (capabilities_result reports); cbn [obind];
    try solve [intros (?&?&?&?&?&?&?); congruence].
  destruct (create_swapchain_result reports); cbn [obind];
    try solve [intros (?&?&?&?&?&?&?); congruence].
  repeat (split; [done |]). exists surface_format. split; [done |]. reflexivity.
Qed.

(** X20: [create_swapchain] returns exactly when the four checked queries
    and the creation succeed and the driver reports at least one surface
    format and one present mode; in every other case it throws a
    [render_engine_initialization_exception].  The [std::out_of_range] of
    [choose_swapchain_format] does not get out of it. *)
Theorem create_swapchain_needs_formats_and_present_modes
    (window_size : VkExtent2D) (reports : surface_reports) :
  let answered :=
    format_count_result reports = VK_SUCCESS /\ formats reports <> [] /\
    present_mode_count_result reports = VK_SUCCESS /\ present_modes reports <> [] /\
    present_modes_result reports = VK_SUCCESS /\
    capabilities_result reports = VK_SUCCESS /\
    create_swapchain_result reports = VK_SUCCESS in
  match create_swapchain window_size reports with
  | Returns _ => answered
  | Throws (render_engine_initialization_exception _) => ~ answered
  | _ => False
  end.
Proof.
  pose proof (create_swapchain_outcome window_size reports) as Houtcome.
  destruct (create_swapchain window_size reports) as [s|[]|]; cbn; tauto.
Qed.

(** X21: the swapchain [create_swapchain] asks for stays within what the
    surface can do.  The number of images is the larger of the surface's
    minimum and three, capped at the surface's maximum when it has one; the
    extent is never larger than the surface's maximum, is at least its
    minimum when the minimum is not above the maximum, and is the size of the
    window when that lies in between. *)
Theorem create_swapchain_respects_surface_limits
    (window_size : VkExtent2D) (reports : surface_reports) (s : swapchain_members) :
  create_swapchain window_size reports = Returns s ->
  let limits := capabilities reports in
  let info := swapchain_create_info s in
  (maxImageCount limits = 0 \/ info_minImageCount info <= maxImageCount limits) /\
  (maxImageCount limits = 0 \/ 3 <= maxImageCount limits -> 3 <= info_minImageCount info) /\
  (maxImageCount limits = 0 \/ minImageCount limits <= maxImageCount limits ->
   minImageCount limits <= info_minImageCount info) /\
  width (imageExtent info) <= width (maxImageExtent limits) /\
  height (imageExtent info) <= height (maxImageExtent limits) /\
  (width (minImageExtent limits) <= width (maxImageExtent limits) ->
   width (minImageExtent limits) <= width (imageExtent info)) /\
  (height (minImageExtent limits) <= height (maxImageExtent limits) ->
   height (minImageExtent limits) <= height (imageExtent info)) /\
  (width (minImageExtent limits) <= width window_size <= width (maxImageExtent limits) ->
   width (imageExtent info) = width window_size) /\
  (height (minImageExtent limits) <= height window_size <= height (maxImageExtent limits) ->
   height (imageExtent info) = height window_size) /\
  swapchain_extent s = imageExtent info.
Proof.
  intros Hrun limits info.
  pose proof (create_swapchain_outcome window_size reports) as Houtcome.
  rewrite Hrun in Houtcome.
  destruct Houtcome as (_ & _ & _ & _ & _ & _ & _ & surface_format & _ & Hs).
  cbv zeta in Hs. subst s. subst info limits. cbn.
  destruct (N.ltb_spec 0 (maxImageCount (capabilities reports)));
    destruct (N.ltb_spec (maxImageCount (capabilities reports))
                (N.max (minImageCount (capabilities reports)) 3));
    cbn [andb]; repeat split; lia.
Qed.

End SwapchainChoices.

(** ** Choosing the device *)

Section DeviceChoice.
Import Startup.
Local Open Scope N_scope.

Lemma no_family_is_no_index (i : N) : i + 1 < 2 ^ 32 -> N.eqb i no_family = false.
Proof. intros Hi. apply N.eqb_neq. unfold no_family. lia. Qed.

(** The graphics family the scan of the queue families ends with. *)
Lemma scan_queue_families_graphics (families : list queue_family_report) :
  forall (queue_idx : N) (idx idx' : family_indices),
    queue_idx + N.of_nat (length families) + 1 <= 2 ^ 32 ->
    scan_queue_families families queue_idx idx = Returns idx' ->
    graphics_family_idx idx' =
      if N.eqb (graphics_family_idx idx) no_family
      then match list_find (fun f => presentable_graphics_family f = true) families with
           | Some (j, _) => queue_idx + N.of_nat j
           | None => no_family
           end
      else graphics_family_idx idx.
Proof.
  induction families as [|current rest IH]; intros queue_idx idx idx' Hbound Hscan.
  - cbn in Hscan. inversion Hscan; subst. cbn. by destruct (N.eqb _ _) eqn:E; [apply N.eqb_eq in E |].
  - cbn [scan_queue_families] in Hscan. cbn [length] in Hbound.
    rewrite wrap32_small in Hscan by lia.
    cbn [list_find].
    destruct (N.ltb (queueCount (family_properties current)) 1) eqn:Hqueues.
    + assert (Hhere : presentable_graphics_family current = false)
        by (unfold presentable_graphics_family; by rewrite Hqueues).
      rewrite decide_False by congruence.
      rewrite (IH (queue_idx + 1) _ _ ltac:(lia) Hscan).
      destruct (N.eqb _ _); [| done].
      destruct (list_find _ rest) as [[j f]|]; cbn; [lia | done].
    + unfold throw_if_vk_error in Hscan.
      destruct (surface_support_result current); cbn [obind] in Hscan; try done.
      rewrite (IH (queue_idx + 1) _ _ ltac:(lia) Hscan). cbn [graphics_family_idx].
      destruct (N.eqb (graphics_family_idx idx) no_family) eqn:Hunset.
      * rewrite andb_true_r.
        destruct (has_flag _ VK_QUEUE_GRAPHICS_BIT && supports_present current) eqn:Hflags.
        -- assert (Hhere : presentable_graphics_family current = true)
             by (unfold presentable_graphics_family; by rewrite Hqueues).
           rewrite decide_True by done. rewrite no_family_is_no_index by lia. cbn. lia.
        -- assert (Hhere : presentable_graphics_family current = false)
             by (unfold presentable_graphics_family; by rewrite Hqueues).
           rewrite decide_False by congruence. rewrite Hunset.
           destruct (list_find _ rest) as [[j f]|]; cbn; [lia | done].
      * rewrite andb_false_r. by rewrite Hunset.
Qed.

(** The compute family the scan ends with, and what the scan does not
    touch. *)
Lemma scan_queue_families_compute (families : list queue_family_report) :
  forall (queue_idx : N) (idx idx' : family_indices),
    queue_idx + N.of_nat (length families) + 1 <= 2 ^ 32 ->
    scan_queue_families families queue_idx idx = Returns idx' ->
    compute_family_idx idx' =
      if N.eqb (compute_family_idx idx) no_family
      then match list_find (fun f => compute_family f = true) families with
           | Some (j, _) => queue_idx + N.of_nat j
           | None => no_family
           end
      else compute_family_idx idx.
Proof.
  induction families as [|current rest IH]; intros queue_idx idx idx' Hbound Hscan.
  - cbn in Hscan. inversion Hscan; subst. cbn. by destruct (N.eqb _ _) eqn:E; [apply N.eqb_eq in E |].
  - cbn [scan_queue_families] in Hscan. cbn [length] in Hbound.
    rewrite wrap32_small in Hscan by lia.
    cbn [list_find].
    destruct (N.ltb (queueCount (family_properties current)) 1) eqn:Hqueues.
    + assert (Hhere : compute_family current = false)
        by (unfold compute_family; by rewrite Hqueues).
      rewrite decide_False by congruence.
      rewrite (IH (queue_idx + 1) _ _ ltac:(lia) Hscan).
      destruct (N.eqb _ _); [| done].
      destruct (list_find _ rest) as [[j f]|]; cbn; [lia | done].
    + unfold throw_if_vk_error in Hscan.
      destruct (surface_support_result current); cbn [obind] in Hscan; try done.
      rewrite (IH (queue_idx + 1) _ _ ltac:(lia) Hscan). cbn [compute_family_idx].
      destruct (N.eqb (compute_family_idx idx) no_family) eqn:Hunset.
      * rewrite andb_true_r.
        destruct (has_flag _ VK_QUEUE_COMPUTE_BIT) eqn:Hflags.
        -- assert (Hhere : compute_family current = true)
             by (unfold compute_family; by rewrite Hqueues).
           rewrite decide_True by done. rewrite no_family_is_no_index by lia. cbn. lia.
        -- assert (Hhere : compute_family current = false)
             by (unfold compute_family; by rewrite Hqueues).
           rewrite decide_False by congruence. rewrite Hunset.
           destruct (list_find _ rest) as [[j f]|]; cbn; [lia | done].
      * rewrite andb_false_r. by rewrite Hunset.
Qed.

Lemma scan_queue_families_outcome (families : list queue_family_report) :
  forall (queue_idx : N) (idx : family_indices),
    match scan_queue_families families queue_idx idx with
    | Returns _ | Throws (render_engine_initialization_exception _) => True
    | _ => False
    end.
Proof.
  induction families as [|current rest IH]; intros queue_idx idx; [done |].
  cbn [scan_queue_families].
  destruct (N.ltb _ 1); [apply IH |].
  unfold throw_if_vk_error.
  destruct (surface_support_result current); cbn [obind]; [apply IH | done..].
Qed.

Lemma suitable_families (device_count device_idx : N) (d : physical_device_report) :
  passed_over_as_intel device_count device_idx d = false ->
  does_device_support_extensions (extension_names d) = true ->
  suitable device_count device_idx d =
    match list_find (fun f => presentable_graphics_family f = true) (queue_families d) with
    | Some _ => true
    | None => false
    end.
Proof.
  intros Hintel Hext. unfold suitable. rewrite Hintel, Hext. cbn [negb andb].
  destruct (list_find _ _) as [[j f]|] eqn:Hfind.
  - apply list_find_Some in Hfind as (Hj & Hf & _).
    apply bool_decide_eq_true, Exists_exists. exists f.
    split; [by eapply list_elem_of_lookup_2 | done].
  - apply list_find_None in Hfind.
    apply bool_decide_eq_false. intros Hex. apply Exists_exists in Hex as (f & Hin & Hf).
    rewrite Forall_forall in Hfind. by apply (Hfind f).
Qed.

(** Where the loop over the devices stops. *)
Lemma choose_device_spec (devices : list physical_device_report) :
  forall (device_idx device_count : N) (idx : family_indices),
    device_idx + N.of_nat (length devices) + 1 <= 2 ^ 32 ->
    Forall (fun d => N.of_nat (length (queue_families d)) + 1 < 2 ^ 32) devices ->
    match choose_device devices device_idx device_count idx with
    | Returns (Some chosen, idx') =>
        exists k d j family,
          chosen = device_idx + N.of_nat k /\
          devices !! k = Some d /\
          suitable device_count chosen d = true /\
          (forall k' d', (k' < k)%nat -> devices !! k' = Some d' ->
             suitable device_count (device_idx + N.of_nat k') d' = false) /\
          list_find (fun f => presentable_graphics_family f = true) (queue_families d)
            = Some (j, family) /\
          graphics_family_idx idx' = N.of_nat j
    | Returns (None, _) =>
        forall k d, devices !! k = Some d ->
          suitable device_count (device_idx + N.of_nat k) d = false
    | Throws (render_engine_initialization_exception _) => True
    | _ => False
    end.
Proof.
  induction devices as [|current rest IH]; intros device_idx device_count idx Hbound Hfamilies.
  { cbn. intros k d Hk. by rewrite lookup_nil in Hk. }
  cbn [choose_device]. cbn [length] in Hbound.
  apply Forall_cons in Hfamilies as [Hcurrent Hrest].
  rewrite wrap32_small by lia.
  assert (Hskip : forall idx1,
    suitable device_count device_idx current = false ->
    match choose_device rest (device_idx + 1) device_count idx1 with
    | Returns (Some chosen, idx') =>
        exists k d j family,
          chosen = device_idx + N.of_nat k /\
          (current :: rest) !! k = Some d /\
          suitable device_count chosen d = true /\
          (forall k' d', (k' < k)%nat -> (current :: rest) !! k' = Some d' ->
             suitable device_count (device_idx + N.of_nat k') d' = false) /\
          list_find (fun f => presentable_graphics_family f = true) (queue_families d)
            = Some (j, family) /\
          graphics_family_idx idx' = N.of_nat j
    | Returns (None, _) =>
        forall k d, (current :: rest) !! k = Some d ->
          suitable device_count (device_idx + N.of_nat k) d = false
    | Throws (render_engine_initialization_exception _) => True
    | _ => False
    end).
  { intros idx1 Hunsuitable.
    specialize (IH (device_idx + 1) device_count idx1 ltac:(lia) Hrest).
    destruct (choose_device rest (device_idx + 1) device_count idx1)
      as [[[chosen|] idx']|x|]; [| | exact IH | exact IH].
    - destruct IH as (k & d & j & family & -> & Hk & Hsuitable & Hfirst & Hfind & Hgraphics).
      exists (S k), d, j, family.
      split; [lia |]. split; [done |].
      split; [by replace (device_idx + N.of_nat (S k)) with (device_idx + 1 + N.of_nat k) by lia |].
      split; [| done].
      intros [|k'] d' Hlt Hd'.
      + cbn in Hd'. inversion Hd'; subst. by rewrite N.add_0_r.
      + replace (device_idx + N.of_nat (S k')) with (device_idx + 1 + N.of_nat k') by lia.
        apply (Hfirst k' d'); [lia | done].
    - intros [|k] d Hd.
      + cbn in Hd. inversion Hd; subst. by rewrite N.add_0_r.
      + replace (device_idx + N.of_nat (S k)) with (device_idx + 1 + N.of_nat k) by lia.
        by apply IH. }
  destruct (N.eqb (vendorID current) 0x8086 && N.ltb device_idx (device_count - 1))
    eqn:Hintel.
  { apply Hskip. unfold suitable, passed_over_as_intel. by rewrite Hintel. }
  destruct (does_device_support_extensions (extension_names current)) eqn:Hext;
    cbn [negb].
  2:{ apply Hskip. unfold suitable. rewrite Hext. by rewrite andb_false_r. }
  pose proof (scan_queue_families_outcome (queue_families current) 0
    {| graphics_family_idx := no_family;
       compute_family_idx := compute_family_idx idx;
       copy_family_idx := copy_family_idx idx |}) as Houtcome.
  pose proof (scan_queue_families_graphics (queue_families current) 0
    {| graphics_family_idx := no_family;
       compute_family_idx := compute_family_idx idx;
       copy_family_idx := copy_family_idx idx |}) as Hgraphics.
  destruct (scan_queue_families (queue_families current) 0 _) as [idx1|x|];
    cbn [obind]; [| exact Houtcome | exact Houtcome].
  specialize (Hgraphics idx1 ltac:(lia) eq_refl). cbn [graphics_family_idx] in Hgraphics.
  rewrite N.eqb_refl in Hgraphics.
  pose proof (suitable_families device_count device_idx current Hintel Hext) as Hsuitable.
  destruct (list_find _ (queue_families current)) as [[j family]|] eqn:Hfind.
  - rewrite Hgraphics, N.add_0_l.
    apply list_find_Some in Hfind as Hfound. destruct Hfound as (Hj & _ & _).
    apply lookup_lt_Some in Hj.
    rewrite no_family_is_no_index by lia. cbn [negb].
    exists 0%nat, current, j, family.
    split; [lia |]. split; [done |]. split; [done |]. split; [intros; lia |].
    split; [done |]. by rewrite Hgraphics, N.add_0_l.
  - rewrite Hgraphics, N.eqb_refl. cbn [negb]. by apply Hskip.
Qed.

(** X22: the device [create_device] settles on.  When [create_device]
    returns, the device it has chosen is the first of the devices enumerated
    that is suitable: not an Intel GPU with devices after it, with the
    swapchain extension, and with a queue family that has a queue, does
    graphics and can present to the surface; and the graphics queue family
    is the first such family of that device. *)
Theorem create_device_chooses_first_suitable_device
    (reports : device_reports) (members : device_members) :
  let devices := physical_devices reports in
  let device_count := N.of_nat (length devices) in
  countable_in_32_bits devices ->
  create_device reports = Returns members ->
  exists d family,
    devices !! N.to_nat (physical_device members) = Some d /\
    suitable device_count (physical_device members) d = true /\
    (forall k d', (k < N.to_nat (physical_device members))%nat ->
       devices !! k = Some d' -> suitable device_count (N.of_nat k) d' = false) /\
    queue_families d !! N.to_nat (graphics_queue_index members) = Some family /\
    presentable_graphics_family family = true /\
    (forall j family', (j < N.to_nat (graphics_queue_index members))%nat ->
       queue_families d !! j = Some family' ->
       presentable_graphics_family family' = false).
Proof.
  intros devices device_count [Hcount Hfamilies] Hrun.
  unfold create_device, throw_if_vk_error in Hrun.
  destruct (device_count_result reports); cbn [obind] in Hrun; try done.
  destruct (enumerate_result reports); cbn [obind] in Hrun; try done.
  fold devices in Hrun. rewrite wrap32_small in Hrun by (fold device_count; lia).
  fold device_count in Hrun.
  pose proof (choose_device_spec devices 0 device_count
    {| graphics_family_idx := no_family; compute_family_idx := no_family;
       copy_family_idx := no_family |} ltac:(fold device_count; lia) Hfamilies) as Hspec.
  destruct (choose_device devices 0 device_count _) as [[[chosen|] idx']|x|];
    cbn [obind fst snd] in Hrun; try done.
  destruct (create_device_result reports); cbn [obind] in Hrun; try done.
  inversion Hrun; subst members; clear Hrun. cbn [physical_device graphics_queue_index].
  destruct Hspec as (k & d & j & family & -> & Hk & Hsuitable & Hfirst & Hfind & ->).
  rewrite N.add_0_l in *. rewrite !Nat2N.id.
  apply list_find_Some in Hfind as (Hj & Hfamily & Hbefore).
  exists d, family. split; [done |]. split; [done |]. split.
  - intros k' d' Hlt Hd'. specialize (Hfirst k' d' Hlt Hd').
    by rewrite N.add_0_l in Hfirst.
  - split; [done |]. split; [done |].
    intros j' family' Hlt Hj'. specialize (Hbefore j' family' Hj' Hlt).
    by destruct (presentable_graphics_family family').
Qed.

(** X23: when none of the devices enumerated is suitable, [create_device]
    throws a [render_engine_initialization_exception]: it creates no device,
    whatever the driver would have answered to the creation. *)
Theorem create_device_throws_without_suitable_device (reports : device_reports) :
  let devices := physical_devices reports in
  let device_count := N.of_nat (length devices) in
  countable_in_32_bits devices ->
  (forall k d, devices !! k = Some d -> suitable device_count (N.of_nat k) d = false) ->
  exists msg, create_device reports = Throws (render_engine_initialization_exception msg).
Proof.
  intros devices device_count [Hcount Hfamilies] Hnone.
  unfold create_device, throw_if_vk_error.
  destruct (device_count_result reports); cbn [obind]; try by eexists.
  destruct (enumerate_result reports); cbn [obind]; try by eexists.
  fold devices. rewrite wrap32_small by (fold device_count; lia).
  fold device_count.
  pose proof (choose_device_spec devices 0 device_count
    {| graphics_family_idx := no_family; compute_family_idx := no_family;
       copy_family_idx := no_family |} ltac:(fold device_count; lia) Hfamilies) as Hspec.
  destruct (choose_device devices 0 device_count _) as [[[chosen|] idx']|[]|];
    cbn [obind fst snd]; try done; try by eexists.
  destruct Hspec as (k & d & j & family & -> & Hk & Hsuitable & _).
  rewrite N.add_0_l in Hsuitable. by rewrite (Hnone k d Hk) in Hsuitable.
Qed.

Lemma scan_queue_families_keeps_compute (families : list queue_family_report)
    (queue_idx : N) (idx idx' : family_indices) :
  queue_idx + N.of_nat (length families) + 1 <= 2 ^ 32 ->
  scan_queue_families families queue_idx idx = Returns idx' ->
  compute_family_idx idx <> no_family ->
  compute_family_idx idx' = compute_family_idx idx.
Proof.
  intros Hbound Hscan Hset.
  rewrite (scan_queue_families_compute _ _ _ _ Hbound Hscan).
  by apply N.eqb_neq in Hset as ->.
Qed.

Lemma choose_device_keeps_compute (devices : list physical_device_report) :
  forall (device_idx device_count : N) (idx : family_indices) chosen idx',
    Forall (fun d => N.of_nat (length (queue_families d)) + 1 < 2 ^ 32) devices ->
    choose_device devices device_idx device_count idx = Returns (chosen, idx') ->
    compute_family_idx idx <> no_family ->
    compute_family_idx idx' = compute_family_idx idx.
Proof.
  induction devices as [|current rest IH];
    intros device_idx device_count idx chosen idx' Hfamilies Hrun Hset.
  { cbn in Hrun. by inversion Hrun. }
  cbn [choose_device] in Hrun.
  apply Forall_cons in Hfamilies as [Hcurrent Hrest].
  destruct (_ && _).
  { by rewrite (IH _ _ _ _ _ Hrest Hrun). }
  destruct (negb _).
  { by rewrite (IH _ _ _ _ _ Hrest Hrun). }
  destruct (scan_queue_families (queue_families current) 0 _) as [idx1|x|] eqn:Hscan;
    cbn [obind] in Hrun; try done.
  apply scan_queue_families_keeps_compute in Hscan; [| lia | done].
  cbn [compute_family_idx] in Hscan.
  destruct (negb _).
  - inversion Hrun; subst. done.
  - rewrite (IH _ _ _ _ _ Hrest Hrun); [done | congruence].
Qed.

(** X24: the compute queue family is not looked for in the chosen device
    only.  When the first device enumerated is looked into (it is not passed
    over and has the swapchain extension) but has no family to take graphics
    work to, and one of its families does compute work, then the compute
    queue index [create_device] ends with is the index of the first compute
    family of that first device -- a device it has not chosen. *)
Theorem create_device_keeps_compute_family_of_rejected_device
    (reports : device_reports) (members : device_members)
    (rejected : physical_device_report) (others : list physical_device_report)
    (k : nat) (family : queue_family_report) :
  let device_count := N.of_nat (length (physical_devices reports)) in
  physical_devices reports = rejected :: others ->
  countable_in_32_bits (physical_devices reports) ->
  passed_over_as_intel device_count 0 rejected = false ->
  does_device_support_extensions (extension_names rejected) = true ->
  Forall (fun f => presentable_graphics_family f = false) (queue_families rejected) ->
  list_find (fun f => compute_family f = true) (queue_families rejected) = Some (k, family) ->
  create_device reports = Returns members ->
  compute_queue_index members = N.of_nat k /\ 0 < physical_device members.
Proof.
  intros device_count Hdevices [Hcount Hfamilies] Hintel Hext Hnone Hcompute Hrun.
  unfold create_device, throw_if_vk_error in Hrun.
  destruct (device_count_result reports); cbn [obind] in Hrun; try done.
  destruct (enumerate_result reports); cbn [obind] in Hrun; try done.
  rewrite wrap32_small in Hrun by (fold device_count; lia).
  fold device_count in Hrun. rewrite Hdevices in Hrun, Hfamilies, Hcount.
  cbn [choose_device] in Hrun.
  unfold passed_over_as_intel in Hintel. rewrite Hintel, Hext in Hrun. cbn [negb] in Hrun.
  apply Forall_cons in Hfamilies as [Hrejected Hothers].
  destruct (scan_queue_families (queue_families rejected) 0 _) as [idx1|x|] eqn:Hscan;
    cbn [obind] in Hrun; try done.
  cbn beta in Hrejected.
  pose proof (scan_queue_families_graphics (queue_families rejected) 0 _ idx1
                ltac:(lia) Hscan) as Hgraphics.
  pose proof (scan_queue_families_compute (queue_families rejected) 0 _ idx1
                ltac:(lia) Hscan) as Hfound.
  cbn [graphics_family_idx compute_family_idx] in Hgraphics, Hfound.
  rewrite N.eqb_refl in Hgraphics, Hfound. rewrite Hcompute, N.add_0_l in Hfound.
  assert (Hfind : list_find (fun f => presentable_graphics_family f = true)
                    (queue_families rejected) = None).
  { apply list_find_None. eapply Forall_impl; [exact Hnone |]. cbn. congruence. }
  rewrite Hfind in Hgraphics. rewrite Hgraphics, N.eqb_refl in Hrun. cbn [negb] in Hrun.
  rewrite wrap32_small in Hrun by (cbn; lia).
  pose proof (choose_device_spec others (0 + 1) device_count idx1
    ltac:(cbn [length] in Hcount; lia) Hothers) as Hspec.
  destruct (choose_device others (0 + 1) device_count idx1)
    as [[[chosen|] idx']|x|] eqn:Hchoose; cbn [obind fst snd] in Hrun; try done.
  destruct (create_device_result reports); cbn [obind] in Hrun; try done.
  inversion Hrun; subst members; clear Hrun.
  cbn [compute_queue_index physical_device].
  apply list_find_Some in Hcompute as (Hk & _ & _). apply lookup_lt_Some in Hk.
  apply choose_device_keeps_compute in Hchoose; [| done |].
  - destruct Hspec as (k' & ? & ? & ? & -> & _). split; [congruence | lia].
  - rewrite Hfound. unfold no_family. lia.
Qed.

End DeviceChoice.

(** ** The views of the swapchain images *)

Section SwapchainImageViews.
Context `{P : Platform}.
Local Open Scope N_scope.

(** X25: [create_swapchain_image_views] creates the views in the order of
    the images and stops at the first creation the driver refuses.  When the
    driver answers the first [k] creations with success and [k] is the number
    of images, it returns one view per image; when the driver refuses the
    creation after them, it throws a [render_engine_initialization_exception]
    right after that call, without going on to the images that remain. *)
Theorem create_swapchain_image_views_stops_at_first_failure
    (swapchain_images : list handle) (e : engine) (k : nat) :
  let n := length (vk_log (driver e)) in
  let views := fresh_handles (next_handle (driver e)) (length swapchain_images) in
  (k <= length swapchain_images)%nat ->
  (forall i, (i < k)%nat -> vk_result (n + i) = VK_SUCCESS) ->
  ((k < length swapchain_images)%nat -> vk_result (n + k) <> VK_SUCCESS) ->
  exists e',
    vk_log (driver e') =
      vk_log (driver e) ++
        zip_with vkCreateImageView (take (S k) swapchain_images) (take (S k) views) /\
    if decide (k = length swapchain_images)
    then create_swapchain_image_views swapchain_images e = (Returns views, e')
    else exists msg,
      create_swapchain_image_views swapchain_images e
        = (Throws (render_engine_initialization_exception msg), e').
Proof.
  revert e k. induction swapchain_images as [|image rest IH]; intros e k n views Hk Hok Hfail.
  - cbn in Hk. assert (k = 0)%nat as -> by lia. exists e.
    cbn. rewrite app_nil_r. done.
  - cbn [create_swapchain_image_views].
    do 2 (erewrite bind_returns by reflexivity).
    cbn [driver with_driver vk_log set_vk_log set_next_handle next_handle].
    fold n. subst views. cbn [length fresh_handles].
    destruct k as [|k].
    + specialize (Hfail ltac:(cbn; lia)). rewrite Nat.add_0_r in Hfail.
      destruct (vk_result n) eqn:Hr; [done |..];
        (eexists; split;
         [| rewrite decide_False by done; eexists; reflexivity]; cbn; by rewrite take_0).
    + pose proof (Hok 0%nat ltac:(lia)) as Hfirst. rewrite Nat.add_0_r in Hfirst.
      rewrite Hfirst.
      erewrite bind_returns by reflexivity.
      match goal with |- context [bind (create_swapchain_image_views rest) _ ?e1] =>
        destruct (IH e1 k) as (e' & Hlog & Hrun)
      end.
      * cbn in Hk. lia.
      * intros i Hi. cbn. rewrite length_app. cbn.
        replace (length (vk_log (driver e)) + 1 + i)%nat with (n + S i)%nat
          by (unfold n; lia).
        apply Hok. lia.
      * intros Hlt. cbn. rewrite length_app. cbn.
        replace (length (vk_log (driver e)) + 1 + k)%nat with (n + S k)%nat
          by (unfold n; lia).
        apply Hfail. cbn. lia.
      * exists e'. split.
        -- rewrite Hlog. cbn. rewrite <- app_assoc. reflexivity.
        -- cbn in Hrun. destruct (decide (k = length rest)) as [->|Hne].
           ++ rewrite decide_True by done.
              erewrite bind_returns by exact Hrun. reflexivity.
           ++ rewrite decide_False by (cbn; lia).
              destruct Hrun as [msg Hrun]. exists msg.
              erewrite bind_throws by exact Hrun. reflexivity.
Qed.

End SwapchainImageViews.

(** ** The command pools of a thread *)

Section CommandPools.
Local Open Scope N_scope.

(** X30: [make_new_command_pools] asks for three pools, for the graphics,
    the copy and the compute queue family in this order, and keeps one pool
    per index: when two of the indices are the same, the pool created last
    for that index is the one [get_command_buffer_pool_for_current_thread]
    finds, and the one created before it is dropped.  For an index that is
    none of the three the lookup throws [std::out_of_range]. *)
Theorem command_pools_hold_last_pool_of_each_queue_index
    (graphics_queue_index copy_queue_index compute_queue_index : N)
    (answers : nat -> VkResult * handle) :
  (forall n, (n < 3)%nat -> (answers n).1 = VK_SUCCESS) ->
  exists pools,
    make_new_command_pools graphics_queue_index copy_queue_index compute_queue_index answers
      = Returns pools /\
    get_command_buffer_pool_for_current_thread pools compute_queue_index
      = Returns (answers 2%nat).2 /\
    get_command_buffer_pool_for_current_thread pools copy_queue_index
      = Returns (if decide (copy_queue_index = compute_queue_index)
                 then (answers 2%nat).2 else (answers 1%nat).2) /\
    get_command_buffer_pool_for_current_thread pools graphics_queue_index
      = Returns (if decide (graphics_queue_index = compute_queue_index)
                 then (answers 2%nat).2
                 else if decide (graphics_queue_index = copy_queue_index)
                      then (answers 1%nat).2 else (answers 0%nat).2) /\
    (forall queue_index,
       queue_index <> graphics_queue_index -> queue_index <> copy_queue_index ->
       queue_index <> compute_queue_index ->
       exists msg,
         get_command_buffer_pool_for_current_thread pools queue_index
           = Throws (out_of_range msg)).
Proof.
  intros Hok.
  unfold make_new_command_pools. cbn [create_command_pools].
  rewrite (Hok 0%nat), (Hok 1%nat), (Hok 2%nat) by lia. cbn [Startup.throw_if_vk_error obind].
  eexists. split; [reflexivity |].
  unfold get_command_buffer_pool_for_current_thread.
  split; [by rewrite lookup_insert_eq |]. split; [| split].
  - destruct (decide (copy_queue_index = compute_queue_index)) as [->|Hne].
    + by rewrite lookup_insert_eq.
    + rewrite lookup_insert_ne by done. by rewrite lookup_insert_eq.
  - destruct (decide (graphics_queue_index = compute_queue_index)) as [->|Hne].
    + by rewrite lookup_insert_eq.
    + rewrite lookup_insert_ne by done.
      destruct (decide (graphics_queue_index = copy_queue_index)) as [->|Hne'].
      * by rewrite lookup_insert_eq.
      * rewrite lookup_insert_ne by done. by rewrite lookup_insert_eq.
  - intros queue_index Hg Hc Hk.
    rewrite !lookup_insert_ne, lookup_empty by done. by eexists.
Qed.

End CommandPools.

(** ** The command pools of a thread, on the engine *)

Section ThreadPools.
Context `{P : Platform}.
Local Open Scope N_scope.

(** The pools a thread makes on the engine are those of
    [make_new_command_pools] above with the driver's answers read off the
    engine: the [n]-th creation asked for from [e] is answered with the
    result of the driver's call number [length (vk_log (driver e)) + n] and
    the handle [next_handle (driver e) + n]. *)
Lemma thread_pools_are_make_new_command_pools (e : engine) :
  (ThreadLocal.make_new_command_pools e).1 =
    make_new_command_pools
      (graphics_queue_index (device e)) (copy_queue_index (device e))
      (compute_queue_index (device e))
      (fun n => (vk_result (length (vk_log (driver e)) + n),
                 next_handle (driver e) + N.of_nat n)).
Proof.
  unfold ThreadLocal.make_new_command_pools, make_new_command_pools.
  do 3 (erewrite bind_returns by reflexivity).
  destruct e as [[log next mapped logged] s m f t dv].
  cbn [driver vk_log next_handle device create_command_pools fst snd].
  rewrite create_command_pools_step.
  cbv [with_driver set_vk_log set_next_handle driver shaderpack mesh frame scheduled
       device vk_log next_handle mapped_memory nova_log].
  rewrite Nat.add_0_r, N.add_0_r.
  destruct (vk_result (length log)); cbn [Startup.throw_if_vk_error obind fst]; try done.
  rewrite create_command_pools_step.
  cbv [with_driver set_vk_log set_next_handle driver shaderpack mesh frame scheduled
       device vk_log next_handle mapped_memory nova_log].
  rewrite length_app. cbn [length].
  replace (next + N.of_nat 1) with (N.succ next) by lia.
  destruct (vk_result (length log + 1)); cbn [Startup.throw_if_vk_error obind fst]; try done.
  rewrite create_command_pools_step.
  cbv [with_driver set_vk_log set_next_handle driver shaderpack mesh frame scheduled
       device vk_log next_handle mapped_memory nova_log].
  rewrite !length_app. cbn [length]. rewrite <- Nat.add_assoc. cbn [Nat.add].
  replace (next + N.of_nat 2) with (N.succ (N.succ next)) by lia.
  destruct (vk_result (length log + 2)); cbn [Startup.throw_if_vk_error obind fst]; done.
Qed.

End ThreadPools.

(** ** Reading JSON *)

Section JsonArrays.
Context {json ValType : Type}.
Variable find : json -> string -> option json.
Variable elements : json -> list json.
Variable deserializer : json -> outcome ValType.

Lemma push_back_each_returns (elems : list json) :
  forall vec result,
    Json.push_back_each json deserializer elems vec = Returns result <->
    exists vals,
      Forall2 (fun elem val => deserializer elem = Returns val) elems vals /\
      result = vec ++ vals.
Proof.
  induction elems as [|elem rest IH]; intros vec result; cbn [Json.push_back_each].
  - split.
    + intros [= <-]. exists []. split; [constructor | by rewrite app_nil_r].
    + intros (vals & Hvals & ->). inversion Hvals; subst. by rewrite app_nil_r.
  - destruct (deserializer elem) as [val|x|] eqn:Helem; cbn [obind].
    + rewrite IH. split.
      * intros (vals & Hvals & ->). exists (val :: vals).
        split; [by constructor | by rewrite <- app_assoc].
      * intros (vals & Hvals & ->). inversion Hvals as [|? v ? vals' Hv Hrest]; subst.
        exists vals'. split; [done |].
        rewrite <- app_assoc. cbn. congruence.
    + split; [done |]. intros (vals & Hvals & _). inversion Hvals; congruence.
    + split; [done |]. intros (vals & Hvals & _). inversion Hvals; congruence.
Qed.

Lemma push_back_each_throws (elems : list json) :
  forall vec before elem after x,
    elems = before ++ elem :: after ->
    Forall (fun elem' => exists val, deserializer elem' = Returns val) before ->
    deserializer elem = Throws x ->
    Json.push_back_each json deserializer elems vec = Throws x.
Proof.
  intros vec before. revert elems vec.
  induction before as [|first before IH]; intros elems vec elem after x -> Hbefore Helem.
  - cbn. by rewrite Helem.
  - apply Forall_cons in Hbefore as [[val Hfirst] Hbefore].
    cbn. rewrite Hfirst. cbn. by eapply IH.
Qed.

(** X26: [get_json_array] gives the empty vector for a missing key, without
    calling the deserializer.  For a key that is there it returns exactly
    when every element of the node deserializes, and then gives the values
    in the order of the elements; when an element throws and all elements
    before it deserialize, that exception is what [get_json_array] throws. *)
Theorem get_json_array_deserializes_elements_in_order (json_obj : json) (key : string) :
  match find json_obj key with
  | None => Json.get_json_array json find elements deserializer json_obj key = Returns []
  | Some json_node =>
      (forall vec,
         Json.get_json_array json find elements deserializer json_obj key = Returns vec <->
         Forall2 (fun elem val => deserializer elem = Returns val) (elements json_node) vec) /\
      (forall before elem after x,
         elements json_node = before ++ elem :: after ->
         Forall (fun elem' => exists val, deserializer elem' = Returns val) before ->
         deserializer elem = Throws x ->
         Json.get_json_array json find elements deserializer json_obj key = Throws x)
  end.
Proof.
  unfold Json.get_json_array.
  destruct (find json_obj key) as [json_node|]; [| done].
  split.
  - intros vec. rewrite push_back_each_returns. split.
    + by intros (vals & Hvals & ->).
    + intros Hvals. by exists vec.
  - intros before elem after x. apply push_back_each_throws.
Qed.

End JsonArrays.

(** ** Loading and reloading a shaderpack *)

Section Reloading.
Context `{P : Platform}.
Local Open Scope N_scope.

Hint Resolve ignored_call ignored_fresh_handle ignored_NOVA_LOG_ERROR
  ignored_to_vk_attachment_info ignored_create_shader_module
  ignored_add_resources_to_bindings ignored_get_shader_module_descriptors
  ignored_compile_optional_stage ignored_compile_stages
  ignored_dsl_create_infos ignored_create_layouts
  ignored_create_descriptor_set_layouts : preserves.
Hint Extern 0 (forall _ _, _ (with_driver _ _) = _) => (intros; reflexivity) : preserves.

Hint Resolve creates_to_vk_attachment_info creates_create_shader_module
  creates_add_resources_to_bindings creates_get_shader_module_descriptors
  creates_dsl_create_infos creates_create_layouts creates_compile_optional_stage
  : calls.

Lemma unloaded_set_shaderpack_only_creates (data : shaderpack_data) (e : engine) :
  shaderpack_loaded (shaderpack e) = false ->
  exists rest,
    vk_log (driver (set_shaderpack data e).2) = vk_log (driver e) ++ rest /\
    Forall creates rest.
Proof.
  intros Hloaded. unfold set_shaderpack.
  erewrite bind_returns by reflexivity. rewrite Hloaded.
  erewrite bind_returns by reflexivity.
  assert (Hrest : only_calls creates
            (do! create_textures (textures (resources data)) in
             do! for_each (shaderpack_materials data) (fun mat_data =>
                   modify (with_shaderpack (fun s =>
                     set_materials (<[material_name mat_data := mat_data]> (materials s)) s))) in
             do! create_render_passes (passes data) in
             do! create_graphics_pipelines (shaderpack_pipelines data) in
             modify (with_shaderpack (set_shaderpack_loaded true)))).
  { calls_steps; auto using creates_create_textures, creates_create_render_passes,
      creates_create_graphics_pipelines. }
  exact (Hrest e).
Qed.

(** X27: until a [set_shaderpack] has returned, [set_shaderpack] destroys
    nothing.  On an engine that does not count a shaderpack as loaded, all
    its driver calls are creations; and when the call does not return, this
    is so for the next [set_shaderpack] as well, which leaves the textures
    and passes of the failed attempt undestroyed. *)
Theorem set_shaderpack_destroys_nothing_until_loaded
    (data data' : shaderpack_data) (e : engine) :
  shaderpack_loaded (shaderpack e) = false ->
  (exists rest,
     vk_log (driver (set_shaderpack data e).2) = vk_log (driver e) ++ rest /\
     Forall creates rest) /\
  ((set_shaderpack data e).1 <> Returns tt ->
   exists rest,
     vk_log (driver (set_shaderpack data' (set_shaderpack data e).2).2)
       = vk_log (driver (set_shaderpack data e).2) ++ rest /\
     Forall creates rest).
Proof.
  intros Hloaded. split; [by apply unloaded_set_shaderpack_only_creates |].
  intros Hfails. apply unloaded_set_shaderpack_only_creates.
  rewrite loaded_after_set_shaderpack.
  destruct (set_shaderpack data e).1 as [[]|x|]; done.
Qed.

Lemma materials_after_for_each (mats : list material_data) :
  forall e e',
    for_each mats (fun mat_data =>
      modify (with_shaderpack (fun s =>
        set_materials (<[material_name mat_data := mat_data]> (materials s)) s))) e
      = (Returns tt, e') ->
    dynamic_textures (shaderpack e') = dynamic_textures (shaderpack e) /\
    forall name,
      is_Some (materials (shaderpack e') !! name) <->
      name ∈ material_name <$> mats \/ is_Some (materials (shaderpack e) !! name).
Proof.
  induction mats as [|mat mats IH]; intros e e' Hrun.
  - cbn in Hrun. inversion Hrun; subst. split; [done |].
    intros name. split; [auto |]. intros [Hin | Hsome]; [| done].
    by apply elem_of_nil in Hin.
  - cbn [for_each] in Hrun. erewrite bind_returns in Hrun by reflexivity.
    apply IH in Hrun as [Htextures Hmaterials]. split; [by rewrite Htextures |].
    intros name. rewrite Hmaterials, fmap_cons, elem_of_cons. cbn.
    destruct (decide (name = material_name mat)) as [->|Hne].
    + rewrite lookup_insert_eq. split; [auto |]. intros _. right. by eexists.
    + rewrite lookup_insert_ne by done. tauto.
Qed.

Lemma textures_and_materials_create_render_passes (l : list render_pass_data) :
  preserves (fun e => (dynamic_textures (shaderpack e), materials (shaderpack e)))
            (create_render_passes l).
Proof.
  unfold create_render_passes, assign_pass_data, create_render_pass. preserves_steps.
Qed.

Lemma textures_and_materials_create_graphics_pipelines (l : list pipeline_data) :
  preserves (fun e => (dynamic_textures (shaderpack e), materials (shaderpack e)))
            (create_graphics_pipelines l).
Proof.
  unfold create_graphics_pipelines, create_graphics_pipeline. preserves_steps.
  apply preserves_modify. intros e. cbn. by case_match.
Qed.

Lemma materials_create_textures (l : list texture_resource_data) :
  preserves (fun e => materials (shaderpack e)) (create_textures l).
Proof. unfold create_textures. preserves_steps. Qed.

(** X28: reloading replaces the textures and the materials.  When
    [set_shaderpack] returns on an engine that counts a shaderpack as
    loaded, the dynamic textures of the engine are exactly those the new
    pack declares, and its materials exactly those of the new pack: nothing
    of the pack loaded before is left in the two tables. *)
Theorem reloading_replaces_textures_and_materials
    (data : shaderpack_data) (e e' : engine) :
  shaderpack_loaded (shaderpack e) = true ->
  set_shaderpack data e = (Returns tt, e') ->
  (forall name,
     is_Some (dynamic_textures (shaderpack e') !! name) <->
     name ∈ texture_name <$> textures (resources data)) /\
  (forall name,
     is_Some (materials (shaderpack e') !! name) <->
     name ∈ material_name <$> shaderpack_materials data).
Proof.
  intros Hloaded Hrun. unfold set_shaderpack in Hrun.
  erewrite bind_returns in Hrun by reflexivity. rewrite Hloaded in Hrun.
  apply bind_returns_inv in Hrun as ([] & e1 & Hteardown & Hrun).
  apply bind_returns_inv in Hrun as ([] & e2 & Htextures & Hrun).
  apply bind_returns_inv in Hrun as ([] & e3 & Hmaterials & Hrun).
  apply bind_returns_inv in Hrun as ([] & e4 & Hpasses & Hrun).
  apply bind_returns_inv in Hrun as ([] & e5 & Hpipelines & Hrun).
  inversion Hrun; subst e'; clear Hrun.
  cbn [shaderpack with_shaderpack set_shaderpack_loaded dynamic_textures materials].
  (* what the teardown leaves *)
  apply bind_returns_inv in Hteardown as ([] & a1 & _ & Hteardown).
  apply bind_returns_inv in Hteardown as ([] & a2 & _ & Hteardown).
  erewrite bind_returns in Hteardown by reflexivity.
  unfold destroy_dynamic_textures in Hteardown.
  erewrite bind_returns in Hteardown by reflexivity.
  apply bind_returns_inv in Hteardown as ([] & a4 & Hloop & Hteardown).
  inversion Hteardown; subst e1; clear Hteardown.
  apply (preserved_after (fun e => materials (shaderpack e))) in Hloop;
    [| solve [preserves_steps]].
  cbn [shaderpack with_shaderpack set_materials materials] in Hloop.
  (* the steps after the textures and the materials *)
  assert (Hkept : dynamic_textures (shaderpack e5) = dynamic_textures (shaderpack e3) /\
                  materials (shaderpack e5) = materials (shaderpack e3)).
  { pose proof (preserved_after _ _ _ _ _
                  (textures_and_materials_create_graphics_pipelines _) Hpipelines) as H5.
    pose proof (preserved_after _ _ _ _ _
                  (textures_and_materials_create_render_passes _) Hpasses) as H4.
    cbn beta in H5, H4. rewrite H4 in H5. by inversion H5. }
  destruct Hkept as [-> ->].
  apply materials_after_for_each in Hmaterials as [-> Hmats].
  destruct (create_textures_returns (textures (resources data))
              (with_shaderpack (set_dynamic_textures ∅) a4))
    as (e2' & Hrun & _ & Hdeclared & Hothers).
  rewrite Htextures in Hrun. inversion Hrun; subst e2'; clear Hrun.
  assert (Hmaterials2 : materials (shaderpack e2) = ∅).
  { rewrite (preserved_after _ _ _ _ _ (materials_create_textures _) Htextures).
    cbn. exact Hloop. }
  split.
  - intros name. split.
    + intros Hsome.
      destruct (decide (name ∈ texture_name <$> textures (resources data))) as [|Hnot];
        [done |].
      rewrite (Hothers _ Hnot) in Hsome. cbn in Hsome.
      rewrite lookup_empty in Hsome. by destruct Hsome.
    + intros Hin. destruct (Hdeclared _ Hin) as (tex & -> & _). by eexists.
  - intros name. rewrite Hmats, Hmaterials2, lookup_empty. split.
    + intros [Hin | Hsome]; [done | by destruct Hsome].
    + auto.
Qed.

End Reloading.

(** ** The examples, run *)

Section Examples.
Local Open Scope N_scope.
Local Abbreviation P0 := (Example.platform Example.never_fails).
Local Abbreviation start := (Example.initial_engine Example.never_fails).

Lemma parts_needed_zero (a : Example.free_list) : Example.parts_needed a 0 = 0.
Proof.
  unfold Example.parts_needed. destruct (N.eq_dec (Example.part_size a) 0) as [-> | Hp].
  - done.
  - apply N.div_small. lia.
Qed.

(** On the example platform the empty mesh is always added, under the id
    the counter shows. *)
Lemma add_no_vertices (e : @engine P0) :
  exists e',
    @add_mesh P0 Example.no_vertices e = (Returns (mesh_id_counter e), e') /\
    mesh_id_counter e' = UInt.wrap32 (mesh_id_counter e + 1).
Proof.
  pose proof (@add_mesh_issues_id P0 Example.no_vertices _ e eq_refl) as Hid.
  assert (Hret : exists mesh_id e', @add_mesh P0 Example.no_vertices e = (Returns mesh_id, e')).
  { unfold add_mesh, bind, mesh_manager_allocate_mesh. cbn.
    unfold Example.free_list_allocate. rewrite parts_needed_zero. cbn.
    eauto. }
  destruct Hret as (mesh_id & e' & Hret). rewrite Hret in Hid.
  destruct Hid as [-> Hnext]. eauto.
Qed.

Lemma add_empty_meshes_counter (n : N) (e : @engine P0) :
  mesh_id_counter e < 2 ^ 32 ->
  mesh_id_counter (Example.add_empty_meshes n e) = UInt.wrap32 (mesh_id_counter e + n).
Proof.
  intros Hc. unfold Example.add_empty_meshes.
  induction n as [|n IH] using N.peano_ind.
  - cbn [N.iter]. rewrite N.add_0_r. symmetry. by apply wrap32_small.
  - rewrite N.iter_succ. cbv beta.
    destruct (add_no_vertices (N.iter n
                (fun e => (@add_mesh P0 Example.no_vertices e).2) e)) as (e' & Hadd & Hnext).
    rewrite Hadd. cbn [snd]. rewrite Hnext, IH.
    unfold UInt.wrap32. rewrite N.Div0.add_mod_idemp_l. f_equal. lia.
Qed.

Lemma add_after_empty_meshes (n : N) (e : @engine P0) :
  mesh_id_counter e < 2 ^ 32 ->
  (@add_mesh P0 Example.no_vertices (Example.add_empty_meshes n e)).1
    = Returns (UInt.wrap32 (mesh_id_counter e + n)).
Proof.
  intros Hc.
  destruct (add_no_vertices (Example.add_empty_meshes n e)) as (e' & Hadd & _).
  rewrite Hadd. cbn [fst]. by rewrite add_empty_meshes_counter.
Qed.

(** C8 as stated fails when the counter wraps: the first [add_mesh] of the
    process returns 0, and so does the one that follows 2^32 additions. *)
Lemma mesh_id_is_reused_after_wrap :
  (@add_mesh P0 Example.no_vertices start).1 = Returns 0 /\
  (@add_mesh P0 Example.no_vertices (Example.add_empty_meshes (2 ^ 32) start)).1
    = Returns 0 /\
  ~ (0 < 0).
Proof.
  split; [| split; [| lia]].
  - destruct (add_no_vertices start) as (e' & -> & _). reflexivity.
  - rewrite add_after_empty_meshes; reflexivity.
Qed.

Lemma mesh_ids_increase_witness :
  mesh_id_counter start
    + N.of_nat (length (filter is_add_mesh Example.history)) <= 2 ^ 32 /\
  StronglySorted N.lt (mesh_ids Example.history start) /\
  Forall (fun mesh_id => mesh_id_counter start <= mesh_id)
    (mesh_ids Example.history start) /\
  (forall mesh_id e0,
     mesh_id_counter (@delete_mesh P0 mesh_id e0).2 = mesh_id_counter e0).
Proof.
  assert (Hroom : mesh_id_counter start
            + N.of_nat (length (filter is_add_mesh Example.history)) <= 2 ^ 32).
  { vm_compute. discriminate. }
  split; [exact Hroom |].
  exact (mesh_ids_increase_until_counter_wraps Example.history start Hroom).
Defined.

Lemma upload_task_witness :
  let e := (@add_mesh P0 Example.two_vertices
              (@add_mesh P0 Example.three_vertices start).2).2 in
  Forall well_formed_command (mesh_upload_queue (mesh e)) /\
  mesh_upload_queue (mesh e) =
    [{| staging_buffers := [{| buffer := 100; pMappedData := 100 |};
                            {| buffer := 101; pMappedData := 101 |}];
        mem := {| parts := [{| part_buffer := 1; offset := 0 |};
                            {| part_buffer := 1; offset := 8 |}] |} |};
     {| staging_buffers := [{| buffer := 102; pMappedData := 102 |}];
        mem := {| parts := [{| part_buffer := 1; offset := 16 |}] |} |}] /\
  command_pools_by_queue_idx (device e) !! current_thread (device e) = None /\
  exists e',
    run_upload_new_mesh_parts_task e = (Returns tt, e') /\
    mesh_upload_queue (mesh e') = [] /\
    vk_log (driver e') =
      vk_log (driver e) ++
        [vkCreateCommandPool 0 103; vkCreateCommandPool 1 104; vkCreateCommandPool 2 105;
         vkAllocateCommandBuffers 104; vkBeginCommandBuffer;
         vkEndCommandBuffer; vkWaitForFences 50;
         vkQueueSubmit copy_queue
           (recorded [barriers_before_data_upload;
                      vkCmdCopyBuffer 100 1
                        {| srcOffset := 0; dstOffset := 0; copy_size := 8 |};
                      vkCmdCopyBuffer 101 1
                        {| srcOffset := 0; dstOffset := 8; copy_size := 8 |};
                      vkCmdCopyBuffer 102 1
                        {| srcOffset := 0; dstOffset := 16; copy_size := 8 |};
                      barriers_after_data_upload])
           None None (Some 51)] /\
    scheduled e' = [return_staging_buffers_task None] /\
    command_pools_by_queue_idx (device e') !! 0 = Some {[ 0 := 103; 1 := 104; 2 := 105 ]}.
Proof.
  intros e.
  assert (Hq : mesh_upload_queue (mesh e) =
            [{| staging_buffers := [{| buffer := 100; pMappedData := 100 |};
                                    {| buffer := 101; pMappedData := 101 |}];
                mem := {| parts := [{| part_buffer := 1; offset := 0 |};
                                    {| part_buffer := 1; offset := 8 |}] |} |};
             {| staging_buffers := [{| buffer := 102; pMappedData := 102 |}];
                mem := {| parts := [{| part_buffer := 1; offset := 16 |}] |} |}])
    by (vm_compute; reflexivity).
  assert (Hwf : Forall well_formed_command (mesh_upload_queue (mesh e))).
  { rewrite Hq. repeat constructor. }
  assert (Hfirst : command_pools_by_queue_idx (device e) !! current_thread (device e) = None)
    by (vm_compute; reflexivity).
  assert (Hok : forall k, (k < 3)%nat ->
            @vk_result P0 (length (vk_log (driver e)) + k) = VK_SUCCESS)
    by (intros k _; reflexivity).
  split; [exact Hwf |]. split; [exact Hq |]. split; [exact Hfirst |].
  destruct (upload_task_drains_queue_and_copies_parts e Hwf)
    as (_ & _ & _ & _ & Hrun & _).
  destruct (Hrun Hfirst Hok) as (e' & pool & Hpool & He' & Hmesh & Hlog & Hsched & Hpools).
  assert (pool = 104) as -> by (vm_compute in Hpool; congruence).
  exists e'. split; [exact He' |]. split; [by rewrite Hmesh |].
  split; [rewrite Hlog; vm_compute; reflexivity |].
  split; [rewrite Hsched; vm_compute; reflexivity |].
  rewrite Hpools. vm_compute. reflexivity.
Defined.

Lemma render_frame_skips_stale_frame_witness :
  let e := Example.initial_engine Example.stale_at_second_call in
  submit_fences (frame e) !! N.to_nat (current_frame (frame e)) = Some 10 /\
  image_available_semaphores (frame e) !! N.to_nat (current_frame (frame e)) = Some 20 /\
  Example.stale_at_second_call (S (length (vk_log (driver e)))) = VK_ERROR_OUT_OF_DATE_KHR /\
  exists e',
    render_frame e = (Returns tt, e') /\
    vk_log (driver e') = [vkWaitForFences 10; vkAcquireNextImageKHR 20] /\
    scheduled e' = [] /\
    mesh e' = mesh e /\
    shaderpack e' = shaderpack e /\
    current_frame (frame e') = 0.
Proof.
  intros e.
  assert (H1 : submit_fences (frame e) !! N.to_nat (current_frame (frame e)) = Some 10)
    by reflexivity.
  assert (H2 : image_available_semaphores (frame e) !! N.to_nat (current_frame (frame e))
               = Some 20) by reflexivity.
  assert (H3 : Example.stale_at_second_call (S (length (vk_log (driver e))))
               = VK_ERROR_OUT_OF_DATE_KHR) by reflexivity.
  split; [exact H1 |]. split; [exact H2 |]. split; [exact H3 |].
  destruct (@render_frame_skips_stale_frame
              (Example.platform Example.stale_at_second_call) e 10 20 H1 H2 (or_introl H3))
    as (e' & Hrun & Hlog & Hsched & Hmesh & Hpack & Hslot & _).
  exists e'. repeat split; assumption.
Defined.

(** C4 as stated fails on the reload of a shaderpack with one pass and one
    pipeline built against it: the pipeline (108), created for render pass
    102, is destroyed after that pass. *)
Lemma pipeline_is_destroyed_after_its_pass :
  let loaded := (@set_shaderpack P0 (Example.shaderpack_with Example.contiguous_pipeline)
                   start).2 in
  let log := vk_log (driver (@set_shaderpack P0
                 (Example.shaderpack_with Example.contiguous_pipeline) loaded).2) in
  log !! 8%nat = Some (vkCreateGraphicsPipelines [(128, 104); (1, 103)] 107 102 108) /\
  pass <$> render_passes (shaderpack loaded) !! "main" = Some 102 /\
  (fun p => (pipeline_pass (pipeline_data_of p), pipeline p))
    <$> pipelines (shaderpack loaded) !! "gbuffers" = Some ("main", 108) /\
  log !! 9%nat = Some (vkDestroyRenderPass 102) /\
  log !! 10%nat = Some (vkDestroyPipeline 108).
Proof. vm_compute. repeat split; reflexivity. Qed.

Lemma set_shaderpack_destroys_witness :
  let loaded := (@set_shaderpack P0 (Example.shaderpack_with Example.contiguous_pipeline)
                   start).2 in
  shaderpack_loaded (shaderpack loaded) = true /\
  exists rest,
    vk_log (driver (@set_shaderpack P0
              (Example.shaderpack_with Example.contiguous_pipeline) loaded).2) =
      vk_log (driver loaded) ++ pass_destructions loaded ++ pipeline_destructions loaded
        ++ texture_destructions loaded ++ rest /\
    Forall creates rest.
Proof.
  intros loaded.
  assert (Hloaded : shaderpack_loaded (shaderpack loaded) = true) by (vm_compute; reflexivity).
  split; [exact Hloaded |].
  exact (set_shaderpack_destroys_passes_then_pipelines_then_textures
           (Example.shaderpack_with Example.contiguous_pipeline) loaded Hloaded).
Defined.

(** The tables hold one object per name.  A shaderpack that declares the
    texture colortex0 and the pipeline gbuffers twice leaves the engine with
    the second texture (image 102, view 103) and the first pipeline (110);
    the first image and view (100, 101) and the second pipeline (116) are
    in no table, and the reload destroys none of them. *)
Lemma objects_in_no_table_are_not_destroyed :
  let loaded := (@set_shaderpack P0 (Example.repeated_names Example.contiguous_pipeline)
                   start).2 in
  let log := vk_log (driver (@set_shaderpack P0
                 (Example.shaderpack_with Example.contiguous_pipeline) loaded).2) in
  log !! 0%nat = Some (vmaCreateImage VK_FORMAT_R8G8B8A8_UNORM 100) /\
  log !! 1%nat = Some (vkCreateImageView 100 101) /\
  log !! 16%nat = Some (vkCreateGraphicsPipelines [(128, 112); (1, 111)] 115 104 116) /\
  take 4 (drop 17 log) =
    [vkDestroyRenderPass 104; vkDestroyPipeline 110;
     vkDestroyImageView 103; vmaDestroyImage 102] /\
  existsb (destroys 100) log = false /\
  existsb (destroys 101) log = false /\
  existsb (destroys 116) log = false.
Proof. vm_compute. repeat split; reflexivity. Qed.



Lemma descriptor_set_layouts_witness :
  (N.of_nat (base.size Example.gap_bindings) < 2 ^ 32 /\
   populated Example.gap_bindings 2 /\ 1 < 2 /\ ~ populated Example.gap_bindings 1 /\
   exists i,
     @create_descriptor_set_layouts P0 Example.gap_bindings start =
       (Throws (shader_layout_creation_failed (set_not_present_msg i)),
        with_driver (fun d => set_nova_log (nova_log d ++ [could_not_get_msg i]) d) start) /\
     ~ populated Example.gap_bindings i) /\
  (N.of_nat (base.size Example.contiguous_bindings) < 2 ^ 32 /\
   (forall i, populated Example.contiguous_bindings i <-> i <= 1) /\
   exists layouts e',
     @create_descriptor_set_layouts P0 Example.contiguous_bindings start
       = (Returns layouts, e') /\
     length layouts = 2%nat).
Proof.
  assert (Hgap : map_to_list Example.gap_bindings =
                 [("7", Example.sampler_at 0 0); ("8", Example.sampler_at 2 0)])
    by (vm_compute; reflexivity).
  assert (Hcont : map_to_list Example.contiguous_bindings =
                  [("7", Example.sampler_at 0 0); ("8", Example.sampler_at 1 3)])
    by (vm_compute; reflexivity).
  assert (Hsize1 : N.of_nat (base.size Example.gap_bindings) < 2 ^ 32)
    by (vm_compute; reflexivity).
  assert (Hsize2 : N.of_nat (base.size Example.contiguous_bindings) < 2 ^ 32)
    by (vm_compute; reflexivity).
  assert (Hused : populated Example.gap_bindings 2).
  { exists "8", (Example.sampler_at 2 0). split; reflexivity. }
  assert (Hmissing : ~ populated Example.gap_bindings 1).
  { intros (name & b & Hb & Hset). apply elem_of_map_to_list in Hb.
    rewrite Hgap in Hb.
    repeat (apply elem_of_cons in Hb as [Hb | Hb]);
      [inversion Hb; subst; discriminate .. | by apply elem_of_nil in Hb]. }
  assert (Hexact : forall i, populated Example.contiguous_bindings i <-> i <= 1).
  { intros i. split.
    - intros (name & b & Hb & Hset). apply elem_of_map_to_list in Hb.
      rewrite Hcont in Hb.
      repeat (apply elem_of_cons in Hb as [Hb | Hb]);
        [inversion Hb; subst; cbn; lia .. | by apply elem_of_nil in Hb].
    - intros Hi. destruct (decide (i = 0)) as [-> | Hne].
      + exists "7", (Example.sampler_at 0 0). split; reflexivity.
      + assert (i = 1) as -> by lia.
        exists "8", (Example.sampler_at 1 3). split; reflexivity. }
  split.
  - split; [exact Hsize1 |]. split; [exact Hused |]. split; [lia |].
    split; [exact Hmissing |].
    destruct (@descriptor_set_layouts_need_contiguous_sets P0 Example.gap_bindings start Hsize1)
      as [Hthrows _].
    destruct (Hthrows 1 2 Hused ltac:(lia) Hmissing) as (i & Hrun & Hi & _).
    exists i. split; assumption.
  - split; [exact Hsize2 |]. split; [exact Hexact |].
    destruct (@descriptor_set_layouts_need_contiguous_sets P0 Example.contiguous_bindings
                start Hsize2) as [_ Hreturns].
    destruct (Hreturns 1 Hexact) as (layouts & e' & Hrun & Hlen & _).
    exists layouts, e'. split; assumption.
Defined.

Lemma merged_bindings_witness :
  exists compiled e',
    @compile_stages P0 Example.conflicting_types start = (Returns compiled, e') /\
    (forall name b, compiled.2 !! name = Some b ->
       descriptorType b = VK_DESCRIPTOR_TYPE_COMBINED_IMAGE_SAMPLER /\
       descriptorCount b = 1) /\
    (forall i l, group_by_set compiled.2 !! i = Some l ->
       Forall (fun lb =>
                 dslb_descriptorType lb = VK_DESCRIPTOR_TYPE_COMBINED_IMAGE_SAMPLER /\
                 dslb_descriptorType lb <> VK_DESCRIPTOR_TYPE_UNIFORM_BUFFER /\
                 dslb_descriptorCount lb = 1) l).
Proof.
  destruct (@compile_stages P0 Example.conflicting_types start)
    as [[compiled|x|] e'] eqn:Hrun.
  - exists compiled, e'. split; [reflexivity |].
    destruct (@merged_bindings_are_combined_image_samplers P0
                Example.conflicting_types compiled start e' Hrun) as (_ & Hb & Hl).
    split; [| exact Hl].
    intros name b Hname. destruct (Hb name b Hname) as (Ht & Hc & _). split; assumption.
  - exfalso. vm_compute in Hrun. discriminate Hrun.
  - exfalso. vm_compute in Hrun. discriminate Hrun.
Defined.

(** The example platform on the three passes of the spec's example: the
    table hands them out newest first, and the sort goes by the table; a
    cycle is rejected with the names of its passes. *)
Lemma order_passes_examples :
  (@regular_render_passes P0 [Example.pass_A; Example.pass_B; Example.pass_C]).*1
    = ["C"; "B"; "A"] /\
  @order_passes P0 (regular_render_passes
    [Example.pass_A; Example.pass_B; Example.pass_C]) = Returns ["B"; "A"; "C"] /\
  @order_passes P0 (regular_render_passes
    [Example.pass_C; Example.pass_B; Example.pass_A]) = Returns ["A"; "B"; "C"] /\
  @order_passes P0 (regular_render_passes
    [Example.pass_X; Example.pass_Y]) =
    Throws (pass_ordering_exception "dependency cycle among passes: Y, X").
Proof. vm_compute. repeat split; reflexivity. Qed.

End Examples.

(** ** Further examples, run *)

Section FurtherExamples.
Import Startup.
Local Open Scope N_scope.
Local Abbreviation P0 := (Example.platform Example.never_fails).
Local Abbreviation start := (Example.initial_engine Example.never_fails).

Lemma staging_buffer_is_created_witness :
  mesh_staging_buffers (mesh start) = [] /\
  exists e',
    @get_or_allocate_mesh_staging_buffer P0 start
      = (Returns {| buffer := 100; pMappedData := 100 |}, e') /\
    vk_log (driver e') = [vmaCreateBuffer 8 {| buffer := 100; pMappedData := 100 |}].
Proof.
  assert (Hpool : mesh_staging_buffers (mesh start) = []) by reflexivity.
  split; [exact Hpool |].
  destruct (@staging_buffer_is_created_when_pool_is_empty P0 start Hpool)
    as (e' & Hlog & _ & Hrun & _).
  exists e'. split; [exact Hrun | exact Hlog].
Defined.

Lemma add_mesh_records_mesh_witness :
  let e1 := (@add_mesh P0 Example.two_vertices start).2 in
  @add_mesh P0 Example.two_vertices start = (Returns 0, e1) /\
  next_mesh_id (mesh e1) = 1 /\
  exists allocation staging,
    meshes (mesh e1) !! 0
      = Some {| memory := allocation; mesh_input := Example.two_vertices |} /\
    mesh_upload_queue (mesh e1) = [{| staging_buffers := staging; mem := allocation |}] /\
    length staging = length (parts allocation).
Proof.
  intros e1.
  assert (Hrun : @add_mesh P0 Example.two_vertices start = (Returns 0, e1))
    by (vm_compute; reflexivity).
  split; [exact Hrun |].
  destruct (@add_mesh_records_mesh_and_queues_upload P0 _ _ _ _ Hrun)
    as (_ & Hnext & allocation & staging & _ & Hmesh & _ & Hqueue & Hlen).
  split; [exact Hnext |]. exists allocation, staging.
  split; [exact Hmesh |]. split; [exact Hqueue | exact Hlen].
Defined.

Lemma deleting_a_mesh_witness :
  let e1 := (@add_mesh P0 Example.two_vertices start).2 in
  @add_mesh P0 Example.two_vertices start = (Returns 0, e1) /\
  exists e2 cmd,
    delete_mesh 0 e1 = (Returns tt, e2) /\
    meshes (mesh e2) = delete 0 (meshes (mesh start)) /\
    mesh_upload_queue (mesh e2) = [cmd] /\
    allocator_state e2 = free (allocator_state e1) (mem cmd).
Proof.
  intros e1.
  assert (Hrun : @add_mesh P0 Example.two_vertices start = (Returns 0, e1))
    by (vm_compute; reflexivity).
  split; [exact Hrun |].
  exact (@deleting_a_mesh_leaves_its_upload_queued P0 _ _ _ _ Hrun).
Defined.

Lemma upload_queue_invariant_witness :
  let e' := default start (@after P0 Example.history start) in
  one_staging_buffer_per_part start /\
  @after P0 Example.history start = Some e' /\
  one_staging_buffer_per_part e'.
Proof.
  intros e'.
  assert (Hstart : one_staging_buffer_per_part start) by constructor.
  assert (Hafter : @after P0 Example.history start = Some e') by (vm_compute; reflexivity).
  split; [exact Hstart |]. split; [exact Hafter |].
  exact (@upload_queue_keeps_one_staging_buffer_per_part P0 _ _ _ Hstart Hafter).
Defined.

Lemma render_frame_submits_witness :
  submit_fences (frame start) !! N.to_nat (current_frame (frame start)) = Some 10 /\
  image_available_semaphores (frame start) !! N.to_nat (current_frame (frame start))
    = Some 20 /\
  render_finished_semaphores (frame start) !! N.to_nat (current_frame (frame start))
    = Some 30 /\
  command_buffers (frame start) !! 0%nat = Some 40 /\
  exists e',
    render_frame start = (Returns tt, e') /\
    vk_log (driver e') =
      [vkWaitForFences 10; vkAcquireNextImageKHR 20; vkResetFences 10;
       vkQueueSubmit graphics_queue (prerecorded 40) (Some 20) (Some 30) (Some 10);
       vkQueuePresentKHR 30 0] /\
    scheduled e' = [upload_new_mesh_parts_task] /\
    current_frame (frame e') = 1.
Proof.
  assert (H1 : submit_fences (frame start) !! N.to_nat (current_frame (frame start))
               = Some 10) by reflexivity.
  assert (H2 : image_available_semaphores (frame start)
                 !! N.to_nat (current_frame (frame start)) = Some 20) by reflexivity.
  assert (H3 : render_finished_semaphores (frame start)
                 !! N.to_nat (current_frame (frame start)) = Some 30) by reflexivity.
  assert (H4 : command_buffers (frame start) !! 0%nat = Some 40) by reflexivity.
  split; [exact H1 |]. split; [exact H2 |]. split; [exact H3 |]. split; [exact H4 |].
  destruct (@render_frame_submits_presents_and_advances P0 start 10 20 30 40
              H1 H2 H3 eq_refl H4 eq_refl eq_refl)
    as (e' & Hrun & Hlog & Hscheduled & Hslot & _).
  exists e'. split; [exact Hrun |]. split; [exact Hlog |].
  split; [exact Hscheduled | exact Hslot].
Defined.

Lemma frame_slots_cycle_witness :
  frame_ready start /\
  (forall n, Example.never_fails n = VK_SUCCESS) /\
  (3 < 2 ^ 32) /\
  current_frame (frame (frames 3 start)) = current_frame (frame start).
Proof.
  assert (Hready : frame_ready start).
  { split; cbn; [reflexivity | lia | lia | lia | intros _; lia]. }
  assert (Hdriver : forall n, Example.never_fails n = VK_SUCCESS) by reflexivity.
  assert (Hmax : 3 < 2 ^ 32) by reflexivity.
  split; [exact Hready |]. split; [exact Hdriver |]. split; [exact Hmax |].
  exact (proj2 (@frame_slots_cycle P0 start Hready Hdriver Hmax)).
Defined.

Lemma render_frame_acquire_fails_witness :
  let results := fun n => if Nat.eqb n 1 then VK_ERROR 7 else VK_SUCCESS in
  let e := Example.initial_engine results in
  submit_fences (frame e) !! N.to_nat (current_frame (frame e)) = Some 10 /\
  image_available_semaphores (frame e) !! N.to_nat (current_frame (frame e)) = Some 20 /\
  results (S (length (vk_log (driver e)))) = VK_ERROR 7 /\
  exists msg e',
    render_frame e = (Throws (render_engine_rendering_exception msg), e') /\
    vk_log (driver e') = [vkWaitForFences 10; vkAcquireNextImageKHR 20] /\
    scheduled e' = [].
Proof.
  intros results e.
  assert (H1 : submit_fences (frame e) !! N.to_nat (current_frame (frame e)) = Some 10)
    by reflexivity.
  assert (H2 : image_available_semaphores (frame e) !! N.to_nat (current_frame (frame e))
               = Some 20) by reflexivity.
  assert (H3 : results (S (length (vk_log (driver e)))) = VK_ERROR 7) by reflexivity.
  split; [exact H1 |]. split; [exact H2 |]. split; [exact H3 |].
  destruct (@render_frame_throws_when_acquire_fails (Example.platform results)
              e 10 20 7 H1 H2 H3)
    as (msg & e' & Hrun & Hlog & Hscheduled & _).
  exists msg, e'. split; [exact Hrun |]. split; [exact Hlog | exact Hscheduled].
Defined.

Lemma render_frame_submit_fails_witness :
  let results := fun n => if Nat.eqb n 3 then VK_ERROR 7 else VK_SUCCESS in
  let e := Example.initial_engine results in
  submit_fences (frame e) !! N.to_nat (current_frame (frame e)) = Some 10 /\
  image_available_semaphores (frame e) !! N.to_nat (current_frame (frame e)) = Some 20 /\
  render_finished_semaphores (frame e) !! N.to_nat (current_frame (frame e)) = Some 30 /\
  results 1%nat = VK_SUCCESS /\
  command_buffers (frame e) !! 0%nat = Some 40 /\
  results 3%nat <> VK_SUCCESS /\
  exists msg e',
    render_frame e = (Throws (render_engine_rendering_exception msg), e') /\
    vk_log (driver e') =
      [vkWaitForFences 10; vkAcquireNextImageKHR 20; vkResetFences 10;
       vkQueueSubmit graphics_queue (prerecorded 40) (Some 20) (Some 30) (Some 10)] /\
    current_frame (frame e') = 0.
Proof.
  intros results e.
  assert (H1 : submit_fences (frame e) !! N.to_nat (current_frame (frame e)) = Some 10)
    by reflexivity.
  assert (H2 : image_available_semaphores (frame e) !! N.to_nat (current_frame (frame e))
               = Some 20) by reflexivity.
  assert (H3 : render_finished_semaphores (frame e) !! N.to_nat (current_frame (frame e))
               = Some 30) by reflexivity.
  assert (H4 : results 1%nat = VK_SUCCESS) by reflexivity.
  assert (H5 : command_buffers (frame e) !! 0%nat = Some 40) by reflexivity.
  assert (H6 : results 3%nat <> VK_SUCCESS) by discriminate.
  split; [exact H1 |]. split; [exact H2 |]. split; [exact H3 |]. split; [exact H4 |].
  split; [exact H5 |]. split; [exact H6 |].
  destruct (@render_frame_throws_when_submit_fails (Example.platform results)
              e 10 20 30 40 H1 H2 H3 H4 H5 H6)
    as (msg & e' & Hrun & Hlog & _ & Hslot & _).
  exists msg, e'. split; [exact Hrun |]. split; [exact Hlog | exact Hslot].
Defined.

Lemma stored_pipeline_witness :
  let p := {| pipeline_data_of := Example.gap_pipeline; layout := 1; pipeline := 2 |} in
  let e := with_shaderpack (set_pipelines {["gbuffers" := p]}) start in
  pipelines (shaderpack e) !! "gbuffers" = Some p /\
  pipelines (shaderpack (create_graphics_pipelines [Example.contiguous_pipeline] e).2)
    !! "gbuffers" = Some p.
Proof.
  intros p e.
  assert (Hstored : pipelines (shaderpack e) !! "gbuffers" = Some p)
    by apply lookup_singleton_eq.
  split; [exact Hstored |].
  exact (@create_graphics_pipelines_keeps_stored_pipelines P0 "gbuffers" p
           [Example.contiguous_pipeline] e Hstored).
Defined.

Lemma create_swapchain_limits_witness :
  let window_size := {| width := 800; height := 600 |} in
  let limits :=
    {| minImageCount := 2; maxImageCount := 8;
       minImageExtent := {| width := 1; height := 1 |};
       maxImageExtent := {| width := 4096; height := 4096 |};
       currentTransform := 1 |} in
  let reports :=
    {| format_count_result := VK_SUCCESS;
       formats := [{| format := 44; colorSpace := 0 |}];
       present_mode_count_result := VK_SUCCESS;
       present_modes_result := VK_SUCCESS;
       present_modes := [VK_PRESENT_MODE_FIFO_KHR];
       capabilities_result := VK_SUCCESS;
       capabilities := limits;
       create_swapchain_result := VK_SUCCESS;
       images := [60; 61; 62] |} in
  exists s,
    create_swapchain window_size reports = Returns s /\
    info_minImageCount (swapchain_create_info s) <= 8 /\
    3 <= info_minImageCount (swapchain_create_info s) /\
    width (imageExtent (swapchain_create_info s)) = 800 /\
    height (imageExtent (swapchain_create_info s)) = 600.
Proof.
  intros window_size limits reports.
  destruct (create_swapchain window_size reports) as [s| |] eqn:Hrun;
    [| discriminate Hrun | discriminate Hrun].
  exists s. split; [reflexivity |].
  destruct (create_swapchain_respects_surface_limits window_size reports s Hrun)
    as (Hmax & Hthree & _ & _ & _ & _ & _ & Hwidth & Hheight & _).
  split; [destruct Hmax as [Hnone | Hmax]; [discriminate Hnone | exact Hmax] |].
  split; [apply Hthree; right; cbn; lia |].
  split; [apply Hwidth; cbn; lia | apply Hheight; cbn; lia].
Defined.

Lemma create_device_witness :
  let graphics_and_present :=
    {| family_properties := {| queueCount := 1; queueFlags := 7 |};
       surface_support_result := VK_SUCCESS; supports_present := true |} in
  let compute_only :=
    {| family_properties := {| queueCount := 1; queueFlags := 2 |};
       surface_support_result := VK_SUCCESS; supports_present := false |} in
  let intel :=
    {| vendorID := 0x8086; extension_names := ["VK_KHR_swapchain"];
       queue_families := [graphics_and_present] |} in
  let discrete :=
    {| vendorID := 0x10DE; extension_names := ["VK_KHR_maintenance1"; "VK_KHR_swapchain"];
       queue_families := [compute_only; graphics_and_present] |} in
  let reports :=
    {| device_count_result := VK_SUCCESS; enumerate_result := VK_SUCCESS;
       physical_devices := [intel; discrete]; create_device_result := VK_SUCCESS |} in
  let members :=
    {| physical_device := 1; graphics_queue_index := 1;
       compute_queue_index := 0; copy_queue_index := 1 |} in
  countable_in_32_bits (physical_devices reports) /\
  create_device reports = Returns members /\
  exists d family,
    physical_devices reports !! 1%nat = Some d /\
    suitable 2 1 d = true /\
    queue_families d !! 1%nat = Some family /\
    presentable_graphics_family family = true.
Proof.
  intros graphics_and_present compute_only intel discrete reports members.
  assert (Hcountable : countable_in_32_bits (physical_devices reports)).
  { split; [reflexivity |]. repeat constructor. }
  assert (Hrun : create_device reports = Returns members) by (vm_compute; reflexivity).
  split; [exact Hcountable |]. split; [exact Hrun |].
  destruct (create_device_chooses_first_suitable_device reports members Hcountable Hrun)
    as (d & family & Hd & Hsuitable & _ & Hfamily & Hpresentable & _).
  exists d, family. split; [exact Hd |]. split; [exact Hsuitable |].
  split; [exact Hfamily | exact Hpresentable].
Defined.

Lemma create_device_throws_witness :
  let without_swapchain :=
    {| vendorID := 0x10DE; extension_names := ["VK_KHR_maintenance1"];
       queue_families :=
         [{| family_properties := {| queueCount := 1; queueFlags := 7 |};
             surface_support_result := VK_SUCCESS; supports_present := true |}] |} in
  let reports :=
    {| device_count_result := VK_SUCCESS; enumerate_result := VK_SUCCESS;
       physical_devices := [without_swapchain]; create_device_result := VK_SUCCESS |} in
  countable_in_32_bits (physical_devices reports) /\
  (forall k d, physical_devices reports !! k = Some d ->
     suitable 1 (N.of_nat k) d = false) /\
  exists msg, create_device reports = Throws (render_engine_initialization_exception msg).
Proof.
  intros without_swapchain reports.
  assert (Hcountable : countable_in_32_bits (physical_devices reports)).
  { split; [reflexivity |]. repeat constructor. }
  assert (Hnone : forall k d, physical_devices reports !! k = Some d ->
                    suitable 1 (N.of_nat k) d = false).
  { intros [|k] d Hd; [| discriminate Hd]. injection Hd as <-. vm_compute. reflexivity. }
  split; [exact Hcountable |]. split; [exact Hnone |].
  exact (create_device_throws_without_suitable_device reports Hcountable Hnone).
Defined.

Lemma create_device_stale_compute_witness :
  let compute_family_1 :=
    {| family_properties := {| queueCount := 1; queueFlags := 2 |};
       surface_support_result := VK_SUCCESS; supports_present := false |} in
  let no_queues :=
    {| family_properties := {| queueCount := 0; queueFlags := 7 |};
       surface_support_result := VK_SUCCESS; supports_present := true |} in
  let graphics_only :=
    {| family_properties := {| queueCount := 1; queueFlags := 1 |};
       surface_support_result := VK_SUCCESS; supports_present := true |} in
  let rejected :=
    {| vendorID := 0x1002; extension_names := ["VK_KHR_swapchain"];
       queue_families := [no_queues; compute_family_1] |} in
  let chosen :=
    {| vendorID := 0x10DE; extension_names := ["VK_KHR_swapchain"];
       queue_families := [graphics_only] |} in
  let reports :=
    {| device_count_result := VK_SUCCESS; enumerate_result := VK_SUCCESS;
       physical_devices := [rejected; chosen]; create_device_result := VK_SUCCESS |} in
  let members :=
    {| physical_device := 1; graphics_queue_index := 0;
       compute_queue_index := 1; copy_queue_index := 0xFFFFFFFF |} in
  countable_in_32_bits (physical_devices reports) /\
  passed_over_as_intel 2 0 rejected = false /\
  does_device_support_extensions (extension_names rejected) = true /\
  Forall (fun f => presentable_graphics_family f = false) (queue_families rejected) /\
  list_find (fun f => compute_family f = true) (queue_families rejected)
    = Some (1%nat, compute_family_1) /\
  create_device reports = Returns members /\
  queue_families chosen !! N.to_nat (compute_queue_index members) = None.
Proof.
  intros compute_family_1 no_queues graphics_only rejected chosen reports members.
  assert (Hcountable : countable_in_32_bits (physical_devices reports)).
  { split; [reflexivity |]. repeat constructor. }
  assert (Hintel : passed_over_as_intel 2 0 rejected = false) by reflexivity.
  assert (Hext : does_device_support_extensions (extension_names rejected) = true)
    by (vm_compute; reflexivity).
  assert (Hnone : Forall (fun f => presentable_graphics_family f = false)
                         (queue_families rejected)) by (repeat constructor).
  assert (Hcompute : list_find (fun f => compute_family f = true) (queue_families rejected)
                     = Some (1%nat, compute_family_1)) by reflexivity.
  assert (Hrun : create_device reports = Returns members) by (vm_compute; reflexivity).
  split; [exact Hcountable |]. split; [exact Hintel |]. split; [exact Hext |].
  split; [exact Hnone |]. split; [exact Hcompute |]. split; [exact Hrun |].
  destruct (create_device_keeps_compute_family_of_rejected_device reports members
              rejected [chosen] 1 compute_family_1 eq_refl Hcountable Hintel Hext
              Hnone Hcompute Hrun) as [Hindex _].
  rewrite Hindex. reflexivity.
Defined.

Lemma create_swapchain_image_views_witness :
  (2 <= length ([60%N; 61%N] : list handle))%nat /\
  (forall i, (i < 2)%nat -> Example.never_fails (length (vk_log (driver start)) + i)
                            = VK_SUCCESS) /\
  exists e',
    @create_swapchain_image_views P0 [60; 61] start = (Returns [100; 101], e') /\
    vk_log (driver e') = [vkCreateImageView 60 100; vkCreateImageView 61 101].
Proof.
  assert (Hk : (2 <= length ([60%N; 61%N] : list handle))%nat) by reflexivity.
  assert (Hok : forall i, (i < 2)%nat ->
                  Example.never_fails (length (vk_log (driver start)) + i) = VK_SUCCESS)
    by reflexivity.
  split; [exact Hk |]. split; [exact Hok |].
  destruct (@create_swapchain_image_views_stops_at_first_failure P0 [60; 61] start 2
              Hk Hok (fun Hlt => match Nat.lt_irrefl _ Hlt with end))
    as (e' & Hlog & Hrun).
  exists e'. split; [exact Hrun | exact Hlog].
Defined.

Lemma set_shaderpack_destroys_nothing_witness :
  let failing := Example.shaderpack_with Example.gap_pipeline in
  let next := Example.shaderpack_with Example.contiguous_pipeline in
  shaderpack_loaded (shaderpack start) = false /\
  (@set_shaderpack P0 failing start).1 <> Returns tt /\
  exists rest,
    vk_log (driver (set_shaderpack next (@set_shaderpack P0 failing start).2).2)
      = vk_log (driver (@set_shaderpack P0 failing start).2) ++ rest /\
    Forall creates rest.
Proof.
  intros failing next.
  assert (Hloaded : shaderpack_loaded (shaderpack start) = false) by reflexivity.
  assert (Hfails : (@set_shaderpack P0 failing start).1 <> Returns tt).
  { intros Hrun. vm_compute in Hrun. discriminate Hrun. }
  split; [exact Hloaded |]. split; [exact Hfails |].
  exact (proj2 (@set_shaderpack_destroys_nothing_until_loaded P0 failing next start Hloaded)
           Hfails).
Defined.

Lemma reloading_witness :
  let pack := Example.shaderpack_with Example.contiguous_pipeline in
  let loaded := (@set_shaderpack P0 pack start).2 in
  let reloaded := (@set_shaderpack P0 pack loaded).2 in
  shaderpack_loaded (shaderpack loaded) = true /\
  @set_shaderpack P0 pack loaded = (Returns tt, reloaded) /\
  forall name,
    is_Some (dynamic_textures (shaderpack reloaded) !! name) <-> name ∈ ["colortex0"].
Proof.
  intros pack loaded reloaded.
  assert (Hloaded : shaderpack_loaded (shaderpack loaded) = true) by (vm_compute; reflexivity).
  assert (Hrun : @set_shaderpack P0 pack loaded = (Returns tt, reloaded))
    by (vm_compute; reflexivity).
  split; [exact Hloaded |]. split; [exact Hrun |].
  exact (proj1 (@reloading_replaces_textures_and_materials P0 pack loaded reloaded
                  Hloaded Hrun)).
Defined.

Lemma validate_mesh_options_witness :
  let options := {| MeshOptions.buffer_part_size := 8;
                    MeshOptions.new_buffer_size := 20;
                    MeshOptions.max_total_allocation := 30 |} in
  0 < 4 /\ 0 < MeshOptions.buffer_part_size options /\
  0 < MeshOptions.new_buffer_size options /\
  MeshOptions.multiple_of (MeshOptions.buffer_part_size options) 4 /\
  ~ MeshOptions.multiple_of (MeshOptions.new_buffer_size options)
      (MeshOptions.buffer_part_size options) /\
  MeshOptions.validate_mesh_options 4 options =
    Throws (runtime_error
      "mesh.new_buffer_size must be a multiple of mesh.buffer_part_size (which equals 8)").
Proof.
  intros options.
  assert (H1 : 0 < 4) by reflexivity.
  assert (H2 : 0 < MeshOptions.buffer_part_size options) by reflexivity.
  assert (H3 : 0 < MeshOptions.new_buffer_size options) by reflexivity.
  assert (H4 : MeshOptions.multiple_of (MeshOptions.buffer_part_size options) 4)
    by (exists 2; reflexivity).
  assert (H5 : ~ MeshOptions.multiple_of (MeshOptions.new_buffer_size options)
                   (MeshOptions.buffer_part_size options))
    by (intros [k Hk]; cbn in Hk; lia).
  split; [exact H1 |]. split; [exact H2 |]. split; [exact H3 |].
  split; [exact H4 |]. split; [exact H5 |].
  exact (proj1 (proj2 (proj2 (validate_mesh_options_nonzero 4 options H1 H2 H3))) H4 H5).
Defined.

Lemma command_pools_witness :
  let answers := fun n : nat => (VK_SUCCESS, 70 + N.of_nat n) in
  (forall n, (n < 3)%nat -> (answers n).1 = VK_SUCCESS) /\
  exists pools,
    make_new_command_pools 0 1 1 answers = Returns pools /\
    get_command_buffer_pool_for_current_thread pools 1 = Returns 72 /\
    get_command_buffer_pool_for_current_thread pools 0 = Returns 70.
Proof.
  intros answers.
  assert (Hok : forall n, (n < 3)%nat -> (answers n).1 = VK_SUCCESS) by reflexivity.
  split; [exact Hok |].
  destruct (command_pools_hold_last_pool_of_each_queue_index 0 1 1 answers Hok)
    as (pools & Hrun & Hcompute & _ & Hgraphics & _).
  exists pools. split; [exact Hrun |]. split; [exact Hcompute | exact Hgraphics].
Defined.

End FurtherExamples.
